(** * Encrypted case lifecycle of the rare-disease registry front end

    A shallow embedding of [src/frontend/web/src/App.tsx]: the bounded
    operation log ([addToHistory]), the reload of the case snapshot
    ([loadData]), the availability probe ([testAvailability]), the creation
    of a case ([createCase]), the verifiable decryption ([decryptData]) and
    the view-level gates of the two modals.

    The asynchronous functions are written in a small free monad [Prog]:
    state setters and timers are write-only operations, every [await] on a
    collaborator is a suspension point answered by the environment.  A
    sequential interpreter ([run]) executes one invocation against an
    arbitrary stateful world; a task pool ([Sys]) interleaves several
    invocations at their suspension points.

    Numbers are mathematical integers ([Z]); the rounding of JavaScript
    doubles above 2^53 is not modelled.  [NaN] is explicit where the code can
    produce it. *)

From Stdlib Require Import ZArith List String Ascii Bool Lia Arith.
From Stdlib Require Import DecimalString DecimalPos QArith Lqa.
Import ListNotations.

Close Scope Q_scope.

Local Open Scope string_scope.
Local Open Scope Z_scope.

Set Implicit Arguments.

(* ================================================================== *)
(** ** JavaScript values the code computes with *)
(* ================================================================== *)

Module Js.

(** A JavaScript number as the code observes it: an integer or [NaN]. *)
Inductive number : Type :=
| Num (z : Z)
| NaN.

(** [n || d] on numbers: [NaN] and [0] are falsy. *)
Definition or_else (n : number) (d : Z) : Z :=
  match n with
  | Num z => if Z.eqb z 0 then d else z
  | NaN => d
  end.

(** [Number(x)] of an integer read from the ledger. *)
Definition Number (z : Z) : number := Num z.

(** [Number(x)] of a property that may be absent ([undefined]). *)
Definition Number_of_lookup (o : option Z) : number :=
  match o with
  | Some z => Num z
  | None => NaN
  end.

(** A value caught by [catch (e: any)].  Reading [e.message] on [null] or
    [undefined] raises a TypeError; every other value has a [message] that
    is a string or is absent (a [message] of another type is not
    modelled). *)
Inductive thrown : Type :=
| Nullish
| Obj (message : option string).

Definition Error (m : string) : thrown := Obj (Some m).

(** The TypeError raised by a property read on [null] / [undefined]. *)
Definition TypeError_message : thrown :=
  Error "Cannot read properties of undefined (reading 'message')".

(** [String.prototype.includes]. *)
Fixpoint includes (s sub : string) : bool :=
  String.prefix sub s ||
  match s with
  | EmptyString => false
  | String _ s' => includes s' sub
  end.

(** [s.replace(pat, rep)] with a string pattern: the first occurrence. *)
Fixpoint replace (s pat rep : string) : string :=
  if String.prefix pat s
  then rep ++ substring (String.length pat) (String.length s - String.length pat) s
  else match s with
       | EmptyString => EmptyString
       | String c s' => String c (replace s' pat rep)
       end.

Definition is_digit (c : ascii) : bool :=
  let n := nat_of_ascii c in (48 <=? n)%nat && (n <=? 57)%nat.

(** [s.replace(/[^\d]/g, '')]. *)
Fixpoint strip_non_digits (s : string) : string :=
  match s with
  | EmptyString => EmptyString
  | String c s' =>
      if is_digit c then String c (strip_non_digits s') else strip_non_digits s'
  end.

(** Only digits. *)
Fixpoint all_digits (s : string) : bool :=
  match s with
  | EmptyString => true
  | String c s' => is_digit c && all_digits s'
  end.

(** White space that [parseInt] skips (the ASCII part of it). *)
Definition is_space (c : ascii) : bool :=
  let n := nat_of_ascii c in
  (n =? 32)%nat || ((9 <=? n)%nat && (n <=? 13)%nat).

Fixpoint skip_space (s : string) : string :=
  match s with
  | String c s' => if is_space c then skip_space s' else s
  | EmptyString => EmptyString
  end.

(** The value of a digit in the given radix (10 or 16), if it is one. *)
Definition digit_value (radix : Z) (c : ascii) : option Z :=
  let n := Z.of_nat (nat_of_ascii c) in
  if (48 <=? n) && (n <=? 57) then Some (n - 48)
  else if (radix =? 16) && (97 <=? n) && (n <=? 102) then Some (n - 87)
  else if (radix =? 16) && (65 <=? n) && (n <=? 70) then Some (n - 55)
  else None.

(** The longest prefix of digits, accumulated left to right; [None] when
    the prefix is empty. *)
Fixpoint digits_prefix (radix : Z) (s : string) (acc : option Z) : option Z :=
  match s with
  | EmptyString => acc
  | String c s' =>
      match digit_value radix c with
      | Some d =>
          digits_prefix radix s'
            (Some (match acc with Some a => a * radix + d | None => d end))
      | None => acc
      end
  end.

Definition parse_unsigned (s : string) : option Z :=
  match s with
  | String c1 (String c2 s') =>
      if Ascii.eqb c1 "0" && (Ascii.eqb c2 "x" || Ascii.eqb c2 "X")
      then digits_prefix 16 s' None
      else digits_prefix 10 s None
  | _ => digits_prefix 10 s None
  end.

Definition of_parse (negative : bool) (o : option Z) : number :=
  match o with
  | Some z => Num (if negative then - z else z)
  | None => NaN
  end.

(** [parseInt(s)] without a radix: leading white space, an optional sign,
    an optional [0x] prefix, then the longest prefix of digits. *)
Definition parseInt (s : string) : number :=
  match skip_space s with
  | String c s' =>
      if Ascii.eqb c "-" then of_parse true (parse_unsigned s')
      else if Ascii.eqb c "+" then of_parse false (parse_unsigned s')
      else of_parse false (parse_unsigned (String c s'))
  | EmptyString => NaN
  end.

(** Decimal rendering of a number inside a template literal. *)
Definition of_Z (z : Z) : string := NilZero.string_of_int (Z.to_int z).
Definition of_nat (n : nat) : string := NilZero.string_of_uint (Nat.to_uint n).

End Js.

(* ================================================================== *)
(** ** Data model *)
(* ================================================================== *)

(** [interface DiseaseCase]. *)
Record DiseaseCase : Type := mkCase {
  id : Z;
  name : string;
  age : Z;
  diseaseType : string;
  symptoms : string;
  timestamp : Z;
  creator : string;
  publicValue1 : Z;
  publicValue2 : Z;
  isVerified : bool;
  decryptedValue : Z
}.

(** What [contract.getBusinessData] resolves to. *)
Record BusinessData : Type := mkData {
  bd_name : string;
  bd_description : string;
  bd_publicValue1 : Z;
  bd_publicValue2 : Z;
  bd_timestamp : Z;
  bd_creator : string;
  bd_isVerified : bool;
  bd_decryptedValue : Z
}.

Inductive Phase : Type := pending | success | error.

(** The [transactionStatus] state. *)
Record TxStatus : Type := mkStatus {
  visible : bool;
  status : Phase;
  message : string
}.

Definition hidden : TxStatus := mkStatus false pending "".

(** The [newCaseData] state (the form of the create modal). *)
Record CaseForm : Type := mkForm {
  f_name : string;
  f_age : string;
  f_diseaseType : string;
  f_symptoms : string
}.

Definition emptyForm : CaseForm := mkForm "" "" "" "".

(** What [encrypt] resolves to. *)
Record Encrypted : Type := mkEnc {
  encryptedData : string;
  proof : string
}.

(** The two contract objects of [./components/useContract]. *)
Inductive Contract : Type := ReadOnly | WithSigner.

(** [result.decryptionResult.clearValues]: an object keyed by handle. *)
Definition ClearValues : Type := list (string * Z).

Fixpoint clear_lookup (cv : ClearValues) (h : string) : option Z :=
  match cv with
  | [] => None
  | (k, v) :: cv' => if String.eqb k h then Some v else clear_lookup cv' h
  end.

(** The part of the component state the modelled functions write.
    [localDecrypted] is the state of the detail modal; [timers] holds the
    delays of the registered [setTimeout] callbacks that hide the banner,
    oldest first. *)
Record St : Type := mkSt {
  cases : list DiseaseCase;
  isRefreshing : bool;
  showCreateModal : bool;
  creatingCase : bool;
  transactionStatus : TxStatus;
  newCaseData : CaseForm;
  operationHistory : list string;
  localDecrypted : option Js.number;
  timers : list Z
}.

(** [useState] initial values. *)
Definition initialSt : St :=
  mkSt [] false false false hidden emptyForm [] None [].

(** The values an async function closes over at the render that created it:
    the wallet hooks, [contractAddress] and the form. *)
Record Closure : Type := mkClosure {
  isConnected : bool;
  address : option string;
  contractAddress : string;
  formData : CaseForm
}.

(* ================================================================== *)
(** ** Operation log *)
(* ================================================================== *)

(** [setOperationHistory(prev => [operation, ...prev.slice(0, 9)])]. *)
Definition addToHistory (operation : string) (prev : list string) : list string :=
  operation :: firstn 9 prev.

(** A sequence of appends, oldest first. *)
Definition appendAll (ops : list string) (log : list string) : list string :=
  fold_left (fun l o => addToHistory o l) ops log.

(* ================================================================== *)
(** ** The free monad of asynchronous code *)
(* ================================================================== *)

(** Write-only effects on the component: state setters, the banner timer and
    the console. *)
Inductive Op : Type :=
| SetTransactionStatus (s : TxStatus)
| SetTimeoutHide (ms : Z)
| AddToHistory (operation : string)
| SetCases (l : list DiseaseCase)
| SetIsRefreshing (b : bool)
| SetCreatingCase (b : bool)
| SetShowCreateModal (b : bool)
| SetNewCaseData (f : CaseForm)
| SetLocalDecrypted (n : Js.number)
| ConsoleError.

(** Awaited calls on the collaborators, indexed by what they resolve to. *)
Inductive Call : Type -> Type :=
| GetContractReadOnly : Call (option Contract)
| GetContractWithSigner : Call (option Contract)
| GetAllBusinessIds : Call (list string)
| GetBusinessData (businessId : string) : Call BusinessData
| IsAvailable : Call bool
| Encrypt (contractAddr userAddr : string) (value : Z) : Call Encrypted
| CreateBusinessData (businessId nm : string) (enc prf : string)
    (pv1 pv2 : Z) (description : string) : Call string
| TxWait (tx : string) : Call unit
| GetEncryptedValue (businessId : string) : Call string
| VerifyDecryption (handles : list string) (contractAddr : string)
    (callbackBusinessId : string) : Call ClearValues.

(** A settled promise. *)
Inductive Resp (X : Type) : Type :=
| Resolved (x : X)
| Rejected (e : Js.thrown).

Arguments Resolved {X} x.
Arguments Rejected {X} e.

Inductive Prog (A : Type) : Type :=
| Ret (a : A)
| Throw (e : Js.thrown)
| Do (o : Op) (k : Prog A)
| Now (k : Z -> Prog A)
| Await (X : Type) (c : Call X) (k : Resp X -> Prog A).

Arguments Ret {A} a.
Arguments Throw {A} e.
Arguments Do {A} o k.
Arguments Now {A} k.
Arguments Await {A X} c k.

Fixpoint bind {A B : Type} (p : Prog A) (f : A -> Prog B) : Prog B :=
  match p with
  | Ret a => f a
  | Throw e => Throw e
  | Do o k => Do o (bind k f)
  | Now k => Now (fun t => bind (k t) f)
  | Await c k => Await c (fun r => bind (k r) f)
  end.

(** [try { p } catch (e) { h e }]. *)
Fixpoint try_catch {A : Type} (p : Prog A) (h : Js.thrown -> Prog A) : Prog A :=
  match p with
  | Ret a => Ret a
  | Throw e => h e
  | Do o k => Do o (try_catch k h)
  | Now k => Now (fun t => try_catch (k t) h)
  | Await c k => Await c (fun r => try_catch (k r) h)
  end.

(** [try { p } finally { f }]: [f] runs on every completion of [p]; a
    completion of [f] by a throw replaces that of [p]. *)
Fixpoint finally {A : Type} (p : Prog A) (f : Prog unit) : Prog A :=
  match p with
  | Ret a => bind f (fun _ => Ret a)
  | Throw e => bind f (fun _ => Throw e)
  | Do o k => Do o (finally k f)
  | Now k => Now (fun t => finally (k t) f)
  | Await c k => Await c (fun r => finally (k r) f)
  end.

(** [await c]: a rejection is thrown at the suspension point. *)
Definition await {X : Type} (c : Call X) : Prog X :=
  Await c (fun r => match r with
                    | Resolved x => Ret x
                    | Rejected e => Throw e
                    end).

Definition do_ (o : Op) : Prog unit := Do o (Ret tt).
Definition Date_now : Prog Z := Now (fun t => Ret t).

Declare Scope prog_scope.
Delimit Scope prog_scope with prog.
Notation "x <- p ;; q" := (bind p (fun x => q))
  (at level 100, p at next level, right associativity) : prog_scope.
Notation "p ;; q" := (bind p (fun _ => q))
  (at level 100, right associativity) : prog_scope.
Local Open Scope prog_scope.

(** The effect of one operation on the state.  A timer is registered, to
    fire later; the console leaves the state unchanged. *)
Definition apply_op (o : Op) (s : St) : St :=
  match o with
  | SetTransactionStatus x =>
      mkSt (cases s) (isRefreshing s) (showCreateModal s) (creatingCase s) x
           (newCaseData s) (operationHistory s) (localDecrypted s) (timers s)
  | SetTimeoutHide ms =>
      mkSt (cases s) (isRefreshing s) (showCreateModal s) (creatingCase s)
           (transactionStatus s) (newCaseData s) (operationHistory s)
           (localDecrypted s) (timers s ++ [ms])
  | AddToHistory x =>
      mkSt (cases s) (isRefreshing s) (showCreateModal s) (creatingCase s)
           (transactionStatus s) (newCaseData s)
           (addToHistory x (operationHistory s)) (localDecrypted s) (timers s)
  | SetCases l =>
      mkSt l (isRefreshing s) (showCreateModal s) (creatingCase s)
           (transactionStatus s) (newCaseData s) (operationHistory s)
           (localDecrypted s) (timers s)
  | SetIsRefreshing b =>
      mkSt (cases s) b (showCreateModal s) (creatingCase s)
           (transactionStatus s) (newCaseData s) (operationHistory s)
           (localDecrypted s) (timers s)
  | SetCreatingCase b =>
      mkSt (cases s) (isRefreshing s) (showCreateModal s) b
           (transactionStatus s) (newCaseData s) (operationHistory s)
           (localDecrypted s) (timers s)
  | SetShowCreateModal b =>
      mkSt (cases s) (isRefreshing s) b (creatingCase s)
           (transactionStatus s) (newCaseData s) (operationHistory s)
           (localDecrypted s) (timers s)
  | SetNewCaseData f =>
      mkSt (cases s) (isRefreshing s) (showCreateModal s) (creatingCase s)
           (transactionStatus s) f (operationHistory s) (localDecrypted s)
           (timers s)
  | SetLocalDecrypted n =>
      mkSt (cases s) (isRefreshing s) (showCreateModal s) (creatingCase s)
           (transactionStatus s) (newCaseData s) (operationHistory s) (Some n)
           (timers s)
  | ConsoleError => s
  end.

(** A registered timer fires: the banner is hidden, whatever it shows by
    then, and the timer is gone. *)
Definition fire_timer (i : nat) (s : St) : St :=
  match nth_error (timers s) i with
  | Some _ =>
      mkSt (cases s) (isRefreshing s) (showCreateModal s) (creatingCase s)
           hidden (newCaseData s) (operationHistory s) (localDecrypted s)
           (firstn i (timers s) ++ skipn (S i) (timers s))
  | None => s
  end.

(* ================================================================== *)
(** ** The asynchronous functions of [App] *)
(* ================================================================== *)

Definition banner (p : Phase) (m : string) : Prog unit :=
  do_ (SetTransactionStatus (mkStatus true p m)).

(** [!isConnected || !address]: the caller address when the guard passes. *)
Definition connected_address (cx : Closure) : option string :=
  if isConnected cx then
    match address cx with
    | Some a => if String.eqb a "" then None else Some a
    | None => None
    end
  else None.

(** [parseInt(businessId.replace('case-', '')) || Date.now()]: the clock is
    read only when the left operand is falsy. *)
Definition case_id (businessId : string) : Prog Z :=
  match Js.parseInt (Js.replace businessId "case-" "") with
  | Js.Num z => if Z.eqb z 0 then Date_now else Ret z
  | Js.NaN => Date_now
  end.

(** The object pushed onto [casesList]. *)
Definition case_of (idv : Z) (d : BusinessData) : DiseaseCase :=
  mkCase idv (bd_name d)
         (Js.or_else (Js.Number (bd_publicValue1 d)) 0)
         (bd_description d)
         "Symptoms recorded"
         (bd_timestamp d)
         (bd_creator d)
         (Js.or_else (Js.Number (bd_publicValue1 d)) 0)
         (Js.or_else (Js.Number (bd_publicValue2 d)) 0)
         (bd_isVerified d)
         (Js.or_else (Js.Number (bd_decryptedValue d)) 0).

(** The [for (const businessId of businessIds)] loop of [loadData]: each
    iteration has its own [try]/[catch]. *)
Fixpoint load_cases (businessIds : list string) (casesList : list DiseaseCase)
  : Prog (list DiseaseCase) :=
  match businessIds with
  | [] => Ret casesList
  | businessId :: rest =>
      casesList' <-
        try_catch
          (businessData <- await (GetBusinessData businessId) ;;
           idv <- case_id businessId ;;
           Ret (casesList ++ [case_of idv businessData])%list)
          (fun _ => do_ ConsoleError ;; Ret casesList) ;;
      load_cases rest casesList'
  end.

Definition refreshed_entry (n : nat) : string :=
  "Data refreshed: " ++ Js.of_nat n ++ " cases loaded".

Definition loadData (cx : Closure) : Prog unit :=
  if negb (isConnected cx) then Ret tt
  else
    do_ (SetIsRefreshing true) ;;
    finally
      (try_catch
         (contract <- await GetContractReadOnly ;;
          match contract with
          | None => Ret tt
          | Some _ =>
              businessIds <- await GetAllBusinessIds ;;
              casesList <- load_cases businessIds [] ;;
              do_ (SetCases casesList) ;;
              do_ (AddToHistory (refreshed_entry (List.length casesList)))
          end)
         (fun _ =>
            banner error "Failed to load data" ;;
            do_ (SetTimeoutHide 3000)))
      (do_ (SetIsRefreshing false)).

Definition testAvailability (cx : Closure) : Prog unit :=
  if negb (isConnected cx) then Ret tt
  else
    finally
      (try_catch
         (contract <- await GetContractReadOnly ;;
          match contract with
          | None => Ret tt
          | Some _ =>
              available <- await IsAvailable ;;
              if available : bool then
                banner success "FHE System is available and ready!" ;;
                do_ (AddToHistory "System availability checked: Ready")
              else Ret tt
          end)
         (fun _ => banner error "Availability check failed"))
      (do_ (SetTimeoutHide 2000)).

(** Reading [e.message] in a [catch] block. *)
Definition message_of (e : Js.thrown) : Prog (option string) :=
  match e with
  | Js.Nullish => Throw Js.TypeError_message
  | Js.Obj m => Ret m
  end.

(** [m?.includes(sub)] used as a condition. *)
Definition message_includes (m : option string) (sub : string) : bool :=
  match m with
  | Some s => Js.includes s sub
  | None => false
  end.

(** [e.message || "Unknown error"]. *)
Definition message_or_unknown (m : option string) : string :=
  match m with
  | Some s => if String.eqb s "" then "Unknown error" else s
  | None => "Unknown error"
  end.

(** The [try] block of [createCase]. *)
Definition createCase_try (cx : Closure) (addr : string) : Prog unit :=
  contract <- await GetContractWithSigner ;;
  match contract with
  | None => Throw (Js.Error "Failed to get contract with signer")
  | Some _ =>
      let ageValue := Js.or_else (Js.parseInt (f_age (formData cx))) 0 in
      t <- Date_now ;;
      let businessId := "case-" ++ Js.of_Z t in
      encryptedResult <-
        await (Encrypt (contractAddress cx) addr ageValue) ;;
      tx <- await (CreateBusinessData businessId
                     (f_name (formData cx))
                     (encryptedData encryptedResult)
                     (proof encryptedResult)
                     ageValue 0
                     (f_diseaseType (formData cx))) ;;
      banner pending "Storing encrypted data on blockchain..." ;;
      await (TxWait tx) ;;
      banner success "Patient case created successfully!" ;;
      do_ (AddToHistory ("New case created: " ++ f_name (formData cx))) ;;
      do_ (SetTimeoutHide 2000) ;;
      loadData cx ;;
      do_ (SetShowCreateModal false) ;;
      do_ (SetNewCaseData emptyForm)
  end.

(** The [catch (e: any)] block of [createCase]. *)
Definition createCase_catch (e : Js.thrown) : Prog unit :=
  m <- message_of e ;;
  let errorMessage :=
    if message_includes m "user rejected transaction"
    then "Transaction rejected"
    else "Creation failed: " ++ message_or_unknown m in
  banner error errorMessage ;;
  do_ (SetTimeoutHide 3000).

Definition createCase (cx : Closure) : Prog unit :=
  match connected_address cx with
  | None =>
      banner error "Please connect wallet first" ;;
      do_ (SetTimeoutHide 3000)
  | Some addr =>
      do_ (SetCreatingCase true) ;;
      banner pending "Encrypting patient data with FHE..." ;;
      finally
        (try_catch (createCase_try cx addr) createCase_catch)
        (do_ (SetCreatingCase false))
  end.

(** The [try] block of [decryptData]. *)
Definition decryptData_try (cx : Closure) (businessId : string)
  : Prog (option Js.number) :=
  contractRead <- await GetContractReadOnly ;;
  match contractRead with
  | None => Ret None
  | Some _ =>
      businessData <- await (GetBusinessData businessId) ;;
      if bd_isVerified businessData then
        let storedValue :=
          Js.or_else (Js.Number (bd_decryptedValue businessData)) 0 in
        banner success "Data already verified" ;;
        do_ (SetTimeoutHide 2000) ;;
        do_ (AddToHistory ("Data verified for case: " ++ bd_name businessData)) ;;
        Ret (Some (Js.Num storedValue))
      else
        contractWrite <- await GetContractWithSigner ;;
        match contractWrite with
        | None => Ret None
        | Some _ =>
            encryptedValueHandle <- await (GetEncryptedValue businessId) ;;
            result <- await (VerifyDecryption [encryptedValueHandle]
                               (contractAddress cx) businessId) ;;
            banner pending "Verifying decryption..." ;;
            let clearValue := clear_lookup result encryptedValueHandle in
            loadData cx ;;
            do_ (AddToHistory ("Data decrypted for case: " ++ bd_name businessData)) ;;
            banner success "Data decrypted successfully!" ;;
            do_ (SetTimeoutHide 2000) ;;
            Ret (Some (Js.Number_of_lookup clearValue))
        end
  end.

(** The [catch (e: any)] block of [decryptData]. *)
Definition decryptData_catch (cx : Closure) (e : Js.thrown)
  : Prog (option Js.number) :=
  m <- message_of e ;;
  if message_includes m "Data already verified" then
    banner success "Data is already verified" ;;
    do_ (SetTimeoutHide 2000) ;;
    loadData cx ;;
    Ret None
  else
    banner error "Decryption failed" ;;
    do_ (SetTimeoutHide 3000) ;;
    Ret None.

Definition decryptData (cx : Closure) (businessId : string)
  : Prog (option Js.number) :=
  match connected_address cx with
  | None =>
      banner error "Please connect wallet first" ;;
      do_ (SetTimeoutHide 3000) ;;
      Ret None
  | Some _ =>
      try_catch (decryptData_try cx businessId) (decryptData_catch cx)
  end.

(* ================================================================== *)
(** ** The gates of the view *)
(* ================================================================== *)

(** [ModalCreateCase.handleChange]: the age keeps its digits only.  The
    modal has inputs for the name, the age and the disease type. *)
Definition handleChange (field value : string) (caseData : CaseForm) : CaseForm :=
  if String.eqb field "age" then
    mkForm (f_name caseData) (Js.strip_non_digits value)
           (f_diseaseType caseData) (f_symptoms caseData)
  else if String.eqb field "name" then
    mkForm value (f_age caseData) (f_diseaseType caseData) (f_symptoms caseData)
  else if String.eqb field "diseaseType" then
    mkForm (f_name caseData) (f_age caseData) value (f_symptoms caseData)
  else if String.eqb field "symptoms" then
    mkForm (f_name caseData) (f_age caseData) (f_diseaseType caseData) value
  else caseData.

(** The [disabled] attribute of the submit button of the create modal. *)
Definition submit_disabled (creating isEncrypting : bool) (caseData : CaseForm) : bool :=
  creating || isEncrypting
  || String.eqb (f_name caseData) ""
  || String.eqb (f_age caseData) ""
  || String.eqb (f_diseaseType caseData) "".

(** [CaseDetailModal.handleDecrypt] for the selected case; the [decryptData]
    prop is [() => decryptData(`case-${selectedCase.id}`)]. *)
Definition handleDecrypt (cx : Closure) (caseItem : DiseaseCase) : Prog unit :=
  if isVerified caseItem then Ret tt
  else
    decrypted <- decryptData cx ("case-" ++ Js.of_Z (id caseItem)) ;;
    match decrypted with
    | Some v => do_ (SetLocalDecrypted v)
    | None => Ret tt
    end.

(* ================================================================== *)
(** ** Sequential execution against the collaborators *)
(* ================================================================== *)

(** The collaborators as one stateful world: every awaited call is answered
    by a resolution or a rejection and may change the world; [clock] is what
    [Date.now()] reads. *)
Record World (W : Type) : Type := mkWorld {
  answer : forall X : Type, Call X -> W -> Resp X * W;
  clock : W -> Z
}.

Arguments answer {W} _ {X} _ _.
Arguments clock {W} _ _.

(** What a run leaves behind, in order: operations and awaited calls. *)
Inductive Ev : Type :=
| EvOp (o : Op)
| EvCall (X : Type) (c : Call X).

Arguments EvCall {X} c.

Inductive Outcome (A : Type) : Type :=
| Returned (a : A)
| Thrown (e : Js.thrown).

Arguments Returned {A} a.
Arguments Thrown {A} e.

Record Result (A W : Type) : Type := mkResult {
  outcome : Outcome A;
  world : W;
  state : St;
  trace : list Ev
}.

Definition emit {A W : Type} (evs : list Ev) (r : Result A W) : Result A W :=
  mkResult (outcome r) (world r) (state r) (evs ++ trace r)%list.

Section Run.

Variable W : Type.
Variable E : World W.

Fixpoint run {A : Type} (p : Prog A) (w : W) (s : St) : Result A W :=
  match p with
  | Ret a => mkResult (Returned a) w s []
  | Throw e => mkResult (Thrown e) w s []
  | Do o k => emit [EvOp o] (run k w (apply_op o s))
  | Now k => run (k (clock E w)) w s
  | Await c k =>
      let (x, w') := answer E c w in
      emit [EvCall c] (run (k x) w' s)
  end.

(** Continuing a result with the next piece of code. *)
Definition and_then {A B : Type} (r : Result A W)
           (f : A -> W -> St -> Result B W) : Result B W :=
  match outcome r with
  | Returned a => emit (trace r) (f a (world r) (state r))
  | Thrown e => mkResult (Thrown e) (world r) (state r) (trace r)
  end.

Definition or_catch {A : Type} (r : Result A W)
           (h : Js.thrown -> W -> St -> Result A W) : Result A W :=
  match outcome r with
  | Returned a => r
  | Thrown e => emit (trace r) (h e (world r) (state r))
  end.

(** [finally]: the finaliser runs after either completion. *)
Definition and_finally {A : Type} (r : Result A W) (f : Prog unit) : Result A W :=
  let r' := run f (world r) (state r) in
  match outcome r' with
  | Returned _ => mkResult (outcome r) (world r') (state r') (trace r ++ trace r')%list
  | Thrown e => mkResult (Thrown e) (world r') (state r') (trace r ++ trace r')%list
  end.

End Run.

Arguments run {W} E {A} p w s.
Arguments and_then {W A B} r f.
Arguments or_catch {W A} r h.
Arguments and_finally {W} E {A} r f.

(** The state after a run is the replay of the operations of its trace:
    the code never reads the state it writes. *)
Definition replay (tr : list Ev) (s : St) : St :=
  fold_left (fun s e => match e with EvOp o => apply_op o s | EvCall _ => s end) tr s.


(* ================================================================== *)
(** ** What a trace shows *)
(* ================================================================== *)

(** The entries appended to the operation log, oldest first. *)
Fixpoint log_entries (tr : list Ev) : list string :=
  match tr with
  | [] => []
  | EvOp (AddToHistory x) :: tr' => x :: log_entries tr'
  | _ :: tr' => log_entries tr'
  end.

(** The snapshots installed by [setCases], oldest first. *)
Fixpoint snapshots (tr : list Ev) : list (list DiseaseCase) :=
  match tr with
  | [] => []
  | EvOp (SetCases l) :: tr' => l :: snapshots tr'
  | _ :: tr' => snapshots tr'
  end.

(** The delay of the first timer registered before the banner changes
    again. *)
Fixpoint next_timer (tr : list Ev) : option Z :=
  match tr with
  | [] => None
  | EvOp (SetTimeoutHide ms) :: _ => Some ms
  | EvOp (SetTransactionStatus _) :: _ => None
  | _ :: tr' => next_timer tr'
  end.

Definition transient (p : Phase) : bool :=
  match p with
  | pending => false
  | _ => true
  end.

(** Every success or error banner of a trace with the delay of the timer
    registered for it. *)
Fixpoint banners (tr : list Ev) : list (Phase * option Z) :=
  match tr with
  | [] => []
  | EvOp (SetTransactionStatus x) :: tr' =>
      if visible x && transient (status x)
      then (status x, next_timer tr') :: banners tr'
      else banners tr'
  | _ :: tr' => banners tr'
  end.




Definition is_create_tx (e : Ev) : bool :=
  match e with
  | EvCall c =>
      match c with
      | CreateBusinessData _ _ _ _ _ _ _ => true
      | _ => false
      end
  | EvOp _ => false
  end.

Definition is_verifier_call (e : Ev) : bool :=
  match e with
  | EvCall c =>
      match c with
      | VerifyDecryption _ _ _ => true
      | _ => false
      end
  | EvOp _ => false
  end.

(** The calls that write to the ledger or start a decryption round.  The
    verifier submits through its callback, inside [VerifyDecryption]. *)
Definition is_write (e : Ev) : bool := is_create_tx e || is_verifier_call e.

Definition created_banner : Ev :=
  EvOp (SetTransactionStatus (mkStatus true success "Patient case created successfully!")).

Definition is_created_banner (e : Ev) : bool :=
  match e with
  | EvOp (SetTransactionStatus x) =>
      match status x with
      | success =>
          visible x && String.eqb (message x) "Patient case created successfully!"
      | _ => false
      end
  | _ => false
  end.

(* ================================================================== *)
(** ** What the ledger answers during a reload *)
(* ================================================================== *)

(** The identifier of a case: [parseInt(...) || t], [t] the clock. *)
Definition id_of (businessId : string) (t : Z) : Z :=
  Js.or_else (Js.parseInt (Js.replace businessId "case-" "")) t.

Section Ledger.

Variable W : Type.
Variable E : World W.

(** The answers to the successive [getBusinessData] calls of a reload,
    with the clock after each answer. *)
Fixpoint fetches (businessIds : list string) (w : W)
  : list (string * Resp BusinessData * Z) :=
  match businessIds with
  | [] => []
  | i :: rest =>
      let (x, w') := answer E (GetBusinessData i) w in
      (i, x, clock E w') :: fetches rest w'
  end.

(** The world after those calls. *)
Fixpoint after_fetches (businessIds : list string) (w : W) : W :=
  match businessIds with
  | [] => w
  | i :: rest => after_fetches rest (snd (answer E (GetBusinessData i) w))
  end.

End Ledger.

Arguments fetches {W} E businessIds w.
Arguments after_fetches {W} E businessIds w.

(** The cases of the fetches that resolved, in order. *)
Fixpoint fetched_cases (l : list (string * Resp BusinessData * Z)) : list DiseaseCase :=
  match l with
  | [] => []
  | (i, Resolved d, t) :: l' => case_of (id_of i t) d :: fetched_cases l'
  | (_, Rejected _, _) :: l' => fetched_cases l'
  end.

(** The fetches that resolved, in order: the key, the record the ledger
    returned for it and the clock after the answer. *)
Fixpoint resolved (l : list (string * Resp BusinessData * Z))
  : list (string * BusinessData * Z) :=
  match l with
  | [] => []
  | (i, Resolved d, t) :: l' => (i, d, t) :: resolved l'
  | (_, Rejected _, _) :: l' => resolved l'
  end.

(** A displayed case shows the record [d] fetched under the key [i]: every
    field of the case is the field of the record it is read from, the id
    is the number of the key, or the clock [t] when the key has none, and
    the symptoms are the fixed text. *)
Definition shows (c : DiseaseCase) (rec : string * BusinessData * Z) : Prop :=
  let '(i, d, t) := rec in
  id c = id_of i t
  /\ name c = bd_name d
  /\ age c = bd_publicValue1 d
  /\ diseaseType c = bd_description d
  /\ symptoms c = "Symptoms recorded"
  /\ timestamp c = bd_timestamp d
  /\ creator c = bd_creator d
  /\ publicValue1 c = bd_publicValue1 d
  /\ publicValue2 c = bd_publicValue2 d
  /\ isVerified c = bd_isVerified d
  /\ decryptedValue c = bd_decryptedValue d.

(** The events of the loop of a reload: each fetch, and the console line of
    each rejected one. *)
Fixpoint fetch_trace (l : list (string * Resp BusinessData * Z)) : list Ev :=
  match l with
  | [] => []
  | (i, Resolved _, _) :: l' => EvCall (GetBusinessData i) :: fetch_trace l'
  | (i, Rejected _, _) :: l' =>
      EvCall (GetBusinessData i) :: EvOp ConsoleError :: fetch_trace l'
  end.

(** How many of the fetches were rejected. *)
Fixpoint rejected_count (l : list (string * Resp BusinessData * Z)) : nat :=
  match l with
  | [] => O
  | (_, Resolved _, _) :: l' => rejected_count l'
  | (_, Rejected _, _) :: l' => S (rejected_count l')
  end.

(** The state a reload leaves when the key list could not be fetched. *)
Definition reload_failed (s : St) : St :=
  apply_op (SetIsRefreshing false)
    (apply_op (SetTimeoutHide 3000)
       (apply_op (SetTransactionStatus (mkStatus true error "Failed to load data"))
          (apply_op (SetIsRefreshing true) s))).

Definition reload_failed_trace {X : Type} (c : Call X) : list Ev :=
  [EvCall c;
   EvOp (SetTransactionStatus (mkStatus true error "Failed to load data"));
   EvOp (SetTimeoutHide 3000);
   EvOp (SetIsRefreshing false)].

(** The state a reload leaves when it installed the snapshot [l]. *)
Definition reloaded (l : list DiseaseCase) (s : St) : St :=
  apply_op (SetIsRefreshing false)
    (apply_op (AddToHistory (refreshed_entry (List.length l)))
       (apply_op (SetCases l)
          (apply_op (SetIsRefreshing true) s))).

(* ================================================================== *)
(** ** Interleaved execution: the pool of pending invocations *)
(* ================================================================== *)

Inductive Kind : Type :=
| KCreate
| KReload
| KCheck
| KDecrypt (businessId : string).

(** An invocation suspended at an [await]. *)
Record Task : Type := mkTask {
  kind : Kind;
  code : Prog unit
}.

Record Sys : Type := mkSys {
  ui : St;
  pool : list Task;
  journal : list Ev
}.

Definition initialSys : Sys := mkSys initialSt [] [].

(** What a render reads beside the modelled state: the wallet, the contract
    address (set once by the mount effect) and the busy flags of the
    encryption and decryption providers. *)
Record Hooks : Type := mkHooks {
  h_isConnected : bool;
  h_address : option string;
  h_contractAddress : string;
  h_isEncrypting : bool;
  h_isDecrypting : bool
}.

Definition render (h : Hooks) (s : St) : Closure :=
  mkClosure (h_isConnected h) (h_address h) (h_contractAddress h) (newCaseData s).

Definition is_done {A : Type} (p : Prog A) : bool :=
  match p with
  | Ret _ | Throw _ => true
  | _ => false
  end.

(** Synchronous code runs to the next suspension point; the awaited call is
    issued there. *)
Fixpoint settle {A : Type} (p : Prog A) (t : Z) (s : St) : St * list Ev * Prog A :=
  match p with
  | Do o k =>
      let '(s', tr, p') := settle k t (apply_op o s) in (s', EvOp o :: tr, p')
  | Now k => settle (k t) t s
  | Await c k => (s, [EvCall c], p)
  | _ => (s, [], p)
  end.

Definition is_kind (k : Kind) (t : Task) : bool :=
  match k, kind t with
  | KCreate, KCreate => true
  | KReload, KReload => true
  | KCheck, KCheck => true
  | KDecrypt a, KDecrypt b => String.eqb a b
  | _, _ => false
  end.

(** The invocations of a kind that are in flight. *)
Definition in_flight (k : Kind) (l : list Task) : nat :=
  List.length (filter (is_kind k) l).

(** The decryption rounds in flight for a record key: the tasks suspended
    on the verifier with a callback bound to that key. *)
Definition awaits_verifier (businessId : string) (t : Task) : bool :=
  match code t with
  | Await c _ =>
      match c with
      | VerifyDecryption _ _ b => String.eqb b businessId
      | _ => false
      end
  | _ => false
  end.

Definition rounds_in_flight (businessId : string) (l : list Task) : nat :=
  List.length (filter (awaits_verifier businessId) l).

(** What the user and the environment can do. *)
Inductive Action : Type :=
| Edit (field value : string)
| ClickSubmit (h : Hooks)
| ClickRefresh (h : Hooks)
| ClickCheck (h : Hooks)
| ClickDecrypt (h : Hooks) (caseItem : DiseaseCase)
| Deliver (i : nat)
| Fire (i : nat).

Section Pool.

Variable W : Type.
Variable E : World W.

(** Calling an async function: it runs to its first suspension point and,
    unless it is already finished, joins the pool. *)
Definition invoke (k : Kind) (p : Prog unit) (w : W) (sys : Sys) : Sys :=
  let '(s', tr, p') := settle p (clock E w) (ui sys) in
  mkSys s'
        (if is_done p' then pool sys else pool sys ++ [mkTask k p'])%list
        (journal sys ++ tr)%list.

(** The promise the [i]-th pending invocation awaits settles: the world
    answers, and the invocation runs to its next suspension point. *)
Definition deliver (i : nat) (w : W) (sys : Sys) : Sys * W :=
  match nth_error (pool sys) i with
  | Some (mkTask k (Await c kont)) =>
      let (x, w') := answer E c w in
      let '(s', tr, p') := settle (kont x) (clock E w') (ui sys) in
      (mkSys s'
             (firstn i (pool sys)
              ++ (if is_done p' then [] else [mkTask k p'])
              ++ skipn (S i) (pool sys))%list
             (journal sys ++ tr)%list,
       w')
  | _ => (sys, w)
  end.

(** One action of the view.  A disabled button launches nothing. *)
Definition step (a : Action) (w : W) (sys : Sys) : Sys * W :=
  match a with
  | Edit field value =>
      (mkSys (apply_op (SetNewCaseData (handleChange field value (newCaseData (ui sys))))
                       (ui sys))
             (pool sys) (journal sys), w)
  | ClickSubmit h =>
      if submit_disabled (creatingCase (ui sys)) (h_isEncrypting h)
                         (newCaseData (ui sys))
      then (sys, w)
      else (invoke KCreate (createCase (render h (ui sys))) w sys, w)
  | ClickRefresh h =>
      if isRefreshing (ui sys) then (sys, w)
      else (invoke KReload (loadData (render h (ui sys))) w sys, w)
  | ClickCheck h =>
      (invoke KCheck (testAvailability (render h (ui sys))) w sys, w)
  | ClickDecrypt h caseItem =>
      if isVerified caseItem || h_isDecrypting h then (sys, w)
      else (invoke (KDecrypt ("case-" ++ Js.of_Z (id caseItem)))
                   (handleDecrypt (render h (ui sys)) caseItem) w sys, w)
  | Deliver i => deliver i w sys
  | Fire i => (mkSys (fire_timer i (ui sys)) (pool sys) (journal sys), w)
  end.

Fixpoint steps (l : list Action) (w : W) (sys : Sys) : Sys * W :=
  match l with
  | [] => (sys, w)
  | a :: l' => let (sys', w') := step a w sys in steps l' w' sys'
  end.

End Pool.

Arguments invoke {W} E k p w sys.
Arguments deliver {W} E i w sys.
Arguments step {W} E a w sys.
Arguments steps {W} E l w sys.


(* ================================================================== *)
(** ** Scripted collaborators *)
(* ================================================================== *)

(** A world without memory: every collaborator entry point has one fixed
    answer, the ledger one per record key. *)
Record Script : Type := mkScript {
  s_readOnly : Resp (option Contract);
  s_signer : Resp (option Contract);
  s_ids : Resp (list string);
  s_data : string -> Resp BusinessData;
  s_available : Resp bool;
  s_encrypt : Resp Encrypted;
  s_create : Resp string;
  s_wait : Resp unit;
  s_handle : Resp string;
  s_verify : Resp ClearValues;
  s_clock : Z
}.

Definition scripted_answer (sc : Script) (X : Type) (c : Call X) : Resp X :=
  match c in Call T return Resp T with
  | GetContractReadOnly => s_readOnly sc
  | GetContractWithSigner => s_signer sc
  | GetAllBusinessIds => s_ids sc
  | GetBusinessData i => s_data sc i
  | IsAvailable => s_available sc
  | Encrypt _ _ _ => s_encrypt sc
  | CreateBusinessData _ _ _ _ _ _ _ => s_create sc
  | TxWait _ => s_wait sc
  | GetEncryptedValue _ => s_handle sc
  | VerifyDecryption _ _ _ => s_verify sc
  end.

Definition scripted (sc : Script) : World unit :=
  mkWorld (fun X c w => (scripted_answer sc c, w)) (fun _ => s_clock sc).

Definition alice_data : BusinessData :=
  mkData "Alice" "Cystic Fibrosis" 34 0 1700000000 "0xA11CE" false 0.

Definition bob_verified : BusinessData :=
  mkData "Bob" "Huntington's Disease" 51 0 1700000500 "0xB0B" true 51.

(** Every collaborator cooperates; the ledger holds one unverified record
    under the key [case-7]. *)
Definition all_good : Script :=
  mkScript (Resolved (Some ReadOnly)) (Resolved (Some WithSigner))
           (Resolved ["case-7"])
           (fun _ => Resolved alice_data)
           (Resolved true)
           (Resolved (mkEnc "0xc1ph3r" "0xpr00f"))
           (Resolved "0xtx")
           (Resolved tt)
           (Resolved "0xhandle")
           (Resolved [("0xhandle", 34)])
           1700000000000.

(** A wallet that is connected. *)
Definition connected (form : CaseForm) : Closure :=
  mkClosure true (Some "0xA11CE") "0xC0FFEE" form.

Definition alice_form : CaseForm := mkForm "Alice" "34" "Cystic Fibrosis" "".

(** Of five keys the ledger serves three: the second and the fourth fetch
    are rejected. *)
Definition three_of_five : Script :=
  mkScript (Resolved (Some ReadOnly)) (Resolved (Some WithSigner))
           (Resolved ["case-1"; "case-2"; "case-3"; "case-4"; "case-5"])
           (fun i => if String.eqb i "case-2" || String.eqb i "case-4"
                     then Rejected (Js.Error "call revert exception")
                     else Resolved alice_data)
           (Resolved true)
           (Resolved (mkEnc "0xc1ph3r" "0xpr00f"))
           (Resolved "0xtx") (Resolved tt) (Resolved "0xhandle")
           (Resolved [("0xhandle", 34)])
           1700000000000.

(** The key list itself cannot be fetched. *)
Definition no_key_list : Script :=
  mkScript (Resolved (Some ReadOnly)) (Resolved (Some WithSigner))
           (Rejected (Js.Error "network error"))
           (fun _ => Resolved alice_data)
           (Resolved true)
           (Resolved (mkEnc "0xc1ph3r" "0xpr00f"))
           (Resolved "0xtx") (Resolved tt) (Resolved "0xhandle")
           (Resolved [("0xhandle", 34)])
           1700000000000.

(** A component that already shows one case. *)
Definition showing_bob : St :=
  mkSt [case_of 9 bob_verified] false false false hidden emptyForm [] None [].


(** The ledger holds a record that is already verified. *)
Definition bob_on_ledger : Script :=
  mkScript (Resolved (Some ReadOnly)) (Resolved (Some WithSigner))
           (Resolved ["case-9"])
           (fun _ => Resolved bob_verified)
           (Resolved true)
           (Resolved (mkEnc "0xc1ph3r" "0xpr00f"))
           (Resolved "0xtx") (Resolved tt) (Resolved "0xhandle")
           (Resolved [("0xhandle", 51)])
           1700000000000.

(** The verifier reports that another party verified the record first; the
    reload that follows cannot fetch the key list. *)
Definition already_verified_then_no_keys : Script :=
  mkScript (Resolved (Some ReadOnly)) (Resolved (Some WithSigner))
           (Rejected (Js.Error "network error"))
           (fun _ => Resolved alice_data)
           (Resolved true)
           (Resolved (mkEnc "0xc1ph3r" "0xpr00f"))
           (Resolved "0xtx") (Resolved tt) (Resolved "0xhandle")
           (Rejected (Js.Error "execution reverted: Data already verified"))
           1700000000000.

(** The same race, with a ledger that serves the reload. *)
Definition already_verified : Script :=
  mkScript (Resolved (Some ReadOnly)) (Resolved (Some WithSigner))
           (Resolved ["case-7"])
           (fun _ => Resolved alice_data)
           (Resolved true)
           (Resolved (mkEnc "0xc1ph3r" "0xpr00f"))
           (Resolved "0xtx") (Resolved tt) (Resolved "0xhandle")
           (Rejected (Js.Error "execution reverted: Data already verified"))
           1700000000000.

(** The verifier rejects with [undefined]. *)
Definition verifier_rejects_undefined : Script :=
  mkScript (Resolved (Some ReadOnly)) (Resolved (Some WithSigner))
           (Resolved ["case-7"])
           (fun _ => Resolved alice_data)
           (Resolved true)
           (Resolved (mkEnc "0xc1ph3r" "0xpr00f"))
           (Resolved "0xtx") (Resolved tt) (Resolved "0xhandle")
           (Rejected Js.Nullish)
           1700000000000.

(** No collaborator ever rejects with [null] or [undefined]. *)
Definition never_nullish {W : Type} (E : World W) : Prop :=
  forall (X : Type) (c : Call X) (w : W), fst (answer E c w) <> Rejected Js.Nullish.

Definition already_verified_banner : list Ev :=
  [EvOp (SetTransactionStatus (mkStatus true success "Data is already verified"));
   EvOp (SetTimeoutHide 2000)].

(** The form with an age that holds no digit. *)
Definition no_age_form : CaseForm := mkForm "Alice" "" "Cystic Fibrosis" "".

(** A form filled in without [handleChange]: the age has a sign. *)
Definition negative_age_form : CaseForm := mkForm "Alice" "-5" "Cystic Fibrosis" "".


(* ================================================================== *)
(** ** Who writes the [creatingCase] flag *)
(* ================================================================== *)

Definition writes_flag (o : Op) : bool :=
  match o with
  | SetCreatingCase _ => true
  | _ => false
  end.

(** Code that never writes [creatingCase]. *)
Inductive NoFlag {A : Type} : Prog A -> Prop :=
| NF_ret (a : A) : NoFlag (Ret a)
| NF_throw (e : Js.thrown) : NoFlag (Throw e)
| NF_do (o : Op) (k : Prog A) :
    writes_flag o = false -> NoFlag k -> NoFlag (Do o k)
| NF_now (k : Z -> Prog A) :
    (forall t, NoFlag (k t)) -> NoFlag (Now k)
| NF_await (X : Type) (c : Call X) (k : Resp X -> Prog A) :
    (forall r, NoFlag (k r)) -> NoFlag (Await c k).

(** Code that writes [creatingCase] once, to clear it, as the last thing it
    does on every path. *)
Inductive Holds {A : Type} : Prog A -> Prop :=
| Holds_release_ret (a : A) : Holds (Do (SetCreatingCase false) (Ret a))
| Holds_release_throw (e : Js.thrown) : Holds (Do (SetCreatingCase false) (Throw e))
| Holds_do (o : Op) (k : Prog A) :
    writes_flag o = false -> Holds k -> Holds (Do o k)
| Holds_now (k : Z -> Prog A) :
    (forall t, Holds (k t)) -> Holds (Now k)
| Holds_await (X : Type) (c : Call X) (k : Resp X -> Prog A) :
    (forall r, Holds (k r)) -> Holds (Await c k).

(** A pending invocation is suspended at an [await]. *)
Definition suspended {A : Type} (p : Prog A) : Prop :=
  match p with
  | Await _ _ => True
  | _ => False
  end.

Definition task_ok (t : Task) : Prop :=
  suspended (code t)
  /\ match kind t with
     | KCreate => Holds (code t)
     | _ => NoFlag (code t)
     end.

(** The invariant of the view-driven system: the flag is set for as long as
    a creation is pending, and at most one is. *)
Definition guarded (sys : Sys) : Prop :=
  Forall task_ok (pool sys)
  /\ (in_flight KCreate (pool sys) <= 1)%nat
  /\ (creatingCase (ui sys) = false -> in_flight KCreate (pool sys) = 0%nat).

(** A wallet as the hooks report it when connected and idle. *)
Definition idle_hooks : Hooks :=
  mkHooks true (Some "0xA11CE") "0xC0FFEE" false false.

(** The pool after two direct calls of [createCase], the second made while
    the first is suspended, with every promise settled in turn. *)
Definition two_creates : Sys * unit :=
  let E := scripted all_good in
  let sys1 := invoke E KCreate (createCase (connected alice_form)) tt initialSys in
  let sys2 := invoke E KCreate (createCase (connected alice_form)) tt sys1 in
  steps E [Deliver 0; Deliver 1; Deliver 0; Deliver 1; Deliver 0; Deliver 1;
           Deliver 0; Deliver 1; Deliver 0; Deliver 1; Deliver 0; Deliver 1;
           Deliver 0; Deliver 0]%nat tt sys2.

(** Two clicks on the decrypt button of the same unverified case, the second
    while the first invocation is suspended on its first read; then both
    proceed to the verifier. *)
Definition two_decrypts : Sys * unit :=
  steps (scripted all_good)
        [ClickDecrypt idle_hooks (case_of 7 alice_data);
         ClickDecrypt idle_hooks (case_of 7 alice_data);
         Deliver 0; Deliver 1; Deliver 0; Deliver 1;
         Deliver 0; Deliver 1; Deliver 0; Deliver 1]%nat
        tt initialSys.

(* ================================================================== *)
(** ** The derived view: filtered list and statistics *)
(* ================================================================== *)

(** Text whose code units are all below 128. *)
Fixpoint ascii_text (s : string) : bool :=
  match s with
  | EmptyString => true
  | String c s' => (nat_of_ascii c <? 128)%nat && ascii_text s'
  end.

(** A case whose searched fields are ASCII text. *)
Definition ascii_case (caseItem : DiseaseCase) : bool :=
  ascii_text (name caseItem) && ascii_text (diseaseType caseItem).

(** [String.prototype.toLowerCase] on ASCII text, where it maps [A]-[Z] to
    [a]-[z] and leaves every other code unit as it is.  On other text
    JavaScript also maps the cased letters outside ASCII, some of them
    depending on their neighbours; that is not modelled: here a code unit
    of 128 or above is left as it is.  What is proved of the mapping
    itself is stated for [ascii_text] only. *)
Definition lower_char (c : ascii) : ascii :=
  let n := nat_of_ascii c in
  if (65 <=? n)%nat && (n <=? 90)%nat then ascii_of_nat (n + 32) else c.

Fixpoint toLowerCase (s : string) : string :=
  match s with
  | EmptyString => EmptyString
  | String c s' => String (lower_char c) (toLowerCase s')
  end.

(** [matchesSearch] of the filter callback. *)
Definition matchesSearch (searchTerm : string) (caseItem : DiseaseCase) : bool :=
  Js.includes (toLowerCase (name caseItem)) (toLowerCase searchTerm)
  || Js.includes (toLowerCase (diseaseType caseItem)) (toLowerCase searchTerm).

(** [matchesFilter] of the filter callback; [filterType] is any string. *)
Definition matchesFilter (filterType : string) (caseItem : DiseaseCase) : bool :=
  String.eqb filterType "all"
  || (String.eqb filterType "verified" && isVerified caseItem)
  || (String.eqb filterType "unverified" && negb (isVerified caseItem)).

(** [const filteredCases = cases.filter(...)]. *)
Definition filteredCases (searchTerm filterType : string)
           (l : list DiseaseCase) : list DiseaseCase :=
  filter (fun caseItem =>
            matchesSearch searchTerm caseItem && matchesFilter filterType caseItem)
         l.

(** [cases.reduce((sum, c) => sum + c.age, 0)]. *)
Definition ageSum (l : list DiseaseCase) : Z :=
  fold_left (fun sum c => (sum + age c)%Z) l 0%Z.

(** [Date.now()/1000 - c.timestamp < 60 * 60 * 24 * 7], with [now] the
    clock of the render in milliseconds; the quotient is exact. *)
Definition is_recent (now : Z) (c : DiseaseCase) : bool :=
  negb (Qle_bool (inject_Z (60 * 60 * 24 * 7))
                 (inject_Z now / inject_Z 1000 - inject_Z (timestamp c))%Q).

(** [const stats = {...}]; the average is the exact quotient. *)
Record Stats : Type := mkStats {
  total : nat;
  verified : nat;
  avgAge : Q;
  recent : nat
}.

Definition stats (now : Z) (l : list DiseaseCase) : Stats :=
  mkStats (List.length l)
          (List.length (filter isVerified l))
          (if (0 <? List.length l)%nat
           then (inject_Z (ageSum l) / inject_Z (Z.of_nat (List.length l)))%Q
           else 0%Q)
          (List.length (filter (is_recent now) l)).

(** Three cases of ages 10, 20 and 30; the second is verified. *)
Definition three_ages : list DiseaseCase :=
  [mkCase 1 "Ann" 10 "Cystic Fibrosis" "Symptoms recorded" 1700000000 "0xA" 10 0 false 0;
   mkCase 2 "Ben" 20 "Huntington's Disease" "Symptoms recorded" 1700500000 "0xB" 20 0 true 20;
   mkCase 3 "Cy" 30 "Muscular Dystrophy" "Symptoms recorded" 1700900000 "0xC" 30 0 false 0].

(* ================================================================== *)
(** ** What an operation may emit *)
(* ================================================================== *)

(** Code all of whose events, on every path and whatever the collaborators
    answer, pass the test [P]. *)
Inductive Within {A : Type} (P : Ev -> bool) : Prog A -> Prop :=
| Within_ret (a : A) : Within P (Ret a)
| Within_throw (e : Js.thrown) : Within P (Throw e)
| Within_do (o : Op) (k : Prog A) :
    P (EvOp o) = true -> Within P k -> Within P (Do o k)
| Within_now (k : Z -> Prog A) :
    (forall t, Within P (k t)) -> Within P (Now k)
| Within_await (X : Type) (c : Call X) (k : Resp X -> Prog A) :
    P (EvCall c) = true -> (forall r, Within P (k r)) -> Within P (Await c k).

(** What [loadData] may emit: reads of the ledger, the snapshot, its busy
    flag, its log entry, its error banner and the console. *)
Definition reload_event (e : Ev) : bool :=
  match e with
  | EvCall c =>
      match c with
      | GetContractReadOnly | GetAllBusinessIds | GetBusinessData _ => true
      | _ => false
      end
  | EvOp o =>
      match o with
      | SetIsRefreshing _ | SetCases _ | AddToHistory _ | ConsoleError
      | SetTransactionStatus _ | SetTimeoutHide _ => true
      | _ => false
      end
  end.

(** What [testAvailability] may emit: the probe, a banner, its timer and
    its log entry. *)
Definition probe_event (e : Ev) : bool :=
  match e with
  | EvCall c =>
      match c with
      | GetContractReadOnly | IsAvailable => true
      | _ => false
      end
  | EvOp o =>
      match o with
      | AddToHistory _ | SetTransactionStatus _ | SetTimeoutHide _ => true
      | _ => false
      end
  end.

Definition is_call (e : Ev) : bool :=
  match e with
  | EvCall _ => true
  | EvOp _ => false
  end.

(** Events that leave the form, the create modal, its busy flag and the
    detail modal alone; any call is allowed. *)
Definition keeps_form (e : Ev) : bool :=
  match e with
  | EvCall _ => true
  | EvOp o =>
      match o with
      | SetCreatingCase _ | SetShowCreateModal _ | SetNewCaseData _
      | SetLocalDecrypted _ => false
      | _ => true
      end
  end.

(** What [decryptData] may emit for the key [businessId]: reads of that
    key, one handle per decryption round, the callback bound to the key, and
    no creation. *)
Definition decrypt_event (cx : Closure) (businessId : string) (e : Ev) : bool :=
  match e with
  | EvCall c =>
      match c with
      | GetContractReadOnly | GetContractWithSigner | GetAllBusinessIds => true
      | GetBusinessData _ => true
      | GetEncryptedValue b => String.eqb b businessId
      | VerifyDecryption hs ca b =>
          Nat.eqb (List.length hs) 1 && String.eqb ca (contractAddress cx)
          && String.eqb b businessId
      | _ => false
      end
  | EvOp o => keeps_form (EvOp o)
  end.

(** The age [createCase] works with: [parseInt(newCaseData.age) || 0]. *)
Definition ageValue (cx : Closure) : Z :=
  Js.or_else (Js.parseInt (f_age (formData cx))) 0.

(** The form is [emptyForm]: all four fields are empty. *)
Definition is_emptyForm (f : CaseForm) : bool :=
  String.eqb (f_name f) "" && String.eqb (f_age f) ""
  && String.eqb (f_diseaseType f) "" && String.eqb (f_symptoms f) "".

(** What [createCase] may emit: the age it encrypts is the age it submits
    in clear as the first public value, the second public value is 0, the
    name and the disease type are those of the form, the only form it
    installs is [emptyForm], and the verifier is never called. *)
Definition create_event (cx : Closure) (e : Ev) : bool :=
  match e with
  | EvCall c =>
      match c with
      | Encrypt ca _ v => String.eqb ca (contractAddress cx) && Z.eqb v (ageValue cx)
      | CreateBusinessData _ nm _ _ pv1 pv2 desc =>
          String.eqb nm (f_name (formData cx)) && Z.eqb pv1 (ageValue cx)
          && Z.eqb pv2 0 && String.eqb desc (f_diseaseType (formData cx))
      | VerifyDecryption _ _ _ | GetEncryptedValue _ | IsAvailable => false
      | _ => true
      end
  | EvOp o =>
      match o with
      | SetLocalDecrypted _ => false
      | SetNewCaseData f => is_emptyForm f
      | _ => true
      end
  end.

(** What the view lets through to the ledger: a creation carries a name and
    a disease type that are not empty and an age that is not negative, and
    the form never holds anything but digits as the age. *)
Definition validated (e : Ev) : bool :=
  match e with
  | EvCall c =>
      match c with
      | Encrypt _ _ v => Z.leb 0 v
      | CreateBusinessData _ nm _ _ pv1 pv2 desc =>
          negb (String.eqb nm "") && Z.leb 0 pv1 && Z.eqb pv2 0
          && negb (String.eqb desc "")
      | _ => true
      end
  | EvOp o =>
      match o with
      | SetNewCaseData f => Js.all_digits (f_age f)
      | _ => true
      end
  end.

(** The part of the state that [keeps_form] events leave alone. *)
Definition form_part (s : St) : bool * bool * CaseForm * option Js.number :=
  (creatingCase s, showCreateModal s, newCaseData s, localDecrypted s).

(** The invariant of the view-driven system for [validated]. *)
Definition view_validated (sys : Sys) : Prop :=
  Js.all_digits (f_age (newCaseData (ui sys))) = true
  /\ Forall (fun t => Within validated (code t)) (pool sys)
  /\ forallb validated (journal sys) = true.

(** The user dismisses the wallet prompt of the creation transaction. *)
Definition user_rejects : Script :=
  mkScript (Resolved (Some ReadOnly)) (Resolved (Some WithSigner))
           (Resolved ["case-7"])
           (fun _ => Resolved alice_data)
           (Resolved true)
           (Resolved (mkEnc "0xc1ph3r" "0xpr00f"))
           (Rejected (Js.Error "user rejected transaction (action=sendTransaction)"))
           (Resolved tt) (Resolved "0xhandle")
           (Resolved [("0xhandle", 34)])
           1700000000000.

(** What the error banner of [createCase] says for a cause with the message
    [m]. *)
Definition creation_error (m : option string) : string :=
  if message_includes m "user rejected transaction"
  then "Transaction rejected"
  else "Creation failed: " ++ message_or_unknown m.

(** The signer contract is not available: [getContractWithSigner] resolves
    to [null]. *)
Definition no_signer : Script :=
  mkScript (Resolved (Some ReadOnly)) (Resolved None)
           (Resolved ["case-7"])
           (fun _ => Resolved alice_data)
           (Resolved true)
           (Resolved (mkEnc "0xc1ph3r" "0xpr00f"))
           (Resolved "0xtx") (Resolved tt) (Resolved "0xhandle")
           (Resolved [("0xhandle", 34)])
           1700000000000.

(** The handle of the record cannot be read. *)
Definition no_handle : Script :=
  mkScript (Resolved (Some ReadOnly)) (Resolved (Some WithSigner))
           (Resolved ["case-7"])
           (fun _ => Resolved alice_data)
           (Resolved true)
           (Resolved (mkEnc "0xc1ph3r" "0xpr00f"))
           (Resolved "0xtx") (Resolved tt)
           (Rejected (Js.Error "call revert exception"))
           (Resolved [("0xhandle", 34)])
           1700000000000.

Definition decryption_failed : list Ev :=
  [EvOp (SetTransactionStatus (mkStatus true error "Decryption failed"));
   EvOp (SetTimeoutHide 3000)].
Example parseInt_42 : Js.parseInt "42" = Js.Num 42.
Proof. reflexivity. Qed.
Example parseInt_empty : Js.parseInt "" = Js.NaN.
Proof. reflexivity. Qed.
Example parseInt_neg : Js.parseInt " -5x" = Js.Num (-5).
Proof. reflexivity. Qed.
Example parseInt_hex : Js.parseInt "0x1f" = Js.Num 31.
Proof. reflexivity. Qed.
Example replace_case : Js.replace "case-1700" "case-" "" = "1700".
Proof. reflexivity. Qed.
Example of_Z_1700 : Js.of_Z 1700 = "1700".
Proof. reflexivity. Qed.
Example includes_ex : Js.includes "execution reverted: Data already verified" "Data already verified" = true.
Proof. reflexivity. Qed.


(* ================================================================== *)
(** ** Equations of the interpreter *)
(* ================================================================== *)

Section RunLemmas.

Variable W : Type.
Variable E : World W.

Lemma emit_nil {A} (r : Result A W) : emit [] r = r.
Proof. destruct r; reflexivity. Qed.

Lemma emit_emit {A} (a b : list Ev) (r : Result A W) :
  emit a (emit b r) = emit (a ++ b) r.
Proof. unfold emit; simpl. now rewrite app_assoc. Qed.

Lemma and_then_emit {A B} evs (r : Result A W) (f : A -> W -> St -> Result B W) :
  and_then (emit evs r) f = emit evs (and_then r f).
Proof.
  unfold and_then; simpl. destruct (outcome r); simpl.
  - now rewrite emit_emit.
  - unfold emit; reflexivity.
Qed.

Lemma or_catch_emit {A} evs (r : Result A W) h :
  or_catch (emit evs r) h = emit evs (or_catch r h).
Proof.
  unfold or_catch; simpl. destruct (outcome r); simpl.
  - reflexivity.
  - now rewrite emit_emit.
Qed.

Lemma and_finally_emit {A} evs (r : Result A W) f :
  and_finally E (emit evs r) f = emit evs (and_finally E r f).
Proof.
  unfold and_finally; simpl.
  destruct (outcome (run E f (world r) (state r))); unfold emit; simpl;
    now rewrite app_assoc.
Qed.

Lemma run_bind {A B} (p : Prog A) (f : A -> Prog B) w s :
  run E (bind p f) w s = and_then (run E p w s) (fun a => run E (f a)).
Proof.
  revert w s; induction p as [a|e|o k IH|k IH|X c k IH]; intros w s; simpl.
  - unfold and_then; simpl. now rewrite emit_nil.
  - reflexivity.
  - now rewrite IH, and_then_emit.
  - apply IH.
  - destruct (answer E c w) as [x w']. now rewrite IH, and_then_emit.
Qed.

Lemma run_try_catch {A} (p : Prog A) h w s :
  run E (try_catch p h) w s = or_catch (run E p w s) (fun e => run E (h e)).
Proof.
  revert w s; induction p as [a|e|o k IH|k IH|X c k IH]; intros w s; simpl.
  - reflexivity.
  - unfold or_catch; simpl. now rewrite emit_nil.
  - now rewrite IH, or_catch_emit.
  - apply IH.
  - destruct (answer E c w) as [x w']. now rewrite IH, or_catch_emit.
Qed.

Lemma run_finally {A} (p : Prog A) f w s :
  run E (finally p f) w s = and_finally E (run E p w s) f.
Proof.
  revert w s; induction p as [a|e|o k IH|k IH|X c k IH]; intros w s; simpl.
  - rewrite run_bind. unfold and_then, and_finally; simpl.
    destruct (run E f w s) as [[u|e] w' s' tr]; simpl; unfold emit; simpl;
      now rewrite ?app_nil_r.
  - rewrite run_bind. unfold and_then, and_finally; simpl.
    destruct (run E f w s) as [[u|e'] w' s' tr]; simpl; unfold emit; simpl;
      now rewrite ?app_nil_r.
  - now rewrite IH, and_finally_emit.
  - apply IH.
  - destruct (answer E c w) as [x w']. now rewrite IH, and_finally_emit.
Qed.

Lemma replay_app (a b : list Ev) (s : St) :
  replay (a ++ b) s = replay b (replay a s).
Proof. unfold replay. apply fold_left_app. Qed.

Lemma run_state {A} (p : Prog A) w s :
  state (run E p w s) = replay (trace (run E p w s)) s.
Proof.
  revert w s; induction p as [a|e|o k IH|k IH|X c k IH]; intros w s; simpl;
    try reflexivity.
  - apply IH.
  - apply IH.
  - destruct (answer E c w) as [x w']; simpl. apply IH.
Qed.

(** The code never reads the state it writes: what it returns, what it
    asks and what it emits do not depend on the state it starts from. *)
Lemma run_ignores_state {A : Type} (p : Prog A) :
  forall w s s',
    outcome (run E p w s) = outcome (run E p w s')
    /\ world (run E p w s) = world (run E p w s')
    /\ trace (run E p w s) = trace (run E p w s').
Proof.
  induction p as [a|e|o k IH|k IH|X c k IH]; intros w s s'; cbn [run].
  - repeat split.
  - repeat split.
  - cbn [emit outcome world trace].
    destruct (IH w (apply_op o s) (apply_op o s')) as (H1 & H2 & H3).
    now rewrite H1, H2, H3.
  - apply IH.
  - destruct (answer E c w) as [x w']. cbn [emit outcome world trace].
    destruct (IH x w' s s') as (H1 & H2 & H3).
    now rewrite H1, H2, H3.
Qed.

End RunLemmas.
(* ================================================================== *)
(** ** The operation log is bounded *)
(* ================================================================== *)

Section LogBound.

Local Open Scope nat_scope.
Local Open Scope list_scope.

Lemma addToHistory_length (o : string) (l : list string) :
  List.length (addToHistory o l) <= 10.
Proof.
  pose proof (firstn_le_length 9 l) as H.
  unfold addToHistory. cbn [List.length]. lia.
Qed.

(** Truncating the tail of an append is invisible to a shorter prefix. *)
Lemma firstn_app_firstn {A : Type} (n m : nat) (a b : list A) :
  n <= List.length a + m ->
  firstn n (a ++ firstn m b) = firstn n (a ++ b).
Proof.
  revert n; induction a as [|x a IH]; intros n Hn; simpl in *.
  - rewrite firstn_firstn. now rewrite Nat.min_l by lia.
  - destruct n as [|n]; [reflexivity|]. simpl. f_equal. apply IH. lia.
Qed.

Lemma appendAll_firstn (ops log : list string) :
  List.length log <= 10 ->
  appendAll ops log = firstn 10 (rev ops ++ log).
Proof.
  revert log; induction ops as [|o ops IH]; intros log Hlen.
  - cbn [appendAll fold_left rev app].
    rewrite firstn_all2; [reflexivity|exact Hlen].
  - change (appendAll (o :: ops) log) with (appendAll ops (addToHistory o log)).
    rewrite IH by apply addToHistory_length.
    unfold addToHistory. cbn [rev].
    change (o :: firstn 9 log) with ([o] ++ firstn 9 log).
    rewrite app_assoc, firstn_app_firstn, <- app_assoc.
    + reflexivity.
    + rewrite length_app; cbn [List.length]; lia.
Qed.

Lemma appendAll_cons_firstn (o : string) (ops log : list string) :
  appendAll (o :: ops) log = firstn 10 (rev (o :: ops) ++ log).
Proof.
  change (appendAll (o :: ops) log) with (appendAll ops (addToHistory o log)).
  rewrite appendAll_firstn by apply addToHistory_length.
  unfold addToHistory; cbn [rev].
  change (o :: firstn 9 log) with ([o] ++ firstn 9 log).
  rewrite app_assoc, firstn_app_firstn, <- app_assoc.
  - reflexivity.
  - rewrite length_app; cbn [List.length]; lia.
Qed.

End LogBound.

(** C9. Whatever the log held before, after any non-empty sequence of appends
    it holds the 10 most recent entries at most, newest first; from the empty
    log of a fresh component every sequence of appends leaves its
    [min 10 n] most recent entries, and 12 appends leave exactly the last 10.
    [addToHistory] is a total function. *)
Theorem addToHistory_keeps_ten_most_recent :
  forall (log : list string) (o : string) (ops : list string)
         (e1 e2 e3 e4 e5 e6 e7 e8 e9 e10 e11 e12 : string),
    appendAll (o :: ops) log = firstn 10 (rev (o :: ops) ++ log)%list
    /\ (List.length (appendAll (o :: ops) log) <= 10)%nat
    /\ appendAll ops [] = firstn 10 (rev ops)
    /\ List.length (appendAll ops []) = Nat.min 10 (List.length ops)
    /\ appendAll [e1; e2; e3; e4; e5; e6; e7; e8; e9; e10; e11; e12]
                 (operationHistory initialSt)
       = [e12; e11; e10; e9; e8; e7; e6; e5; e4; e3].
Proof.
  intros log o ops e1 e2 e3 e4 e5 e6 e7 e8 e9 e10 e11 e12.
  assert (H0 : appendAll ops [] = firstn 10 (rev ops)).
  { rewrite appendAll_firstn by (simpl; lia). now rewrite app_nil_r. }
  split; [|split; [|split; [|split]]].
  - apply appendAll_cons_firstn.
  - rewrite appendAll_cons_firstn. apply firstn_le_length.
  - exact H0.
  - rewrite H0, length_firstn, length_rev. reflexivity.
  - reflexivity.
Qed.

(* ================================================================== *)
(** ** The age field holds digits only *)
(* ================================================================== *)

Section ParseDigits.

Lemma strip_all_digits (raw : string) :
  Js.all_digits (Js.strip_non_digits raw) = true.
Proof.
  induction raw as [|c raw IH]; [reflexivity|]. simpl.
  destruct (Js.is_digit c) eqn:Hc; [|exact IH].
  simpl. now rewrite Hc, IH.
Qed.

Lemma digit_value_nonneg (radix : Z) (c : ascii) (d : Z) :
  Js.digit_value radix c = Some d -> 0 <= d.
Proof.
  unfold Js.digit_value.
  generalize (Z.of_nat (nat_of_ascii c)). intros n.
  destruct ((48 <=? n) && (n <=? 57)) eqn:H1.
  { intros [= <-]. apply andb_prop in H1 as [H1 _]. apply Z.leb_le in H1. lia. }
  destruct ((radix =? 16) && (97 <=? n) && (n <=? 102)) eqn:H2.
  { intros [= <-]. apply andb_prop in H2 as [H2 _].
    apply andb_prop in H2 as [_ H2]. apply Z.leb_le in H2. lia. }
  destruct ((radix =? 16) && (65 <=? n) && (n <=? 70)) eqn:H3.
  { intros [= <-]. apply andb_prop in H3 as [H3 _].
    apply andb_prop in H3 as [_ H3]. apply Z.leb_le in H3. lia. }
  discriminate.
Qed.

Lemma digits_prefix_nonneg (radix : Z) (s : string) :
  0 < radix ->
  forall (acc : option Z) (z : Z),
    (forall a, acc = Some a -> 0 <= a) ->
    Js.digits_prefix radix s acc = Some z -> 0 <= z.
Proof.
  intros Hr. induction s as [|c s IH]; intros acc z Hacc; simpl.
  - intros H. now apply Hacc.
  - destruct (Js.digit_value radix c) as [d|] eqn:Hd; [|now apply Hacc].
    apply IH. intros a [= <-].
    pose proof (digit_value_nonneg _ _ Hd).
    destruct acc as [a0|]; [|assumption].
    specialize (Hacc a0 eq_refl). nia.
Qed.

Lemma parse_unsigned_nonneg (s : string) (z : Z) :
  Js.parse_unsigned s = Some z -> 0 <= z.
Proof.
  unfold Js.parse_unsigned.
  destruct s as [|c1 [|c2 s]];
    try (apply digits_prefix_nonneg; [lia|discriminate]).
  destruct (Ascii.eqb c1 "0" && (Ascii.eqb c2 "x" || Ascii.eqb c2 "X"));
    apply digits_prefix_nonneg; try lia; discriminate.
Qed.

(** A digit is neither white space nor a sign. *)
Lemma digit_not_space (c : ascii) :
  Js.is_digit c = true -> Js.is_space c = false.
Proof.
  unfold Js.is_digit, Js.is_space. intros H.
  apply andb_prop in H as [H1 H2].
  apply Nat.leb_le in H1. apply Nat.leb_le in H2.
  destruct (Nat.eqb_spec (nat_of_ascii c) 32); [lia|].
  destruct (Nat.leb_spec (nat_of_ascii c) 13); [lia|].
  now rewrite andb_false_r.
Qed.

Lemma digit_not_sign (c : ascii) :
  Js.is_digit c = true -> Ascii.eqb c "-" = false /\ Ascii.eqb c "+" = false.
Proof.
  intros H. split.
  - destruct (Ascii.eqb_spec c "-"); [subst; discriminate|reflexivity].
  - destruct (Ascii.eqb_spec c "+"); [subst; discriminate|reflexivity].
Qed.

(** What [handleChange] stores as the age never parses to a negative
    number. *)
Lemma parseInt_digits_nonneg (raw : string) (z : Z) :
  Js.parseInt (Js.strip_non_digits raw) = Js.Num z -> 0 <= z.
Proof.
  pose proof (strip_all_digits raw) as Hall.
  destruct (Js.strip_non_digits raw) as [|c s]; [discriminate|].
  simpl in Hall. apply andb_prop in Hall as [Hc _].
  unfold Js.parseInt. cbn [Js.skip_space].
  rewrite (digit_not_space _ Hc).
  destruct (digit_not_sign _ Hc) as [-> ->].
  destruct (Js.parse_unsigned (String c s)) as [u|] eqn:Hu; [|discriminate].
  cbn [Js.of_parse]. intros [= <-].
  now apply parse_unsigned_nonneg in Hu.
Qed.

(** The age submitted for a stored age that does not parse to a positive
    integer. *)
Lemma ageValue_zero (raw : string) :
  (forall z, Js.parseInt (Js.strip_non_digits raw) = Js.Num z -> z <= 0) ->
  Js.or_else (Js.parseInt (Js.strip_non_digits raw)) 0 = 0.
Proof.
  intros Hnp. unfold Js.or_else.
  destruct (Js.parseInt (Js.strip_non_digits raw)) as [z|] eqn:Hp; [|reflexivity].
  pose proof (parseInt_digits_nonneg _ Hp). specialize (Hnp z eq_refl).
  destruct (Z.eqb_spec z 0); lia.
Qed.

Lemma strip_digits_id (s : string) :
  Js.all_digits s = true -> Js.strip_non_digits s = s.
Proof.
  induction s as [|c s IH]; [reflexivity|]. cbn [Js.all_digits Js.strip_non_digits].
  intros H. apply andb_prop in H as [Hc Hs]. now rewrite Hc, (IH Hs).
Qed.

Lemma ageValue_nonneg (cx : Closure) :
  Js.all_digits (f_age (formData cx)) = true -> 0 <= ageValue cx.
Proof.
  intros H. unfold ageValue, Js.or_else.
  destruct (Js.parseInt (f_age (formData cx))) as [z|] eqn:Hp; [|lia].
  rewrite <- (strip_digits_id _ H) in Hp.
  apply parseInt_digits_nonneg in Hp.
  destruct (Z.eqb z 0); lia.
Qed.

End ParseDigits.

(* ================================================================== *)
(** ** Reload *)
(* ================================================================== *)

(** Symbolic execution of the interpreter on a program whose head is
    known. *)
Ltac exec :=
  cbn [run bind try_catch finally await do_ Date_now banner
       emit and_then or_catch and_finally
       outcome world state trace app fst snd
       message_of negb].

Ltac exec_in H :=
  cbn [run bind try_catch finally await do_ Date_now banner
       emit and_then or_catch and_finally
       outcome world state trace app fst snd
       message_of negb] in H.

Section Reload.

Variable W : Type.
Variable E : World W.

Local Open Scope list_scope.

Lemma run_case_id (i : string) (w : W) (s : St) :
  run E (case_id i) w s = mkResult (Returned (id_of i (clock E w))) w s [].
Proof.
  unfold case_id, id_of, Js.or_else.
  destruct (Js.parseInt (Js.replace i "case-" "")) as [z|]; [|reflexivity].
  destruct (Z.eqb z 0); reflexivity.
Qed.

(** The loop visits every key; a rejected fetch costs a console line and
    nothing else. *)
Lemma run_load_cases (ids : list string) :
  forall (acc : list DiseaseCase) (w : W) (s : St),
    run E (load_cases ids acc) w s =
    mkResult (Returned (acc ++ fetched_cases (fetches E ids w)))
             (after_fetches E ids w) s
             (fetch_trace (fetches E ids w)).
Proof.
  induction ids as [|i rest IH]; intros acc w s.
  - simpl. now rewrite app_nil_r.
  - cbn [load_cases fetches after_fetches].
    rewrite run_bind, run_try_catch, run_bind.
    exec.
    destruct (answer E (GetBusinessData i) w) as [[d|e] w'] eqn:Hans; exec.
    + rewrite run_bind, run_case_id. exec.
      rewrite IH. cbn [emit outcome world state trace app fetched_cases fetch_trace].
      now rewrite <- app_assoc.
    + rewrite IH. cbn [emit outcome world state trace app fetched_cases fetch_trace apply_op].
      reflexivity.
Qed.

(** Every run of [loadData], by what the ledger answers. *)
Lemma run_loadData (cx : Closure) (w : W) (s : St) :
  run E (loadData cx) w s =
  if negb (isConnected cx) then mkResult (Returned tt) w s []
  else
    let (x, w1) := answer E GetContractReadOnly w in
    match x with
    | Rejected _ =>
        mkResult (Returned tt) w1 (reload_failed s)
                 (EvOp (SetIsRefreshing true) :: reload_failed_trace GetContractReadOnly)
    | Resolved None =>
        mkResult (Returned tt) w1
                 (apply_op (SetIsRefreshing false) (apply_op (SetIsRefreshing true) s))
                 [EvOp (SetIsRefreshing true); EvCall GetContractReadOnly;
                  EvOp (SetIsRefreshing false)]
    | Resolved (Some _) =>
        let (y, w2) := answer E GetAllBusinessIds w1 in
        match y with
        | Rejected _ =>
            mkResult (Returned tt) w2 (reload_failed s)
                     (EvOp (SetIsRefreshing true) :: EvCall GetContractReadOnly
                        :: reload_failed_trace GetAllBusinessIds)
        | Resolved ids =>
            let l := fetched_cases (fetches E ids w2) in
            mkResult (Returned tt) (after_fetches E ids w2) (reloaded l s)
                     ([EvOp (SetIsRefreshing true); EvCall GetContractReadOnly;
                       EvCall GetAllBusinessIds]
                      ++ fetch_trace (fetches E ids w2)
                      ++ [EvOp (SetCases l);
                          EvOp (AddToHistory (refreshed_entry (List.length l)));
                          EvOp (SetIsRefreshing false)])
        end
    end.
Proof.
  unfold loadData.
  destruct (isConnected cx); [|reflexivity].
  exec.
  destruct (answer E GetContractReadOnly w) as [[[c|]|e] w1]; exec;
    try reflexivity.
  destruct (answer E GetAllBusinessIds w1) as [[ids|e] w2]; exec;
    try reflexivity.
  rewrite run_finally, run_try_catch, run_bind, run_load_cases. exec.
  unfold emit; cbn [outcome world state trace app].
  now rewrite <- app_assoc.
Qed.

End Reload.


(** *** Observations over the events of the loop *)

Lemma log_entries_app (a b : list Ev) :
  log_entries (a ++ b) = (log_entries a ++ log_entries b)%list.
Proof.
  induction a as [|e a IH]; [reflexivity|].
  destruct e as [o|X c]; [destruct o|]; simpl; rewrite ?IH; reflexivity.
Qed.

Lemma snapshots_app (a b : list Ev) :
  snapshots (a ++ b) = (snapshots a ++ snapshots b)%list.
Proof.
  induction a as [|e a IH]; [reflexivity|].
  destruct e as [o|X c]; [destruct o|]; simpl; rewrite ?IH; reflexivity.
Qed.

Lemma filter_fetch_trace (f : Ev -> bool) (l : list (string * Resp BusinessData * Z)) :
  (forall i, f (EvCall (GetBusinessData i)) = false) ->
  f (EvOp ConsoleError) = false ->
  filter f (fetch_trace l) = [].
Proof.
  intros Hc He.
  induction l as [|[[i [d|e]] t] l IH]; simpl; rewrite ?Hc, ?He;
    [reflexivity|assumption|assumption].
Qed.

Lemma log_entries_fetch (l : list (string * Resp BusinessData * Z)) :
  log_entries (fetch_trace l) = [].
Proof.
  induction l as [|[[i [d|e]] t] l IH]; simpl;
    [reflexivity|assumption|assumption].
Qed.

Lemma snapshots_fetch (l : list (string * Resp BusinessData * Z)) :
  snapshots (fetch_trace l) = [].
Proof.
  induction l as [|[[i [d|e]] t] l IH]; simpl;
    [reflexivity|assumption|assumption].
Qed.

Lemma next_timer_fetch (l : list (string * Resp BusinessData * Z)) (b : list Ev) :
  next_timer (fetch_trace l ++ b) = next_timer b.
Proof.
  induction l as [|[[i [d|e]] t] l IH]; simpl;
    [reflexivity|assumption|assumption].
Qed.

Lemma banners_fetch (l : list (string * Resp BusinessData * Z)) (b : list Ev) :
  banners (fetch_trace l ++ b) = banners b.
Proof.
  induction l as [|[[i [d|e]] t] l IH]; simpl;
    [reflexivity|assumption|assumption].
Qed.

(** Reading a trace whose only unknown part is the loop of a reload. *)
Ltac observe :=
  repeat first
    [ progress cbn [app log_entries snapshots banners next_timer
                    visible status message transient andb]
    | rewrite log_entries_app
    | rewrite snapshots_app
    | rewrite log_entries_fetch
    | rewrite snapshots_fetch
    | rewrite next_timer_fetch
    | rewrite banners_fetch ].

Lemma fetched_cases_length (l : list (string * Resp BusinessData * Z)) :
  (List.length (fetched_cases l) + rejected_count l = List.length l)%nat.
Proof.
  induction l as [|[[i [d|e]] t] l IH]; simpl; lia.
Qed.

Lemma fetches_length {W} (E : World W) (ids : list string) :
  forall w, List.length (fetches E ids w) = List.length ids.
Proof.
  induction ids as [|i rest IH]; intros w; simpl; [reflexivity|].
  destruct (answer E (GetBusinessData i) w) as [x w']. simpl. now rewrite IH.
Qed.

Lemma or_else_Number (z : Z) : Js.or_else (Js.Number z) 0 = z.
Proof.
  unfold Js.or_else, Js.Number. destruct (Z.eqb_spec z 0); congruence.
Qed.

(** Every case of the snapshot shows the record it was fetched from. *)
Lemma fetched_cases_show (l : list (string * Resp BusinessData * Z)) :
  Forall2 shows (fetched_cases l) (resolved l).
Proof.
  induction l as [|[[i [d|e]] t] l IH]; cbn [fetched_cases resolved].
  - constructor.
  - constructor; [|exact IH].
    unfold shows, case_of.
    cbn [id name age diseaseType symptoms timestamp creator
         publicValue1 publicValue2 isVerified decryptedValue].
    rewrite !or_else_Number. repeat split.
  - exact IH.
Qed.

(** C3. A reload whose key list was fetched installs exactly the records
    of the fetches that resolved, in order, however many of the others were
    rejected: the snapshot has one case for each resolved fetch, and every
    field of that case is the field of the record the ledger returned (the
    id is the number of the key); the reload completes without an error
    banner.  A reload whose key-list fetch is rejected leaves the snapshot
    as it was. *)
Theorem reload_keeps_fetched_records :
  forall (W : Type) (E : World W) (cx : Closure) (w : W) (s : St)
         (c : Contract) (w1 : W),
    isConnected cx = true ->
    answer E GetContractReadOnly w = (Resolved (Some c), w1) ->
    let r := run E (loadData cx) w s in
    match answer E GetAllBusinessIds w1 with
    | (Resolved ids, w2) =>
        outcome r = Returned tt
        /\ Forall2 shows (cases (state r)) (resolved (fetches E ids w2))
        /\ cases (state r) = fetched_cases (fetches E ids w2)
        /\ snapshots (trace r) = [cases (state r)]
        /\ (List.length (cases (state r)) + rejected_count (fetches E ids w2)
            = List.length ids)%nat
        /\ transactionStatus (state r) = transactionStatus s
        /\ banners (trace r) = []
    | (Rejected _, _) =>
        outcome r = Returned tt
        /\ cases (state r) = cases s
        /\ snapshots (trace r) = []
        /\ status (transactionStatus (state r)) = error
    end.
Proof.
  intros W E cx w s c w1 Hconn Hro r. subst r.
  rewrite run_loadData, Hconn. cbn [negb]. rewrite Hro.
  destruct (answer E GetAllBusinessIds w1) as [[ids|e] w2];
    cbn [outcome state trace].
  - split; [reflexivity|].
    split; [apply fetched_cases_show|].
    split; [reflexivity|].
    split; [now observe|].
    split.
    + unfold reloaded; cbn [apply_op cases].
      now rewrite fetched_cases_length, fetches_length.
    + split; [reflexivity|now observe].
  - repeat split.
Qed.

Lemma reload_keeps_fetched_records_witness :
  (let r := run (scripted three_of_five) (loadData (connected emptyForm)) tt showing_bob in
   let alice n :=
     mkCase n "Alice" 34 "Cystic Fibrosis" "Symptoms recorded" 1700000000
            "0xA11CE" 34 0 false 0 in
   outcome r = Returned tt
   /\ Forall2 shows (cases (state r))
              [("case-1", alice_data, 1700000000000);
               ("case-3", alice_data, 1700000000000);
               ("case-5", alice_data, 1700000000000)]
   /\ cases (state r) = [alice 1; alice 3; alice 5]
   /\ snapshots (trace r) = [cases (state r)]
   /\ (List.length (cases (state r)) + 2 = 5)%nat
   /\ transactionStatus (state r) = transactionStatus showing_bob
   /\ banners (trace r) = [])
  /\
  (let r := run (scripted no_key_list) (loadData (connected emptyForm)) tt showing_bob in
   outcome r = Returned tt
   /\ cases (state r) = cases showing_bob
   /\ snapshots (trace r) = []
   /\ status (transactionStatus (state r)) = error).
Proof.
  split.
  - exact (@reload_keeps_fetched_records unit (scripted three_of_five)
             (connected emptyForm) tt showing_bob ReadOnly tt eq_refl eq_refl).
  - exact (@reload_keeps_fetched_records unit (scripted no_key_list)
             (connected emptyForm) tt showing_bob ReadOnly tt eq_refl eq_refl).
Defined.

(** Three of five fetches resolve: the snapshot is those three cases. *)
Example reload_three_of_five :
  map id (cases (state (run (scripted three_of_five)
                          (loadData (connected emptyForm)) tt showing_bob)))
  = [1; 3; 5].
Proof. vm_compute. reflexivity. Qed.

(** *** What every reload has in common *)

Section ReloadFacts.

Variable W : Type.
Variable E : World W.

Local Open Scope list_scope.

Lemma loadData_returns (cx : Closure) (w : W) (s : St) :
  outcome (run E (loadData cx) w s) = Returned tt.
Proof.
  rewrite run_loadData.
  destruct (negb (isConnected cx)); [reflexivity|].
  destruct (answer E GetContractReadOnly w) as [[[c|]|e] w1]; try reflexivity.
  destruct (answer E GetAllBusinessIds w1) as [[ids|e] w2]; reflexivity.
Qed.

(** A reload appends its entry exactly when it installs a snapshot, and it
    installs one at most. *)
Lemma loadData_log (cx : Closure) (w : W) (s : St) :
  let r := run E (loadData cx) w s in
  (snapshots (trace r) = [] /\ log_entries (trace r) = []
   /\ cases (state r) = cases s)
  \/ (snapshots (trace r) = [cases (state r)]
      /\ log_entries (trace r) = [refreshed_entry (List.length (cases (state r)))]).
Proof.
  cbv zeta. rewrite run_loadData.
  destruct (negb (isConnected cx)); [left; repeat split|].
  destruct (answer E GetContractReadOnly w) as [[[c|]|e] w1];
    try solve [left; repeat split].
  destruct (answer E GetAllBusinessIds w1) as [[ids|e] w2];
    [right|left; repeat split].
  cbv zeta. cbn [trace state]. unfold reloaded. cbn [apply_op cases].
  split; now observe.
Qed.

(** A reload sets a banner only when it fails, an error banner with its
    own 3000 ms timer; it never writes to the ledger. *)
Lemma loadData_banners (cx : Closure) (w : W) (s : St) :
  let r := run E (loadData cx) w s in
  exists bl,
    (bl = [] \/ bl = [(error, Some 3000)])
    /\ (forall b, banners (trace r ++ b) = bl ++ banners b)
    /\ (bl = [] -> forall b, next_timer (trace r ++ b) = next_timer b).
Proof.
  cbv zeta. rewrite run_loadData.
  destruct (negb (isConnected cx)).
  { exists []. repeat split; auto. }
  destruct (answer E GetContractReadOnly w) as [[[c|]|e] w1].
  - destruct (answer E GetAllBusinessIds w1) as [[ids|e] w2].
    + exists []. split; [now left|]. cbv zeta.
      split; intros; cbn [trace]; rewrite <- ?app_assoc; now observe.
    + exists [(error, Some 3000)]. split; [now right|].
      split; [intros; reflexivity|discriminate].
  - exists []. repeat split; auto.
  - exists [(error, Some 3000)]. split; [now right|].
    split; [intros; reflexivity|discriminate].
Qed.

Lemma loadData_no_write (cx : Closure) (w : W) (s : St) :
  filter is_write (trace (run E (loadData cx) w s)) = [].
Proof.
  rewrite run_loadData.
  destruct (negb (isConnected cx)); [reflexivity|].
  destruct (answer E GetContractReadOnly w) as [[[c|]|e] w1]; try reflexivity.
  destruct (answer E GetAllBusinessIds w1) as [[ids|e] w2]; [|reflexivity].
  cbv zeta. cbn [trace app filter is_write is_create_tx is_verifier_call orb].
  rewrite filter_app, filter_fetch_trace by reflexivity. reflexivity.
Qed.

Lemma loadData_no_created_banner (cx : Closure) (w : W) (s : St) :
  filter is_created_banner (trace (run E (loadData cx) w s)) = [].
Proof.
  rewrite run_loadData.
  destruct (negb (isConnected cx)); [reflexivity|].
  destruct (answer E GetContractReadOnly w) as [[[c|]|e] w1]; try reflexivity.
  destruct (answer E GetAllBusinessIds w1) as [[ids|e] w2]; [|reflexivity].
  cbv zeta. cbn [trace app filter is_created_banner].
  rewrite filter_app, filter_fetch_trace by reflexivity. reflexivity.
Qed.

End ReloadFacts.

(* ================================================================== *)
(** ** Decryption of a verified record *)
(* ================================================================== *)

Lemma or_else_Number_0 (z : Z) : Js.or_else (Js.Number z) 0 = z.
Proof.
  unfold Js.or_else, Js.Number. destruct (Z.eqb_spec z 0); congruence.
Qed.

Section DecryptVerified.

Variable W : Type.
Variable E : World W.

(** What [decryptData] leaves in the trace on a verified record. *)
Lemma run_decryptData_verified (cx : Closure) (i : string) (w : W) (s : St)
      (a : string) (c : Contract) (w1 : W) (d : BusinessData) (w2 : W) :
  connected_address cx = Some a ->
  answer E GetContractReadOnly w = (Resolved (Some c), w1) ->
  answer E (GetBusinessData i) w1 = (Resolved d, w2) ->
  bd_isVerified d = true ->
  let r := run E (decryptData cx i) w s in
  outcome r = Returned (Some (Js.Num (bd_decryptedValue d)))
  /\ world r = w2
  /\ trace r =
     [EvCall GetContractReadOnly; EvCall (GetBusinessData i);
      EvOp (SetTransactionStatus (mkStatus true success "Data already verified"));
      EvOp (SetTimeoutHide 2000);
      EvOp (AddToHistory ("Data verified for case: " ++ bd_name d))].
Proof.
  intros Ha Hro Hd Hv r. subst r.
  unfold decryptData, decryptData_try. rewrite Ha. exec. rewrite Hro. exec. rewrite Hd. exec.
  rewrite Hv. exec. rewrite or_else_Number_0. repeat split.
Qed.

End DecryptVerified.

(** C2. On a record the ledger reports as verified, [decryptData] returns
    the stored cleartext after the two reads alone: the verifier is not
    invoked and nothing is submitted; a second call that reads the same
    stored value returns the same value, again without a round. *)
Theorem decrypt_verified_is_a_read :
  forall (W : Type) (E : World W) (cx : Closure) (i a : string) (w : W) (s : St)
         (c c' : Contract) (d d' : BusinessData) (w1 w2 w3 w4 : W),
    connected_address cx = Some a ->
    answer E GetContractReadOnly w = (Resolved (Some c), w1) ->
    answer E (GetBusinessData i) w1 = (Resolved d, w2) ->
    bd_isVerified d = true ->
    answer E GetContractReadOnly w2 = (Resolved (Some c'), w3) ->
    answer E (GetBusinessData i) w3 = (Resolved d', w4) ->
    bd_isVerified d' = true ->
    bd_decryptedValue d' = bd_decryptedValue d ->
    let r1 := run E (decryptData cx i) w s in
    let r2 := run E (decryptData cx i) (world r1) (state r1) in
    outcome r1 = Returned (Some (Js.Num (bd_decryptedValue d)))
    /\ outcome r2 = outcome r1
    /\ filter is_write (trace r1) = []
    /\ filter is_write (trace r2) = []
    /\ (List.length (trace r1) = 5 /\ List.length (trace r2) = 5)%nat
    /\ cases (state r2) = cases s.
Proof.
  intros W E cx i a w s c c' d d' w1 w2 w3 w4 Ha Hro Hd Hv Hro' Hd' Hv' Hsame r1 r2.
  destruct (run_decryptData_verified E cx i w s Ha Hro Hd Hv) as (Ho1 & Hw1 & Ht1).
  fold r1 in Ho1, Hw1, Ht1.
  assert (Hro2 : answer E GetContractReadOnly (world r1) = (Resolved (Some c'), w3))
    by (rewrite Hw1; exact Hro').
  destruct (run_decryptData_verified E cx i (world r1) (state r1) Ha Hro2 Hd' Hv')
    as (Ho2 & Hw2 & Ht2).
  fold r2 in Ho2, Hw2, Ht2.
  split; [exact Ho1|]. split; [now rewrite Ho1, Ho2, Hsame|].
  rewrite Ht1, Ht2. split; [reflexivity|]. split; [reflexivity|].
  split; [split; reflexivity|].
  unfold r2. rewrite run_state. fold r2. rewrite Ht2.
  unfold r1. rewrite run_state. fold r1. rewrite Ht1. reflexivity.
Qed.

Lemma decrypt_verified_is_a_read_witness :
  let E := scripted bob_on_ledger in
  let r1 := run E (decryptData (connected emptyForm) "case-9") tt initialSt in
  let r2 := run E (decryptData (connected emptyForm) "case-9") (world r1) (state r1) in
  outcome r1 = Returned (Some (Js.Num 51))
  /\ outcome r2 = outcome r1
  /\ filter is_write (trace r1) = []
  /\ filter is_write (trace r2) = []
  /\ (List.length (trace r1) = 5 /\ List.length (trace r2) = 5)%nat
  /\ cases (state r2) = cases initialSt.
Proof.
  exact (@decrypt_verified_is_a_read unit (scripted bob_on_ledger)
           (connected emptyForm) "case-9" "0xA11CE" tt initialSt
           ReadOnly ReadOnly bob_verified bob_verified tt tt tt tt
           eq_refl eq_refl eq_refl eq_refl eq_refl eq_refl eq_refl eq_refl).
Defined.

(* ================================================================== *)
(** ** Decryption: the failure paths *)
(* ================================================================== *)

(** Answer the next awaited call both ways and keep executing. *)
Ltac next_answer E :=
  match goal with
  | |- context [answer E ?c ?w] =>
      let H := fresh "Hans" in
      destruct (answer E c w) as [[?|?] ?] eqn:H; exec
  end.

Section DecryptFailure.

Variable W : Type.
Variable E : World W.

Local Open Scope list_scope.

(** A throw of the [try] block comes from a rejected call before any
    state was written: the state is untouched and the trace holds calls
    only. *)
Lemma decryptData_try_thrown (cx : Closure) (i : string) (w : W) (s : St)
      (e : Js.thrown) :
  let t := run E (decryptData_try cx i) w s in
  outcome t = Thrown e ->
  state t = s
  /\ log_entries (trace t) = []
  /\ snapshots (trace t) = []
  /\ filter is_verifier_call (trace t) = filter is_write (trace t)
  /\ (forall b, banners (trace t ++ b) = banners b)
  /\ exists (X : Type) (c : Call X) (w0 : W), fst (answer E c w0) = Rejected e.
Proof.
  cbv zeta. unfold decryptData_try. exec.
  destruct (answer E GetContractReadOnly w) as [[[c|]|e0] w1] eqn:H1; exec;
    try discriminate.
  2:{ intros [= <-]. repeat split; eauto.
      exists _, GetContractReadOnly, w. now rewrite H1. }
  destruct (answer E (GetBusinessData i) w1) as [[d|e0] w2] eqn:H2; exec.
  2:{ intros [= <-]. repeat split; eauto.
      exists _, (GetBusinessData i), w1. now rewrite H2. }
  destruct (bd_isVerified d); exec; try discriminate.
  destruct (answer E GetContractWithSigner w2) as [[[c'|]|e0] w3] eqn:H3; exec;
    try discriminate.
  2:{ intros [= <-]. repeat split; eauto.
      exists _, GetContractWithSigner, w2. now rewrite H3. }
  destruct (answer E (GetEncryptedValue i) w3) as [[h|e0] w4] eqn:H4; exec.
  2:{ intros [= <-]. repeat split; eauto.
      exists _, (GetEncryptedValue i), w3. now rewrite H4. }
  destruct (answer E (VerifyDecryption [h] (contractAddress cx) i) w4)
    as [[cv|e0] w5] eqn:H5; exec.
  2:{ intros [= <-]. repeat split; eauto.
      exists _, (VerifyDecryption [h] (contractAddress cx) i), w4. now rewrite H5. }
  rewrite run_bind.
  pose proof (loadData_returns E cx w5
                (apply_op (SetTransactionStatus
                             (mkStatus true pending "Verifying decryption...")) s)) as HL.
  destruct (run E (loadData cx) w5 _) as [o w6 s6 tr6]. cbn [outcome] in HL. subst o.
  exec. discriminate.
Qed.

(** The [catch] block on a cause that carries the marker. *)
Lemma run_decryptData_catch_marker (cx : Closure) (m : string) (w : W) (s : St) :
  Js.includes m "Data already verified" = true ->
  let l := run E (loadData cx) w (replay already_verified_banner s) in
  run E (decryptData_catch cx (Js.Error m)) w s =
  mkResult (Returned None) (world l) (state l) (already_verified_banner ++ trace l).
Proof.
  intros Hm. cbv zeta. unfold decryptData_catch, Js.Error. exec.
  cbn [message_includes]. rewrite Hm. exec.
  rewrite run_bind.
  match goal with
  | |- context [run E (loadData cx) w ?s0] =>
      change s0 with (replay already_verified_banner s)
  end.
  pose proof (loadData_returns E cx w (replay already_verified_banner s)) as HL.
  destruct (run E (loadData cx) w (replay already_verified_banner s))
    as [o w' s' tr].
  cbn [outcome] in HL. subst o.
  exec. unfold emit. cbn [outcome world state trace app].
  now rewrite app_nil_r.
Qed.

(** The [catch] block on any other cause that is not nullish. *)
Lemma run_decryptData_catch_other (cx : Closure) (m : option string) (w : W) (s : St) :
  message_includes m "Data already verified" = false ->
  run E (decryptData_catch cx (Js.Obj m)) w s =
  mkResult (Returned None) w
           (apply_op (SetTimeoutHide 3000)
              (apply_op (SetTransactionStatus (mkStatus true error "Decryption failed")) s))
           [EvOp (SetTransactionStatus (mkStatus true error "Decryption failed"));
            EvOp (SetTimeoutHide 3000)].
Proof.
  intros Hm. unfold decryptData_catch. exec. rewrite Hm. exec. reflexivity.
Qed.


End DecryptFailure.

(** C5. When the [try] block of [decryptData] fails with a cause
    whose message contains ["Data already verified"], the call converges on
    the success path: a success banner with its 2000 ms timer, then a reload,
    and [null] as the result.  The branch appends no entry of its own: the
    log gains the reload's entry when the reload installs a snapshot, and
    nothing when the reload fails. *)
Theorem decrypt_already_verified_converges :
  forall (W : Type) (E : World W) (cx : Closure) (i a m : string) (w : W) (s : St),
    connected_address cx = Some a ->
    outcome (run E (decryptData_try cx i) w s) = Thrown (Js.Error m) ->
    Js.includes m "Data already verified" = true ->
    let t := run E (decryptData_try cx i) w s in
    let l := run E (loadData cx) (world t) (replay already_verified_banner s) in
    let r := run E (decryptData cx i) w s in
    outcome r = Returned None
    /\ trace r = (trace t ++ already_verified_banner ++ trace l)%list
    /\ state r = state l
    /\ banners (trace r) = (success, Some 2000) :: banners (trace l)
    /\ log_entries (trace r) = log_entries (trace l)
    /\ ((snapshots (trace l) = [] /\ log_entries (trace r) = []
         /\ cases (state r) = cases s)
        \/ (snapshots (trace l) = [cases (state r)]
            /\ log_entries (trace r)
               = [refreshed_entry (List.length (cases (state r)))])).
Proof.
  intros W E cx i a m w s Ha Hthrown Hm t l r.
  destruct (decryptData_try_thrown E cx i w s Hthrown)
    as (Hst & Hlog & Hsnap & _ & Hban & _).
  fold t in Hst, Hlog, Hsnap, Hban, Hthrown.
  assert (Hr : r = mkResult (Returned None) (world l) (state l)
                            (trace t ++ already_verified_banner ++ trace l)%list).
  { unfold r, decryptData. rewrite Ha, run_try_catch. fold t.
    unfold or_catch. rewrite Hthrown.
    rewrite (@run_decryptData_catch_marker W E cx m (world t) (state t) Hm).
    rewrite Hst. fold l. reflexivity. }
  rewrite Hr. cbn [outcome state trace].
  split; [reflexivity|]. split; [reflexivity|]. split; [reflexivity|].
  split; [rewrite Hban; reflexivity|].
  rewrite log_entries_app, Hlog. cbn [app].
  change (log_entries (already_verified_banner ++ trace l)) with (log_entries (trace l)).
  split; [reflexivity|].
  destruct (loadData_log E cx (world t) (replay already_verified_banner s))
    as [(H1 & H2 & H3)|(H1 & H2)]; fold l in H1, H2.
  - left. fold l in H3. repeat split; assumption.
  - right. split; assumption.
Qed.

Lemma decrypt_already_verified_converges_witness :
  let E := scripted already_verified in
  let cx := connected emptyForm in
  let t := run E (decryptData_try cx "case-7") tt initialSt in
  let l := run E (loadData cx) (world t) (replay already_verified_banner initialSt) in
  let r := run E (decryptData cx "case-7") tt initialSt in
  outcome r = Returned None
  /\ trace r = (trace t ++ already_verified_banner ++ trace l)%list
  /\ state r = state l
  /\ banners (trace r) = (success, Some 2000) :: banners (trace l)
  /\ log_entries (trace r) = log_entries (trace l)
  /\ ((snapshots (trace l) = [] /\ log_entries (trace r) = []
       /\ cases (state r) = cases initialSt)
      \/ (snapshots (trace l) = [cases (state r)]
          /\ log_entries (trace r)
             = [refreshed_entry (List.length (cases (state r)))])).
Proof.
  exact (@decrypt_already_verified_converges unit (scripted already_verified)
           (connected emptyForm) "case-7" "0xA11CE"
           "execution reverted: Data already verified" tt initialSt
           eq_refl eq_refl eq_refl).
Defined.

(** The race is reported and the reload then fails: the call resolves to
    [null] and the log has gained no entry. *)
Lemma decrypt_already_verified_without_entry :
  let r := run (scripted already_verified_then_no_keys)
               (decryptData (connected emptyForm) "case-7") tt initialSt in
  outcome r = Returned None
  /\ status (transactionStatus (state r)) = error
  /\ log_entries (trace r) = []
  /\ operationHistory (state r) = operationHistory initialSt.
Proof. vm_compute. repeat split. Qed.

(** The same race with a reload that succeeds: the one entry is the
    reload's. *)
Example decrypt_already_verified_reload_entry :
  let r := run (scripted already_verified)
               (decryptData (connected emptyForm) "case-7") tt initialSt in
  outcome r = Returned None
  /\ operationHistory (state r) = ["Data refreshed: 1 cases loaded"].
Proof. vm_compute. repeat split. Qed.

(* ================================================================== *)
(** ** Decryption never throws on error objects, and throws on nullish *)
(* ================================================================== *)

(** As long as no collaborator rejects with [null] or [undefined], every
    call of [decryptData] resolves: to a number or to [null]. *)
Lemma decryptData_resolves_on_objects :
  forall (W : Type) (E : World W) (cx : Closure) (i : string) (w : W) (s : St),
    never_nullish E ->
    exists v, outcome (run E (decryptData cx i) w s) = Returned v.
Proof.
  intros W E cx i w s Hnn. unfold decryptData.
  destruct (connected_address cx) as [a|]; [|exists None; reflexivity].
  rewrite run_try_catch. unfold or_catch.
  destruct (outcome (run E (decryptData_try cx i) w s)) as [v|e] eqn:Ht.
  - exists v. exact Ht.
  - destruct (decryptData_try_thrown E cx i w s Ht)
      as (_ & _ & _ & _ & _ & X & c & w0 & Hrej).
    destruct e as [|m].
    + exfalso. exact (Hnn X c w0 Hrej).
    + exists None.
      destruct (message_includes m "Data already verified") eqn:Hm.
      * destruct m as [m|]; [|discriminate].
        change (Js.Obj (Some m)) with (Js.Error m).
        rewrite (@run_decryptData_catch_marker W E cx m _ _ Hm). reflexivity.
      * rewrite (@run_decryptData_catch_other W E cx m _ _ Hm). reflexivity.
Qed.

(** C6. The verifier rejects with [undefined]: the [catch] block reads
    [e.message], the TypeError leaves [decryptData], and [handleDecrypt],
    which has no handler, rejects with it as well. *)
Theorem decryptData_throws_on_nullish_rejection :
  outcome (run (scripted verifier_rejects_undefined)
               (decryptData (connected emptyForm) "case-7") tt initialSt)
  = Thrown Js.TypeError_message
  /\ outcome (run (scripted verifier_rejects_undefined)
                  (handleDecrypt (connected emptyForm) (case_of 7 alice_data))
                  tt initialSt)
     = Thrown Js.TypeError_message.
Proof. split; vm_compute; reflexivity. Qed.

(* ================================================================== *)
(** ** Creation of a case *)
(* ================================================================== *)

(** Bring in everything known about the reload that occurs in the goal. *)
Ltac use_reload E cx :=
  match goal with
  | |- context [run E (loadData cx) ?w ?s] =>
      let HR := fresh "HR" in
      let HL := fresh "HL" in
      let HB := fresh "HB" in
      let HW := fresh "HW" in
      let HC := fresh "HC" in
      pose proof (loadData_returns E cx w s) as HR;
      pose proof (loadData_log E cx w s) as HL;
      pose proof (loadData_banners E cx w s) as HB;
      pose proof (loadData_no_write E cx w s) as HW;
      pose proof (loadData_no_created_banner E cx w s) as HC;
      cbv zeta in HL, HB;
      let o := fresh "o" in
      let w' := fresh "w" in
      let s' := fresh "s" in
      let tr := fresh "tr" in
      destruct (run E (loadData cx) w s) as [o w' s' tr];
      cbn [outcome world state trace] in HR, HL, HB, HW, HC;
      subst o
  end.

Lemma history_replay (tr : list Ev) :
  forall s, operationHistory (replay tr s)
            = appendAll (log_entries tr) (operationHistory s).
Proof.
  unfold replay, appendAll.
  induction tr as [|e tr IH]; intros s; [reflexivity|].
  destruct e as [o|X c]; [destruct o|]; cbn [fold_left log_entries];
    rewrite IH; reflexivity.
Qed.

Lemma last_cons_default {A : Type} (l : list A) (a d d' : A) :
  last (a :: l) d = last (a :: l) d'.
Proof.
  revert a; induction l as [|b l IH]; intros a; [reflexivity|].
  change (last (b :: l) d = last (b :: l) d'). apply IH.
Qed.

Lemma cases_replay (tr : list Ev) :
  forall s, cases (replay tr s) = last (snapshots tr) (cases s).
Proof.
  unfold replay.
  induction tr as [|e tr IH]; intros s; [reflexivity|].
  destruct e as [o|X c]; [destruct o|]; cbn [fold_left snapshots];
    rewrite IH; try reflexivity.
  cbn [apply_op cases]. destruct (snapshots tr) as [|a t]; [reflexivity|].
  change (last (l :: a :: t) (cases s)) with (last (a :: t) (cases s)).
  apply last_cons_default.
Qed.

(** C10. Whatever the age field holds, [createCase] raises no validation
    error: once the signer contract and the encryption are obtained it
    encrypts [parseInt(age) || 0] and submits the same value as the public
    companion value, with 0 as the second one.  That value is 0 when the
    age does not parse at all and when it parses to 0, and it is the parsed
    number otherwise, a negative one included; for an age of digits only,
    as [handleChange] stores it, it is never negative. *)
Theorem create_submits_age_or_zero :
  forall (W : Type) (E : World W) (cx : Closure) (a : string) (w : W) (s : St)
         (c : Contract) (w1 : W) (enc : Encrypted) (w2 : W),
    let v := match Js.parseInt (f_age (formData cx)) with
             | Js.Num z => z
             | Js.NaN => 0
             end in
    connected_address cx = Some a ->
    answer E GetContractWithSigner w = (Resolved (Some c), w1) ->
    answer E (Encrypt (contractAddress cx) a v) w1 = (Resolved enc, w2) ->
    (exists rest,
        trace (run E (createCase cx) w s) =
        ([EvOp (SetCreatingCase true);
          EvOp (SetTransactionStatus
                  (mkStatus true pending "Encrypting patient data with FHE..."));
          EvCall GetContractWithSigner;
          EvCall (Encrypt (contractAddress cx) a v);
          EvCall (CreateBusinessData ("case-" ++ Js.of_Z (clock E w1))
                    (f_name (formData cx)) (encryptedData enc) (proof enc)
                    v 0 (f_diseaseType (formData cx)))] ++ rest)%list)
    /\ (if Js.all_digits (f_age (formData cx)) then 0 <= v else True).
Proof.
  intros W E cx a w s c w1 enc w2 v Ha Hsig Henc.
  assert (Hv : Js.or_else (Js.parseInt (f_age (formData cx))) 0 = v).
  { unfold v, Js.or_else.
    destruct (Js.parseInt (f_age (formData cx))) as [z|]; [|reflexivity].
    destruct (Z.eqb_spec z 0); congruence. }
  split.
  - unfold createCase, createCase_try. rewrite Ha. exec.
    rewrite Hsig. exec. rewrite Hv, Henc. exec.
    destruct (answer E (CreateBusinessData _ _ _ _ _ _ _) w2) as [x w3].
    cbn [emit trace app]. eexists. reflexivity.
  - destruct (Js.all_digits (f_age (formData cx))) eqn:Hd; [|exact I].
    rewrite <- Hv. exact (ageValue_nonneg cx Hd).
Qed.

Lemma create_submits_age_or_zero_witness :
  (exists rest,
      trace (run (scripted all_good) (createCase (connected no_age_form)) tt initialSt) =
      ([EvOp (SetCreatingCase true);
        EvOp (SetTransactionStatus
                (mkStatus true pending "Encrypting patient data with FHE..."));
        EvCall GetContractWithSigner;
        EvCall (Encrypt "0xC0FFEE" "0xA11CE" 0);
        EvCall (CreateBusinessData ("case-" ++ Js.of_Z 1700000000000)
                  "Alice" "0xc1ph3r" "0xpr00f" 0 0 "Cystic Fibrosis")] ++ rest)%list)
  /\ 0 <= 0.
Proof.
  exact (@create_submits_age_or_zero unit (scripted all_good)
           (connected no_age_form) "0xA11CE" tt initialSt
           WithSigner tt (mkEnc "0xc1ph3r" "0xpr00f") tt
           eq_refl eq_refl eq_refl).
Defined.

(** An age that cannot be parsed, one that parses to 0 and one with
    leading digits. *)
Example ages_as_submitted :
  map (fun age => Js.or_else (Js.parseInt age) 0) ["abc"; ""; "000"; "12abc"; " 7"]
  = [0; 0; 0; 12; 7].
Proof. reflexivity. Qed.

(** Called with a form that was not filled in through [handleChange], an
    age with a sign does not parse to a positive integer and is submitted
    as it parses, not as 0. *)
Lemma create_submits_negative_age :
  Js.parseInt (f_age negative_age_form) = Js.Num (-5)
  /\ exists rest,
      trace (run (scripted all_good) (createCase (connected negative_age_form))
                 tt initialSt) =
      ([EvOp (SetCreatingCase true);
        EvOp (SetTransactionStatus
                (mkStatus true pending "Encrypting patient data with FHE..."));
        EvCall GetContractWithSigner;
        EvCall (Encrypt "0xC0FFEE" "0xA11CE" (-5));
        EvCall (CreateBusinessData "case-1700000000000"
                  "Alice" "0xc1ph3r" "0xpr00f" (-5) 0 "Cystic Fibrosis")] ++ rest)%list.
Proof. split; [reflexivity|]. vm_compute. eexists. reflexivity. Qed.

(* ================================================================== *)
(** ** What a creation appends to the log *)
(* ================================================================== *)

(** The [catch] block of [createCase] sets an error banner with its 3000 ms
    timer, unless the cause is nullish, and appends nothing. *)
Lemma run_createCase_catch {W : Type} (E : World W) (e : Js.thrown) (w : W) (s : St) :
  let r := run E (createCase_catch e) w s in
  world r = w
  /\ log_entries (trace r) = []
  /\ snapshots (trace r) = []
  /\ filter is_created_banner (trace r) = []
  /\ filter is_write (trace r) = []
  /\ cases (state r) = cases s
  /\ ((e = Js.Nullish /\ outcome r = Thrown Js.TypeError_message /\ trace r = [])
      \/ (exists m, outcome r = Returned tt
                    /\ trace r = [EvOp (SetTransactionStatus (mkStatus true error m));
                                  EvOp (SetTimeoutHide 3000)])).
Proof.
  destruct e as [|m]; cbv zeta; unfold createCase_catch; exec.
  - repeat split. left. repeat split.
  - repeat split. right. eexists. split; reflexivity.
Qed.

Lemma no_write_split (tr : list Ev) :
  filter is_write tr = [] ->
  filter is_create_tx tr = [] /\ filter is_verifier_call tr = [].
Proof.
  induction tr as [|e tr IH]; [split; reflexivity|].
  cbn [filter]. unfold is_write at 1.
  destruct (is_create_tx e), (is_verifier_call e); cbn [orb];
    try discriminate.
  exact IH.
Qed.

(** Reading a trace whose unknown parts are reloads. *)
Ltac read_trace :=
  repeat first
    [ progress cbn [app filter map List.length
                    log_entries snapshots banners next_timer
                    is_created_banner is_create_tx is_verifier_call is_write
                    visible status message transient andb orb
                    String.eqb Ascii.eqb Bool.eqb]
    | rewrite filter_app
    | rewrite log_entries_app
    | rewrite snapshots_app
    | rewrite length_app ].

Section CreateLog.

Variable W : Type.
Variable E : World W.

Local Open Scope list_scope.

(** The [try] block of [createCase], by its outcome.  It throws before
    anything is appended or installed; when it returns, the transaction
    was submitted once and confirmed, the success banner has its 2000 ms
    timer, and the only further entry is the reload's. *)
Lemma createCase_try_shape (cx : Closure) (a : string) (w : W) (s : St) :
  let t := run E (createCase_try cx a) w s in
  match outcome t with
  | Thrown _ =>
      log_entries (trace t) = []
      /\ snapshots (trace t) = []
      /\ filter is_created_banner (trace t) = []
      /\ (List.length (filter is_create_tx (trace t)) <= 1)%nat
      /\ (forall b, banners (trace t ++ b) = banners b)
  | Returned _ =>
      filter is_created_banner (trace t) = [created_banner]
      /\ log_entries (trace t)
         = ("New case created: " ++ f_name (formData cx))%string
             :: map (fun l => refreshed_entry (List.length l)) (snapshots (trace t))
      /\ (List.length (snapshots (trace t)) <= 1)%nat
      /\ List.length (filter is_create_tx (trace t)) = 1%nat
      /\ exists bl,
          (bl = [] \/ bl = [(error, Some 3000)])
          /\ forall b, banners (trace t ++ b) = (success, Some 2000) :: bl ++ banners b
  end.
Proof.
  cbv zeta. unfold createCase_try. exec.
  destruct (answer E GetContractWithSigner w) as [[[c|]|e] w1]; exec;
    [|repeat split; cbn; lia|repeat split; cbn; lia].
  next_answer E; [|repeat split; cbn; lia].
  next_answer E; [|repeat split; cbn; lia].
  next_answer E; [|repeat split; cbn; lia].
  rewrite run_bind. use_reload E cx. exec.
  destruct HB as (bl & Hbl & HB & _).
  destruct (no_write_split _ HW) as [Hwrite _].
  split; [read_trace; now rewrite HC|].
  split.
  { read_trace. destruct HL as [(-> & -> & _)|(-> & ->)]; reflexivity. }
  split.
  { read_trace. destruct HL as [(-> & _)|(-> & _)]; cbn; lia. }
  split; [read_trace; now rewrite Hwrite|].
  exists bl. split; [exact Hbl|]. intros b.
  rewrite <- app_assoc. read_trace. rewrite HB. reflexivity.
Qed.

(** Every run of [createCase]: a run that shows the success banner
    returned, submitted one transaction and appended its own entry
    followed by the reload's entry, if the reload installed a snapshot; any
    other run appended nothing and installed nothing. *)
Lemma createCase_log (cx : Closure) (w : W) (s : St) :
  let r := run E (createCase cx) w s in
  match filter is_created_banner (trace r) with
  | [] =>
      log_entries (trace r) = []
      /\ snapshots (trace r) = []
  | _ =>
      outcome r = Returned tt
      /\ log_entries (trace r)
         = ("New case created: " ++ f_name (formData cx))%string
             :: map (fun l => refreshed_entry (List.length l)) (snapshots (trace r))
      /\ (List.length (snapshots (trace r)) <= 1)%nat
      /\ List.length (filter is_create_tx (trace r)) = 1%nat
  end.
Proof.
  cbv zeta. unfold createCase.
  destruct (connected_address cx) as [a|]; [|cbn; split; reflexivity].
  exec. rewrite run_finally, run_try_catch.
  pose proof (createCase_try_shape cx a w
                (apply_op (SetTransactionStatus
                             (mkStatus true pending "Encrypting patient data with FHE..."))
                          (apply_op (SetCreatingCase true) s))) as Ht.
  cbv zeta in Ht.
  destruct (run E (createCase_try cx a) w _) as [[u|e] w1 s1 tr1];
    cbn [outcome trace] in Ht; unfold or_catch; cbn [outcome world state trace].
  - destruct Ht as (Hc & Hlog & Hsn & Htx & _).
    unfold and_finally. exec. read_trace.
    rewrite Hc, Hlog. cbn [app]. rewrite !app_nil_r, !Nat.add_0_r, Htx.
    destruct u. repeat split. exact Hsn.
  - destruct Ht as (Hlog & Hsn & Hc & _ & _).
    destruct (run_createCase_catch E e w1 s1) as (_ & Hlog' & Hsn' & Hc' & _).
    destruct (run E (createCase_catch e) w1 s1) as [o2 w2 s2 tr2].
    cbn [trace] in Hlog', Hsn', Hc'.
    unfold and_finally, emit. exec. cbn [outcome world state trace].
    destruct o2; read_trace; rewrite Hc, Hc', Hlog, Hlog', Hsn, Hsn';
      split; reflexivity.
Qed.



End CreateLog.

(** C7. A run of [createCase] that reaches the success banner
    returns, has submitted one creation transaction, and appends its own
    entry ["New case created: <name>"]; the reload it then triggers appends
    one more entry exactly when it installs a snapshot, so end to end the
    invocation appends two entries, or one when the reload fails.  A run that
    does not reach the success banner appends nothing and leaves the cases
    as they were. *)
Theorem create_appends_own_entry_then_reload_entry :
  forall (W : Type) (E : World W) (cx : Closure) (w : W) (s : St),
    let r := run E (createCase cx) w s in
    match filter is_created_banner (trace r) with
    | [] =>
        log_entries (trace r) = []
        /\ operationHistory (state r) = operationHistory s
        /\ cases (state r) = cases s
    | _ =>
        outcome r = Returned tt
        /\ List.length (filter is_create_tx (trace r)) = 1%nat
        /\ log_entries (trace r)
           = ("New case created: " ++ f_name (formData cx))%string
               :: map (fun l => refreshed_entry (List.length l)) (snapshots (trace r))
        /\ (List.length (snapshots (trace r)) <= 1)%nat
        /\ List.length (log_entries (trace r))
           = (1 + List.length (snapshots (trace r)))%nat
        /\ operationHistory (state r)
           = appendAll (log_entries (trace r)) (operationHistory s)
    end.
Proof.
  intros W E cx w s r.
  pose proof (createCase_log E cx w s) as H. cbv zeta in H. fold r in H.
  pose proof (run_state E (createCase cx) w s) as Hst. fold r in Hst.
  destruct (filter is_created_banner (trace r)) as [|b bs].
  - destruct H as [Hlog Hsn].
    rewrite Hst, history_replay, cases_replay, Hlog, Hsn. repeat split.
  - destruct H as (Ho & Hlog & Hsn & Htx).
    rewrite Hst, history_replay.
    repeat split; try assumption.
    rewrite Hlog. cbn [List.length]. now rewrite length_map.
Qed.

(** Every collaborator cooperates: the creation appends two entries, its
    own and the reload's. *)
Lemma create_appends_two_entries :
  let r := run (scripted all_good) (createCase (connected alice_form)) tt initialSt in
  outcome r = Returned tt
  /\ log_entries (trace r)
     = ["New case created: Alice"; "Data refreshed: 1 cases loaded"]
  /\ operationHistory (state r)
     = ["Data refreshed: 1 cases loaded"; "New case created: Alice"]
  /\ List.length (log_entries (trace r)) <> 1%nat.
Proof. vm_compute. repeat split. discriminate. Qed.

(* ================================================================== *)
(** ** Banners and their timers *)
(* ================================================================== *)

Section CreateState.

Variable W : Type.
Variable E : World W.

Local Open Scope list_scope.

(** The part of the state a failed creation leaves alone. *)
Lemma createCase_try_state (cx : Closure) (a : string) (w : W) (s : St) :
  let t := run E (createCase_try cx a) w s in
  match outcome t with
  | Thrown _ =>
      state t = s
      \/ state t = apply_op (SetTransactionStatus
                               (mkStatus true pending
                                         "Storing encrypted data on blockchain...")) s
  | Returned _ =>
      newCaseData (state t) = emptyForm /\ showCreateModal (state t) = false
  end.
Proof.
  cbv zeta. unfold createCase_try. exec.
  destruct (answer E GetContractWithSigner w) as [[[c|]|e] w1]; exec;
    [|now left|now left].
  next_answer E; [|now left].
  next_answer E; [|now left].
  next_answer E; [|now right].
  rewrite run_bind. use_reload E cx. exec. split; reflexivity.
Qed.

Lemma createCase_catch_state (e : Js.thrown) (w : W) (s : St) :
  let r := run E (createCase_catch e) w s in
  cases (state r) = cases s
  /\ isRefreshing (state r) = isRefreshing s
  /\ showCreateModal (state r) = showCreateModal s
  /\ newCaseData (state r) = newCaseData s
  /\ operationHistory (state r) = operationHistory s
  /\ localDecrypted (state r) = localDecrypted s.
Proof. destruct e; cbv zeta; unfold createCase_catch; exec; repeat split. Qed.

End CreateState.

Section Banners.

Variable W : Type.
Variable E : World W.

Local Open Scope list_scope.







(** Every run of [testAvailability], by what the probe answers. *)
Lemma run_testAvailability (cx : Closure) (w : W) (s : St) :
  run E (testAvailability cx) w s =
  if negb (isConnected cx) then mkResult (Returned tt) w s []
  else
    let failed :=
      [EvOp (SetTransactionStatus (mkStatus true error "Availability check failed"));
       EvOp (SetTimeoutHide 2000)] in
    let ready :=
      [EvOp (SetTransactionStatus
               (mkStatus true success "FHE System is available and ready!"));
       EvOp (AddToHistory "System availability checked: Ready");
       EvOp (SetTimeoutHide 2000)] in
    let (x, w1) := answer E GetContractReadOnly w in
    match x with
    | Rejected _ =>
        mkResult (Returned tt) w1 (replay failed s) (EvCall GetContractReadOnly :: failed)
    | Resolved None =>
        mkResult (Returned tt) w1 (apply_op (SetTimeoutHide 2000) s)
                 [EvCall GetContractReadOnly; EvOp (SetTimeoutHide 2000)]
    | Resolved (Some _) =>
        let (y, w2) := answer E IsAvailable w1 in
        match y with
        | Rejected _ =>
            mkResult (Returned tt) w2 (replay failed s)
                     (EvCall GetContractReadOnly :: EvCall IsAvailable :: failed)
        | Resolved true =>
            mkResult (Returned tt) w2 (replay ready s)
                     (EvCall GetContractReadOnly :: EvCall IsAvailable :: ready)
        | Resolved false =>
            mkResult (Returned tt) w2 (apply_op (SetTimeoutHide 2000) s)
                     [EvCall GetContractReadOnly; EvCall IsAvailable;
                      EvOp (SetTimeoutHide 2000)]
        end
    end.
Proof.
  unfold testAvailability.
  destruct (isConnected cx); [|reflexivity].
  exec.
  destruct (answer E GetContractReadOnly w) as [[[c|]|e] w1]; exec;
    try reflexivity.
  destruct (answer E IsAvailable w1) as [[[|]|e] w2]; exec; reflexivity.
Qed.







End Banners.



(* ================================================================== *)
(** ** Interleaving: the guard of the create modal *)
(* ================================================================== *)

Section FlagWriters.

Lemma NoFlag_bind {A B : Type} (p : Prog A) (f : A -> Prog B) :
  NoFlag p -> (forall a, NoFlag (f a)) -> NoFlag (bind p f).
Proof.
  intros Hp Hf. induction Hp; cbn [bind]; auto; constructor; auto.
Qed.

Lemma NoFlag_try_catch {A : Type} (p : Prog A) (h : Js.thrown -> Prog A) :
  NoFlag p -> (forall e, NoFlag (h e)) -> NoFlag (try_catch p h).
Proof.
  intros Hp Hh. induction Hp; cbn [try_catch]; auto; constructor; auto.
Qed.

Lemma NoFlag_finally {A : Type} (p : Prog A) (f : Prog unit) :
  NoFlag p -> NoFlag f -> NoFlag (finally p f).
Proof.
  intros Hp Hf. induction Hp; cbn [finally].
  - apply NoFlag_bind; [assumption|intros; constructor].
  - apply NoFlag_bind; [assumption|intros; constructor].
  - constructor; auto.
  - constructor; auto.
  - constructor; auto.
Qed.

Lemma NoFlag_await {X : Type} (c : Call X) : NoFlag (await c).
Proof. constructor. intros [x|e]; constructor. Qed.

Lemma NoFlag_do_ (o : Op) : writes_flag o = false -> NoFlag (do_ o).
Proof. intros H. constructor; [exact H|constructor]. Qed.

Lemma NoFlag_banner (p : Phase) (m : string) : NoFlag (banner p m).
Proof. apply NoFlag_do_. reflexivity. Qed.

Lemma NoFlag_Date_now : NoFlag Date_now.
Proof. constructor. intros; constructor. Qed.

(** The finaliser of [createCase] releases the flag after code that never
    writes it. *)
Lemma Holds_finally {A : Type} (p : Prog A) :
  NoFlag p -> Holds (finally p (do_ (SetCreatingCase false))).
Proof.
  intros Hp. induction Hp; cbn [finally bind do_]; constructor; auto.
Qed.

End FlagWriters.

Ltac no_flag := repeat (intros; first
  [ apply NoFlag_bind | apply NoFlag_try_catch | apply NoFlag_finally
  | apply NoFlag_await | apply NoFlag_banner | apply NoFlag_Date_now
  | apply NoFlag_do_; reflexivity
  | apply NF_ret | apply NF_throw
  | match goal with
    | |- NoFlag (match ?x with _ => _ end) => destruct x
    end ]).

Section Programs.

Lemma NoFlag_case_id (i : string) : NoFlag (case_id i).
Proof. unfold case_id. no_flag. Qed.

Lemma NoFlag_load_cases (ids : list string) :
  forall acc, NoFlag (load_cases ids acc).
Proof.
  induction ids as [|i rest IH]; intros acc; cbn [load_cases]; no_flag.
  - apply NoFlag_case_id.
  - apply IH.
Qed.

Lemma NoFlag_loadData (cx : Closure) : NoFlag (loadData cx).
Proof. unfold loadData. no_flag. apply NoFlag_load_cases. Qed.

Lemma NoFlag_testAvailability (cx : Closure) : NoFlag (testAvailability cx).
Proof. unfold testAvailability. no_flag. Qed.

Lemma NoFlag_message_of (e : Js.thrown) : NoFlag (message_of e).
Proof. unfold message_of. no_flag. Qed.

Lemma NoFlag_decryptData (cx : Closure) (i : string) : NoFlag (decryptData cx i).
Proof.
  unfold decryptData, decryptData_try, decryptData_catch.
  no_flag; try apply NoFlag_loadData; apply NoFlag_message_of.
Qed.

Lemma NoFlag_handleDecrypt (cx : Closure) (item : DiseaseCase) :
  NoFlag (handleDecrypt cx item).
Proof. unfold handleDecrypt. no_flag. apply NoFlag_decryptData. Qed.

Lemma NoFlag_createCase_try (cx : Closure) (a : string) :
  NoFlag (createCase_try cx a).
Proof. unfold createCase_try. no_flag. apply NoFlag_loadData. Qed.

Lemma NoFlag_createCase_catch (e : Js.thrown) : NoFlag (createCase_catch e).
Proof. unfold createCase_catch. no_flag. apply NoFlag_message_of. Qed.

End Programs.

Section Settle.

Lemma apply_op_flag (o : Op) (s : St) :
  writes_flag o = false -> creatingCase (apply_op o s) = creatingCase s.
Proof. destruct o; cbn; intros H; try reflexivity; discriminate. Qed.

Lemma NoFlag_await_inv {A X : Type} (c : Call X) (k : Resp X -> Prog A) :
  NoFlag (Await c k) -> forall r, NoFlag (k r).
Proof.
  intros H.
  change (match Await c k with
          | Await c' k' => forall r, NoFlag (k' r)
          | _ => True
          end).
  destruct H; auto.
Qed.

Lemma Holds_await_inv {A X : Type} (c : Call X) (k : Resp X -> Prog A) :
  Holds (Await c k) -> forall r, Holds (k r).
Proof.
  intros H.
  change (match Await c k with
          | Await c' k' => forall r, Holds (k' r)
          | _ => True
          end).
  destruct H; auto.
Qed.

(** Code that never writes the flag leaves it as it is, up to the next
    suspension point and beyond. *)
Lemma settle_NoFlag {A : Type} (p : Prog A) (t : Z) :
  NoFlag p ->
  forall s,
    creatingCase (fst (fst (settle p t s))) = creatingCase s
    /\ NoFlag (snd (settle p t s))
    /\ (is_done (snd (settle p t s)) = false -> suspended (snd (settle p t s))).
Proof.
  induction 1 as [a|e|o k Ho Hk IH|k Hk IH|X c k Hk IH]; intros s; cbn [settle].
  - repeat split; [constructor|discriminate].
  - repeat split; [constructor|discriminate].
  - specialize (IH (apply_op o s)).
    destruct (settle k t (apply_op o s)) as [[s' tr] p']. cbn [fst snd] in *.
    rewrite (apply_op_flag _ _ Ho) in IH. exact IH.
  - apply IH.
  - cbn [fst snd]. repeat split. now constructor.
Qed.

(** Code that holds the flag either finishes, or is suspended with the
    flag still set. *)
Lemma settle_Holds {A : Type} (p : Prog A) (t : Z) :
  Holds p ->
  forall s,
    creatingCase s = true ->
    is_done (snd (settle p t s)) = true
    \/ (creatingCase (fst (fst (settle p t s))) = true
        /\ Holds (snd (settle p t s))
        /\ suspended (snd (settle p t s))).
Proof.
  induction 1 as [a|e|o k Ho Hk IH|k Hk IH|X c k Hk IH]; intros s Hs; cbn [settle].
  - left. reflexivity.
  - left. reflexivity.
  - specialize (IH (apply_op o s)).
    rewrite (apply_op_flag _ _ Ho) in IH. specialize (IH Hs).
    destruct (settle k t (apply_op o s)) as [[s' tr] p']. cbn [fst snd] in *.
    exact IH.
  - apply IH. exact Hs.
  - right. cbn [fst snd]. repeat split; [exact Hs|now constructor].
Qed.

End Settle.

Section PoolCounting.

Local Open Scope nat_scope.
Local Open Scope list_scope.

Lemma in_flight_app (k : Kind) (a b : list Task) :
  in_flight k (a ++ b) = in_flight k a + in_flight k b.
Proof. unfold in_flight. now rewrite filter_app, length_app. Qed.

Lemma pool_split (l : list Task) (i : nat) (t : Task) :
  nth_error l i = Some t ->
  l = firstn i l ++ [t] ++ skipn (S i) l.
Proof.
  revert i; induction l as [|x l IH]; intros [|i] H; try discriminate.
  - injection H as ->. reflexivity.
  - cbn [firstn skipn app]. f_equal. apply IH. exact H.
Qed.

Lemma is_kind_create (t : Task) :
  is_kind KCreate t = match kind t with KCreate => true | _ => false end.
Proof. unfold is_kind. destruct (kind t); reflexivity. Qed.

End PoolCounting.

Section Guard.

Variable W : Type.
Variable E : World W.

Local Open Scope nat_scope.
Local Open Scope list_scope.

Lemma guarded_initial : guarded initialSys.
Proof. repeat split; cbn; auto. Qed.

(** Launching anything but a creation keeps the guard. *)
Lemma invoke_other_guarded (k : Kind) (p : Prog unit) (w : W) (sys : Sys) :
  is_kind KCreate (mkTask k p) = false ->
  NoFlag p ->
  guarded sys ->
  guarded (invoke E k p w sys).
Proof.
  intros Hk Hp (Hall & Hle & Hzero). unfold invoke.
  destruct (settle_NoFlag (clock E w) Hp (ui sys)) as (Hflag & Hnf & Hsusp).
  destruct (settle p (clock E w) (ui sys)) as [[s' tr] p'].
  cbn [fst snd] in *.
  assert (Hk' : is_kind KCreate (mkTask k p') = false).
  { rewrite is_kind_create in *. exact Hk. }
  destruct (is_done p') eqn:Hdone; unfold guarded; cbn [ui pool].
  - rewrite Hflag. repeat split; assumption.
  - rewrite Hflag, in_flight_app.
    assert (H1 : in_flight KCreate [mkTask k p'] = 0).
    { unfold in_flight. cbn [filter]. now rewrite Hk'. }
    rewrite H1, Nat.add_0_r. repeat split; try assumption.
    apply Forall_app. split; [assumption|]. constructor; [|constructor].
    split; [now apply Hsusp|]. cbn [kind code].
    rewrite is_kind_create in Hk. cbn [kind] in Hk.
    destruct k; [discriminate|assumption..].
Qed.

(** [createCase] sets the flag before it suspends and holds it. *)
Lemma invoke_create_guarded (cx : Closure) (w : W) (sys : Sys) :
  creatingCase (ui sys) = false ->
  guarded sys ->
  guarded (invoke E KCreate (createCase cx) w sys).
Proof.
  intros Hoff (Hall & Hle & Hzero). specialize (Hzero Hoff).
  unfold invoke, createCase.
  destruct (connected_address cx) as [a|].
  - cbn [bind do_ banner settle].
    assert (Hh : Holds (finally (try_catch (createCase_try cx a) createCase_catch)
                                (do_ (SetCreatingCase false)))).
    { apply Holds_finally. apply NoFlag_try_catch.
      - apply NoFlag_createCase_try.
      - apply NoFlag_createCase_catch. }
    match goal with
    | |- context [settle ?p ?t ?s] =>
        destruct (settle_Holds t Hh s eq_refl) as [Hd|(Hf & Hh' & Hs)];
        destruct (settle p t s) as [[s' tr] p']
    end; cbn [fst snd] in *.
    + rewrite Hd. unfold guarded; cbn [ui pool]. rewrite Hzero.
      repeat split; auto.
    + destruct (is_done p') eqn:Hdone; unfold guarded; cbn [ui pool].
      * rewrite Hzero. repeat split; auto.
      * rewrite in_flight_app, Hzero. cbn.
        repeat split; auto; [|rewrite Hf; discriminate].
        apply Forall_app. split; [assumption|]. constructor; [|constructor].
        split; assumption.
  - cbn. unfold guarded; cbn [ui pool]. rewrite Hzero. repeat split; auto.
Qed.

(** Replacing one pending invocation by what it becomes keeps the guard, as
    long as no creation appears and a creation that remains has the flag
    set. *)
Lemma guarded_replace (sys : Sys) (i : nat) (t : Task) (s' : St)
      (tr : list Ev) (new : list Task) :
  guarded sys ->
  nth_error (pool sys) i = Some t ->
  Forall task_ok new ->
  in_flight KCreate new <= in_flight KCreate [t] ->
  (creatingCase s' = false ->
   in_flight KCreate new = 0
   /\ (in_flight KCreate [t] = 0 -> creatingCase (ui sys) = false)) ->
  guarded (mkSys s' (firstn i (pool sys) ++ new ++ skipn (S i) (pool sys))
                 (journal sys ++ tr)).
Proof.
  intros (Hall & Hle & Hzero) Hnth Hnew Hcount Hflag.
  pose proof (pool_split _ _ Hnth) as Hsplit.
  assert (Hold : in_flight KCreate (pool sys)
                 = in_flight KCreate (firstn i (pool sys))
                   + (in_flight KCreate [t]
                      + in_flight KCreate (skipn (S i) (pool sys)))).
  { rewrite Hsplit at 1. now rewrite !in_flight_app. }
  unfold guarded; cbn [ui pool]. rewrite !in_flight_app.
  split; [|split].
  - rewrite Hsplit in Hall. apply Forall_app in Hall as [H1 H2].
    apply Forall_app in H2 as [_ H2].
    apply Forall_app; split; [assumption|].
    apply Forall_app; split; assumption.
  - lia.
  - intros Hoff. destruct (Hflag Hoff) as [Hn Ht].
    destruct (in_flight KCreate [t]) as [|n] eqn:Hone.
    + specialize (Hzero (Ht eq_refl)). lia.
    + lia.
Qed.

(** Settling the promise of a pending invocation keeps the guard. *)
Lemma deliver_guarded (i : nat) (w : W) (sys : Sys) :
  guarded sys -> guarded (fst (deliver E i w sys)).
Proof.
  intros Hg. unfold deliver.
  destruct (nth_error (pool sys) i) as [[k p]|] eqn:Hnth; [|exact Hg].
  destruct p as [a|e|o q|q|X c kont]; try exact Hg.
  assert (Hok : task_ok (mkTask k (Await c kont))).
  { destruct Hg as (Hall & _). rewrite Forall_forall in Hall.
    apply Hall. eapply nth_error_In; eassumption. }
  destruct Hok as [_ Hcode]. cbn [kind code] in Hcode.
  destruct (answer E c w) as [x w'].
  destruct (match k with KCreate => true | _ => false end) eqn:Hk.
  - (* a creation: the flag is set, and stays set until it finishes *)
    destruct k; try discriminate.
    assert (Hon : creatingCase (ui sys) = true).
    { destruct Hg as (_ & _ & Hzero).
      destruct (creatingCase (ui sys)); [reflexivity|].
      specialize (Hzero eq_refl).
      rewrite (pool_split _ _ Hnth), !in_flight_app in Hzero.
      cbn in Hzero. lia. }
    destruct (settle_Holds (clock E w') (Holds_await_inv Hcode x) (ui sys) Hon)
      as [Hd|(Hf & Hh & Hs)];
      destruct (settle (kont x) (clock E w') (ui sys)) as [[s' tr] p'];
      cbn [fst snd] in *.
    + rewrite Hd. apply guarded_replace with (t := mkTask KCreate (Await c kont));
        auto; cbn; lia.
    + destruct (is_done p');
        apply guarded_replace with (t := mkTask KCreate (Await c kont));
        auto; cbn; try lia.
      * constructor; [|constructor]. split; assumption.
      * intros Hoff. rewrite Hf in Hoff. discriminate.
  - (* any other invocation never writes the flag *)
    assert (Hnf : NoFlag (Await c kont)) by (destruct k; [discriminate|assumption..]).
    destruct (settle_NoFlag (clock E w') (NoFlag_await_inv Hnf x) (ui sys))
      as (Hflag & Hnf' & Hsusp).
    destruct (settle (kont x) (clock E w') (ui sys)) as [[s' tr] p'].
    cbn [fst snd] in *.
    assert (H0 : forall q, in_flight KCreate [mkTask k q] = 0).
    { intros q. unfold in_flight. cbn [filter]. rewrite is_kind_create.
      cbn [kind]. now rewrite Hk. }
    destruct (is_done p') eqn:Hdone;
      apply guarded_replace with (t := mkTask k (Await c kont));
      auto; rewrite ?H0, ?Hflag; cbn; try lia; auto.
    constructor; [|constructor]. split; [now apply Hsusp|].
    cbn [kind code]. destruct k; [discriminate|assumption..].
Qed.

End Guard.

Section Steps.

Variable W : Type.
Variable E : World W.

Local Open Scope nat_scope.
Local Open Scope list_scope.

Lemma step_guarded (a : Action) (w : W) (sys : Sys) :
  guarded sys -> guarded (fst (step E a w sys)).
Proof.
  intros Hg. destruct a as [field value|h|h|h|h item|i|i]; cbn [step].
  - destruct Hg as (Hall & Hle & Hzero). repeat split; assumption.
  - destruct (submit_disabled _ _ _) eqn:Hd; [exact Hg|]. cbn [fst].
    apply invoke_create_guarded; [|exact Hg].
    unfold submit_disabled in Hd.
    destruct (creatingCase (ui sys)); [discriminate|reflexivity].
  - destruct (isRefreshing (ui sys)); [exact Hg|]. cbn [fst].
    apply invoke_other_guarded; [reflexivity|apply NoFlag_loadData|exact Hg].
  - cbn [fst].
    apply invoke_other_guarded; [reflexivity|apply NoFlag_testAvailability|exact Hg].
  - destruct (isVerified item || h_isDecrypting h); [exact Hg|]. cbn [fst].
    apply invoke_other_guarded; [reflexivity|apply NoFlag_handleDecrypt|exact Hg].
  - apply deliver_guarded. exact Hg.
  - destruct Hg as (Hall & Hle & Hzero). unfold fire_timer.
    destruct (nth_error (timers (ui sys)) i); repeat split; assumption.
Qed.

Lemma steps_guarded (l : list Action) :
  forall (w : W) (sys : Sys), guarded sys -> guarded (fst (steps E l w sys)).
Proof.
  induction l as [|a l IH]; intros w sys Hg; cbn [steps]; [exact Hg|].
  pose proof (step_guarded a w Hg) as Hg'.
  destruct (step E a w sys) as [sys' w']. apply IH. exact Hg'.
Qed.

(** While the flag is set the submit button launches nothing. *)
Lemma submit_refused (h : Hooks) (w : W) (sys : Sys) :
  creatingCase (ui sys) = true -> step E (ClickSubmit h) w sys = (sys, w).
Proof. intros H. cbn [step]. unfold submit_disabled. now rewrite H. Qed.

End Steps.

(** C1. Driven through the view (form edits, the submit, refresh,
    availability and decrypt buttons, promises settling and timers firing in
    any order), the system never has two creations in flight: at any moment
    either none is, or exactly one is, the [creatingCase] flag is set and a
    click on the submit button launches nothing.  The guard is the disabled
    button; [createCase] itself never checks the flag. *)
Theorem submit_button_admits_one_creation :
  forall (W : Type) (E : World W) (acts : list Action) (w : W),
    let sys := fst (steps E acts w initialSys) in
    in_flight KCreate (pool sys) = 0%nat
    \/ (in_flight KCreate (pool sys) = 1%nat
        /\ creatingCase (ui sys) = true
        /\ forall (h : Hooks) (w' : W), step E (ClickSubmit h) w' sys = (sys, w')).
Proof.
  intros W E acts w sys.
  destruct (steps_guarded E acts w guarded_initial) as (_ & Hle & Hzero).
  fold sys in Hle, Hzero.
  destruct (creatingCase (ui sys)) eqn:Hflag.
  - destruct (in_flight KCreate (pool sys)) as [|[|n]] eqn:Hn.
    + now left.
    + right. repeat split. intros h w'. now apply submit_refused.
    + lia.
  - left. now apply Hzero.
Qed.

(** Called twice directly, the second time while the first call is
    suspended, [createCase] runs twice: two creations are in flight and two
    transactions are submitted. *)
Lemma two_direct_creations_submit_twice :
  let E := scripted all_good in
  let sys1 := invoke E KCreate (createCase (connected alice_form)) tt initialSys in
  let sys2 := invoke E KCreate (createCase (connected alice_form)) tt sys1 in
  in_flight KCreate (pool sys1) = 1%nat
  /\ in_flight KCreate (pool sys2) = 2%nat
  /\ pool (fst two_creates) = []
  /\ List.length (filter is_create_tx (journal (fst two_creates))) = 2%nat.
Proof. vm_compute. repeat split. Qed.

(** The same two requests made through the submit button: the second click
    is refused and one transaction is submitted. *)
Example two_clicks_submit_once :
  let E := scripted all_good in
  let sys := fst (steps E [Edit "name" "Alice"; Edit "age" "34";
                           Edit "diseaseType" "Cystic Fibrosis";
                           ClickSubmit idle_hooks; ClickSubmit idle_hooks;
                           Deliver 0; Deliver 0; Deliver 0; Deliver 0;
                           Deliver 0; Deliver 0; Deliver 0]%nat tt initialSys) in
  pool sys = []
  /\ List.length (filter is_create_tx (journal sys)) = 1%nat
  /\ List.length (cases (ui sys)) = 1%nat.
Proof. vm_compute. repeat split. Qed.

(* ================================================================== *)
(** ** Interleaving: decryption has no guard per key *)
(* ================================================================== *)

Section DecryptRounds.

Variable W : Type.
Variable E : World W.

Local Open Scope nat_scope.
Local Open Scope list_scope.

(** Settling the promise of the invocation that joined the pool last. *)
Lemma deliver_last (l : list Task) (k : Kind) (X : Type) (c : Call X)
      (kont : Resp X -> Prog unit) (w : W) (s : St) (j : list Ev) :
  deliver E (List.length l) w (mkSys s (l ++ [mkTask k (Await c kont)]) j)
  = let (x, w') := answer E c w in
    let '(s', tr, p') := settle (kont x) (clock E w') s in
    (mkSys s' (l ++ (if is_done p' then [] else [mkTask k p'])) (j ++ tr), w').
Proof.
  unfold deliver. cbn [pool ui journal].
  rewrite nth_error_app2 by lia. rewrite Nat.sub_diag. cbn [nth_error].
  destruct (answer E c w) as [x w'].
  destruct (settle (kont x) (clock E w') s) as [[s' tr] p'].
  rewrite firstn_app, firstn_all, Nat.sub_diag. cbn [firstn].
  rewrite app_nil_r.
  replace (S (List.length l)) with (List.length (l ++ [mkTask k (Await c kont)]))
    by (rewrite length_app; cbn; lia).
  rewrite skipn_all. now rewrite app_nil_r.
Qed.

Lemma in_flight_snoc_same (k : Kind) (p : Prog unit) (l : list Task) :
  is_kind k (mkTask k p) = true ->
  in_flight k (l ++ [mkTask k p]) = S (in_flight k l).
Proof.
  intros H. rewrite in_flight_app. unfold in_flight at 2.
  cbn [filter]. rewrite H. cbn [List.length]. lia.
Qed.

Lemma rounds_in_flight_snoc (key : string) (t : Task) (l : list Task) :
  awaits_verifier key t = true ->
  rounds_in_flight key (l ++ [t]) = S (rounds_in_flight key l).
Proof.
  intros H. unfold rounds_in_flight. rewrite filter_app, length_app.
  cbn [filter]. rewrite H. cbn [List.length]. lia.
Qed.

(** A disabled or hidden decrypt button launches nothing. *)
Lemma decrypt_click_refused (h : Hooks) (item : DiseaseCase) (w : W) (sys : Sys) :
  isVerified item || h_isDecrypting h = true ->
  step E (ClickDecrypt h item) w sys = (sys, w).
Proof. intros H. cbn [step]. now rewrite H. Qed.

(** Nothing is pending at an index past the pool. *)
Lemma deliver_none (w : W) (sys : Sys) :
  deliver E (List.length (pool sys)) w sys = (sys, w).
Proof.
  unfold deliver.
  replace (nth_error (pool sys) (List.length (pool sys))) with (@None Task);
    [reflexivity|].
  symmetry. apply nth_error_None. lia.
Qed.

End DecryptRounds.

(** C4. Neither [decryptData] nor [handleDecrypt] looks at what is pending.
    A click on the decrypt button is ignored only when the displayed case is
    verified or the decryption provider reports busy (one flag for all
    records).  Otherwise, with a connected wallet and a ledger that serves
    the reads of an unverified record, the new invocation reaches the
    verifier whatever the pool already holds: one more invocation and one
    more decryption round for that key are in flight, also when a round for
    the same key was in flight before. *)
Theorem decrypt_click_is_gated_by_busy_flag_only :
  forall (W : Type) (E : World W) (h : Hooks) (item : DiseaseCase)
         (sys : Sys) (a : string) (c c' : Contract) (d : BusinessData)
         (hdl : string) (w w1 w2 w3 w4 : W),
    let key := ("case-" ++ Js.of_Z (id item))%string in
    connected_address (render h (ui sys)) = Some a ->
    answer E GetContractReadOnly w = (Resolved (Some c), w1) ->
    answer E (GetBusinessData key) w1 = (Resolved d, w2) ->
    bd_isVerified d = false ->
    answer E GetContractWithSigner w2 = (Resolved (Some c'), w3) ->
    answer E (GetEncryptedValue key) w3 = (Resolved hdl, w4) ->
    let n := List.length (pool sys) in
    let final :=
      fst (steps E [ClickDecrypt h item; Deliver n; Deliver n; Deliver n; Deliver n]
                 w sys) in
    if isVerified item || h_isDecrypting h
    then final = sys
    else in_flight (KDecrypt key) (pool final)
         = S (in_flight (KDecrypt key) (pool sys))
         /\ rounds_in_flight key (pool final)
            = S (rounds_in_flight key (pool sys))
         /\ ui final = ui sys.
Proof.
  intros W E h item sys a c c' d hdl w w1 w2 w3 w4 key Ha H1 H2 Hd H3 H4 n final.
  subst final. cbn [steps].
  destruct (isVerified item || h_isDecrypting h) eqn:Hgate.
  - rewrite (decrypt_click_refused E h item w sys Hgate).
    subst n. cbn [step]. rewrite !deliver_none. reflexivity.
  - apply orb_false_elim in Hgate as [Hv Hbusy].
    cbn [step]. rewrite Hv, Hbusy. cbn [orb].
    unfold invoke, handleDecrypt, decryptData, decryptData_try.
    rewrite Hv, Ha.
    cbn [bind try_catch await settle is_done ui pool journal].
    fold key. subst n.
    destruct sys as [s l j]. cbn [ui pool journal] in *.
    rewrite deliver_last, H1.
    cbn [bind try_catch await settle is_done].
    rewrite deliver_last, H2.
    cbn [bind try_catch await settle is_done]. rewrite Hd.
    cbn [bind try_catch await settle is_done].
    rewrite deliver_last, H3.
    cbn [bind try_catch await settle is_done].
    rewrite deliver_last, H4.
    cbn [bind try_catch await settle is_done fst ui pool].
    split; [|split; [|reflexivity]].
    + apply in_flight_snoc_same. unfold is_kind. cbn [kind]. apply String.eqb_refl.
    + apply rounds_in_flight_snoc. unfold awaits_verifier. cbn [code].
      apply String.eqb_refl.
Qed.

(** One round for the key is in flight; a second request makes it two. *)
Lemma decrypt_click_is_gated_by_busy_flag_only_witness :
  let E := scripted all_good in
  let item := case_of 7 alice_data in
  let sys := fst (steps E [ClickDecrypt idle_hooks item;
                           Deliver 0; Deliver 0; Deliver 0; Deliver 0] tt initialSys) in
  let final := fst (steps E [ClickDecrypt idle_hooks item;
                             Deliver 1; Deliver 1; Deliver 1; Deliver 1] tt sys) in
  rounds_in_flight "case-7" (pool sys) = 1%nat
  /\ (in_flight (KDecrypt "case-7") (pool final)
      = S (in_flight (KDecrypt "case-7") (pool sys))
      /\ rounds_in_flight "case-7" (pool final)
         = S (rounds_in_flight "case-7" (pool sys))
      /\ ui final = ui sys).
Proof.
  split.
  - vm_compute. reflexivity.
  - exact (@decrypt_click_is_gated_by_busy_flag_only unit (scripted all_good)
             idle_hooks (case_of 7 alice_data)
             (fst (steps (scripted all_good)
                         [ClickDecrypt idle_hooks (case_of 7 alice_data);
                          Deliver 0; Deliver 0; Deliver 0; Deliver 0] tt initialSys))
             "0xA11CE" ReadOnly WithSigner alice_data "0xhandle" tt tt tt tt tt
             eq_refl eq_refl eq_refl eq_refl eq_refl eq_refl).
Defined.

(** Two decrypt requests for one key, the second while the first is
    pending: both reach the verifier, and two rounds for the key are in
    flight at once. *)
Lemma two_decrypts_two_rounds :
  let sys := fst two_decrypts in
  in_flight (KDecrypt "case-7") (pool sys) = 2%nat
  /\ rounds_in_flight "case-7" (pool sys) = 2%nat
  /\ List.length (filter is_verifier_call (journal sys)) = 2%nat.
Proof. vm_compute. repeat split. Qed.

(* ================================================================== *)
(** ** The derived view *)
(* ================================================================== *)

Section Substrings.

Lemma prefix_app (a b : string) : String.prefix a (a ++ b) = true.
Proof.
  induction a as [|c a IH]; [now destruct b|].
  cbn. destruct (ascii_dec c c) as [_|Hn]; [exact IH|now elim Hn].
Qed.

Lemma prefix_split (a s : string) :
  String.prefix a s = true -> exists post, s = a ++ post.
Proof.
  revert s; induction a as [|c a IH]; intros s H.
  - exists s. reflexivity.
  - destruct s as [|c' s]; [discriminate|]. cbn in H.
    destruct (ascii_dec c c') as [->|]; [|discriminate].
    destruct (IH s H) as [post ->]. exists post. reflexivity.
Qed.

(** [includes] finds exactly the substrings. *)
Lemma includes_split (s sub : string) :
  Js.includes s sub = true <-> exists pre post, s = pre ++ sub ++ post.
Proof.
  split.
  - induction s as [|c s IH]; cbn [Js.includes]; intros H.
    + rewrite orb_false_r in H. destruct (prefix_split _ _ H) as [post Hp].
      exists "", post. exact Hp.
    + apply orb_prop in H as [H|H].
      * destruct (prefix_split _ _ H) as [post Hp]. exists "", post. exact Hp.
      * destruct (IH H) as (pre & post & ->). exists (String c pre), post.
        reflexivity.
  - intros (pre & post & ->). induction pre as [|c pre IH].
    + cbn [append]. destruct (sub ++ post) eqn:E; cbn [Js.includes];
        rewrite <- E, prefix_app; reflexivity.
    + cbn [append Js.includes]. rewrite IH. apply orb_true_r.
Qed.

Lemma append_assoc (a b c : string) : (a ++ b) ++ c = a ++ b ++ c.
Proof. induction a as [|x a IH]; cbn; [reflexivity|now rewrite IH]. Qed.

(** A string that contains a term contains every part of the term. *)
Lemma includes_part (s a b : string) :
  Js.includes s (a ++ b) = true -> Js.includes s a = true.
Proof.
  rewrite !includes_split. intros (pre & post & ->).
  exists pre, (b ++ post). now rewrite append_assoc.
Qed.

Lemma includes_empty (s : string) : Js.includes s "" = true.
Proof. destruct s; reflexivity. Qed.

(** On ASCII text the mapping works letter by letter. *)
Lemma toLowerCase_app (a b : string) :
  ascii_text a = true -> ascii_text b = true ->
  toLowerCase (a ++ b) = toLowerCase a ++ toLowerCase b.
Proof.
  intros _ _. induction a as [|c a IH]; cbn; [reflexivity|now rewrite IH].
Qed.

Lemma lower_char_idem (c : ascii) : lower_char (lower_char c) = lower_char c.
Proof.
  unfold lower_char.
  destruct ((65 <=? nat_of_ascii c)%nat && (nat_of_ascii c <=? 90)%nat) eqn:H.
  - apply andb_prop in H as [H1 H2].
    apply Nat.leb_le in H1. apply Nat.leb_le in H2.
    rewrite nat_ascii_embedding by lia.
    destruct (Nat.leb_spec (nat_of_ascii c + 32) 90); [lia|].
    now rewrite andb_false_r.
  - now rewrite H.
Qed.

Lemma toLowerCase_idem (s : string) :
  ascii_text s = true -> toLowerCase (toLowerCase s) = toLowerCase s.
Proof.
  intros _. induction s as [|c s IH]; cbn; [reflexivity|].
  now rewrite lower_char_idem, IH.
Qed.

(** The mapping keeps ASCII text ASCII. *)
Lemma toLowerCase_ascii (s : string) :
  ascii_text s = true -> ascii_text (toLowerCase s) = true.
Proof.
  induction s as [|c s IH]; [reflexivity|]. cbn [ascii_text toLowerCase].
  intros H. apply andb_prop in H as [Hc Hs]. rewrite (IH Hs), andb_true_r.
  unfold lower_char.
  destruct ((65 <=? nat_of_ascii c)%nat && (nat_of_ascii c <=? 90)%nat) eqn:H;
    [|exact Hc].
  apply andb_prop in H as [H1 H2].
  apply Nat.leb_le in H1. apply Nat.leb_le in H2.
  rewrite nat_ascii_embedding by lia. apply Nat.ltb_lt. lia.
Qed.

End Substrings.

Section FilteredCases.

Local Open Scope nat_scope.

Lemma matchesFilter_all (c : DiseaseCase) : matchesFilter "all" c = true.
Proof. reflexivity. Qed.

Lemma matchesFilter_verified (c : DiseaseCase) :
  matchesFilter "verified" c = isVerified c.
Proof. unfold matchesFilter. cbn. now rewrite orb_false_r. Qed.

Lemma matchesFilter_unverified (c : DiseaseCase) :
  matchesFilter "unverified" c = negb (isVerified c).
Proof. unfold matchesFilter. cbn. reflexivity. Qed.

Lemma filter_split_length {A : Type} (f g : A -> bool) (l : list A) :
  List.length (filter (fun x => f x && g x) l)
  + List.length (filter (fun x => f x && negb (g x)) l)
  = List.length (filter f l).
Proof.
  induction l as [|x l IH]; [reflexivity|]. cbn [filter].
  destruct (f x), (g x); cbn [andb negb List.length]; lia.
Qed.

(** An empty search term leaves the verification filter alone. *)
Lemma filteredCases_empty (ft : string) (l : list DiseaseCase) :
  filteredCases "" ft l = filter (matchesFilter ft) l.
Proof.
  unfold filteredCases. apply filter_ext. intros c. unfold matchesSearch.
  cbn [toLowerCase]. now rewrite includes_empty.
Qed.

Lemma filter_true {A : Type} (f : A -> bool) (l : list A) :
  (forall x, f x = true) -> filter f l = l.
Proof.
  intros H. induction l as [|x l IH]; [reflexivity|].
  cbn [filter]. now rewrite H, IH.
Qed.

End FilteredCases.

(** X1. The verification filter splits what the search finds: under
    ["verified"] only verified cases are listed, under ["unverified"] only
    unverified ones, each case listed under ["all"] is listed under exactly
    one of the two, and a filter type that is none of the three lists
    nothing. *)
Theorem filter_type_splits_the_matches :
  forall (term ft : string) (l : list DiseaseCase),
    forallb isVerified (filteredCases term "verified" l) = true
    /\ forallb (fun c => negb (isVerified c)) (filteredCases term "unverified" l) = true
    /\ (List.length (filteredCases term "verified" l)
        + List.length (filteredCases term "unverified" l)
        = List.length (filteredCases term "all" l))%nat
    /\ (if String.eqb ft "all" || String.eqb ft "verified" || String.eqb ft "unverified"
        then True
        else filteredCases term ft l = []).
Proof.
  intros term ft l. unfold filteredCases.
  split; [|split; [|split]].
  - apply forallb_forall. intros c Hc. apply filter_In in Hc as [_ Hc].
    apply andb_prop in Hc as [_ Hc]. now rewrite matchesFilter_verified in Hc.
  - apply forallb_forall. intros c Hc. apply filter_In in Hc as [_ Hc].
    apply andb_prop in Hc as [_ Hc]. now rewrite matchesFilter_unverified in Hc.
  - rewrite (filter_ext _ (fun c => matchesSearch term c && isVerified c))
      by (intros c; now rewrite matchesFilter_verified).
    rewrite (filter_ext (fun c => _ && matchesFilter "unverified" c)
                        (fun c => matchesSearch term c && negb (isVerified c)))
      by (intros c; now rewrite matchesFilter_unverified).
    rewrite (filter_ext (fun c => _ && matchesFilter "all" c) (matchesSearch term))
      by (intros c; now rewrite matchesFilter_all, andb_true_r).
    apply filter_split_length.
  - unfold matchesFilter.
    destruct (String.eqb ft "all"), (String.eqb ft "verified"),
      (String.eqb ft "unverified"); cbn [orb andb]; try exact I.
    induction l as [|c l IH]; [reflexivity|]. cbn [filter].
    now rewrite andb_false_r.
Qed.

(** X2. An empty term matches every case, so that an empty term with
    ["all"] lists the snapshot unchanged.  On ASCII text, where
    [toLowerCase] maps [A]-[Z] to [a]-[z] and nothing else, the search
    ignores the case of the term, and the result for a term that was
    extended is the result for the shorter term filtered again: typing on
    never brings a case back. *)
Theorem search_is_case_blind_and_narrows :
  forall (term ext ft : string) (l : list DiseaseCase),
    filteredCases "" ft l = filter (matchesFilter ft) l
    /\ filteredCases "" "all" l = l
    /\ (ascii_text term = true -> ascii_text ext = true ->
        forallb ascii_case l = true ->
        filteredCases (toLowerCase term) ft l = filteredCases term ft l
        /\ filteredCases (term ++ ext) ft l
           = filteredCases (term ++ ext) ft (filteredCases term ft l)).
Proof.
  intros term ext ft l.
  split; [|split].
  - apply filteredCases_empty.
  - rewrite filteredCases_empty. apply filter_true. exact matchesFilter_all.
  - intros Hterm Hext _. unfold filteredCases. split.
    + apply filter_ext. intros c. unfold matchesSearch.
      now rewrite (toLowerCase_idem term Hterm).
    + induction l as [|c l IH]; [reflexivity|]. cbn [filter].
      destruct (matchesSearch (term ++ ext) c && matchesFilter ft c) eqn:Hlong.
      * assert (Hshort : matchesSearch term c && matchesFilter ft c = true).
        { apply andb_prop in Hlong as [Hs Hf]. rewrite Hf, andb_true_r.
          unfold matchesSearch in *.
          rewrite (toLowerCase_app term ext Hterm Hext) in Hs.
          apply orb_prop in Hs as [Hs|Hs]; apply includes_part in Hs;
            rewrite Hs; [reflexivity|apply orb_true_r]. }
        rewrite Hshort. cbn [filter]. rewrite Hlong. now rewrite <- IH.
      * destruct (matchesSearch term c && matchesFilter ft c); [|exact IH].
        cbn [filter]. rewrite Hlong. exact IH.
Qed.

Lemma search_is_case_blind_and_narrows_witness :
  filteredCases (toLowerCase "CYS") "all" three_ages
  = filteredCases "CYS" "all" three_ages
  /\ filteredCases ("CYS" ++ "tic") "all" three_ages
     = filteredCases ("CYS" ++ "tic") "all" (filteredCases "CYS" "all" three_ages).
Proof.
  apply (proj2 (proj2 (search_is_case_blind_and_narrows "CYS" "tic" "all" three_ages)));
    reflexivity.
Defined.

Example search_ignores_case :
  map name (filteredCases "CYS" "all" three_ages) = ["Ann"]
  /\ map name (filteredCases "cy" "unverified" three_ages) = ["Ann"; "Cy"]
  /\ map name (filteredCases "cyst" "unverified" three_ages) = ["Ann"].
Proof. repeat split. Qed.

Section Statistics.

Lemma filter_length_le {A : Type} (f : A -> bool) (l : list A) :
  (List.length (filter f l) <= List.length l)%nat.
Proof.
  induction l as [|x l IH]; [apply le_n|]. cbn [filter].
  destruct (f x); cbn [List.length]; lia.
Qed.

Lemma ageSum_from (l : list DiseaseCase) :
  forall acc : Z,
    fold_left (fun sum c => (sum + age c)%Z) l acc = (acc + ageSum l)%Z.
Proof.
  unfold ageSum. induction l as [|c l IH]; intros acc; cbn [fold_left].
  - lia.
  - rewrite (IH (acc + age c)%Z), (IH (0 + age c)%Z). lia.
Qed.

Lemma ageSum_cons (c : DiseaseCase) (l : list DiseaseCase) :
  ageSum (c :: l) = (age c + ageSum l)%Z.
Proof. unfold ageSum at 1. cbn [fold_left]. rewrite ageSum_from. lia. Qed.

(** The sum of ages that all lie in a range lies in the range times the
    number of cases. *)
Lemma ageSum_bounds (lo hi : Z) (l : list DiseaseCase) :
  (forall c, In c l -> (lo <= age c <= hi)%Z) ->
  (lo * Z.of_nat (List.length l) <= ageSum l <= hi * Z.of_nat (List.length l))%Z.
Proof.
  induction l as [|c l IH]; intros H.
  - cbn. lia.
  - rewrite ageSum_cons. cbn [List.length]. rewrite Nat2Z.inj_succ.
    assert (Hc := H c (or_introl eq_refl)).
    assert (Hl := IH (fun c' Hc' => H c' (or_intror Hc'))). nia.
Qed.

(** The test of [recent] in whole milliseconds. *)
Lemma is_recent_spec (now : Z) (c : DiseaseCase) :
  is_recent now c = (now <? 1000 * (timestamp c + 604800))%Z.
Proof.
  unfold is_recent.
  destruct (Z.ltb_spec now (1000 * (timestamp c + 604800))) as [Hlt|Hge].
  - apply negb_true_iff. apply not_true_is_false. intros Hq.
    apply Qle_bool_iff in Hq.
    assert (Hz : (inject_Z (1000 * (timestamp c + 604800)) <= inject_Z now)%Q).
    { rewrite inject_Z_mult, inject_Z_plus.
      change (inject_Z (60 * 60 * 24 * 7)) with (inject_Z 604800) in Hq.
      revert Hq. generalize (inject_Z now), (inject_Z (timestamp c)).
      intros x y Hq. change (inject_Z 1000) with 1000%Q in *.
      change (inject_Z 604800) with 604800%Q in *.
      unfold Qdiv in Hq. change (/ 1000)%Q with (1 # 1000)%Q in Hq. lra. }
    rewrite <- Zle_Qle in Hz. lia.
  - apply negb_false_iff. apply Qle_bool_iff.
    rewrite Zle_Qle, inject_Z_mult, inject_Z_plus in Hge.
    change (inject_Z (60 * 60 * 24 * 7)) with (inject_Z 604800).
    revert Hge. generalize (inject_Z now), (inject_Z (timestamp c)).
    intros x y Hge. change (inject_Z 1000) with 1000%Q in *.
    change (inject_Z 604800) with 604800%Q in *.
    unfold Qdiv. change (/ 1000)%Q with (1 # 1000)%Q. lra.
Qed.

End Statistics.

(** X3. The counters of the statistics agree with the list: [total] is the
    number of cases listed under ["all"] with an empty search, [verified] the
    number listed under ["verified"], and neither [verified] nor [recent]
    exceeds [total]; with no case the average age is 0. *)
Theorem stats_agree_with_the_list :
  forall (now : Z) (l : list DiseaseCase),
    total (stats now l) = List.length (filteredCases "" "all" l)
    /\ verified (stats now l) = List.length (filteredCases "" "verified" l)
    /\ (verified (stats now l) <= total (stats now l))%nat
    /\ (recent (stats now l) <= total (stats now l))%nat
    /\ avgAge (stats now []) = 0%Q.
Proof.
  intros now l. cbn [stats total verified recent avgAge].
  rewrite !filteredCases_empty.
  rewrite (filter_true _ l matchesFilter_all).
  rewrite (filter_ext _ _ matchesFilter_verified).
  split; [reflexivity|]. split; [reflexivity|].
  split; [apply filter_length_le|]. split; [apply filter_length_le|reflexivity].
Qed.

(** X4. With at least one case, the average age lies between any two bounds
    that hold for every age, and as the clock advances the number of recent
    cases never grows; a case counts as recent while less than 604800
    seconds have passed since its timestamp, so also when its timestamp lies
    ahead of the clock. *)
Theorem average_is_bounded_and_recent_fades :
  forall (now now' lo hi : Z) (l : list DiseaseCase),
    l <> [] ->
    (forall c, In c l -> (lo <= age c <= hi)%Z) ->
    (now <= now')%Z ->
    (inject_Z lo <= avgAge (stats now l) <= inject_Z hi)%Q
    /\ (recent (stats now' l) <= recent (stats now l))%nat
    /\ filter (is_recent now) l
       = filter (fun c => (now <? 1000 * (timestamp c + 604800))%Z) l.
Proof.
  intros now now' lo hi l Hne Hages Hnow.
  split; [|split].
  - cbn [stats avgAge].
    destruct l as [|c0 l0]; [contradiction|].
    set (l := c0 :: l0) in *.
    assert (Hlen : (0 < Z.of_nat (List.length l))%Z) by (cbn; lia).
    replace (0 <? List.length l)%nat with true
      by (symmetry; apply Nat.ltb_lt; cbn; lia).
    destruct (@ageSum_bounds lo hi l Hages) as [Hlo Hhi].
    assert (Hq : (0 < inject_Z (Z.of_nat (List.length l)))%Q).
    { rewrite <- (Zlt_Qlt 0). exact Hlen. }
    split.
    + apply Qle_shift_div_l; [exact Hq|].
      rewrite <- inject_Z_mult, <- Zle_Qle. exact Hlo.
    + apply Qle_shift_div_r; [exact Hq|].
      rewrite <- inject_Z_mult, <- Zle_Qle. exact Hhi.
  - cbn [stats recent].
    rewrite (filter_ext _ _ (is_recent_spec now)),
            (filter_ext _ _ (is_recent_spec now')).
    induction l as [|c l IH]; [apply le_n|]. cbn [filter].
    assert (Hl : l <> [] -> (List.length (filter (fun c => (now' <? 1000 * (timestamp c + 604800))%Z) l)
                 <= List.length (filter (fun c => (now <? 1000 * (timestamp c + 604800))%Z) l))%nat).
    { intros Hl. apply IH; [exact Hl|]. intros c' Hc'. apply Hages. now right. }
    assert (Hl' : (List.length (filter (fun c => (now' <? 1000 * (timestamp c + 604800))%Z) l)
                 <= List.length (filter (fun c => (now <? 1000 * (timestamp c + 604800))%Z) l))%nat).
    { destruct l as [|c1 l1]; [apply le_n|]. apply Hl. discriminate. }
    destruct (Z.ltb_spec now' (1000 * (timestamp c + 604800)));
      destruct (Z.ltb_spec now (1000 * (timestamp c + 604800)));
      cbn [List.length]; lia.
  - apply filter_ext. apply is_recent_spec.
Qed.

Lemma average_is_bounded_and_recent_fades_witness :
  (inject_Z 10 <= avgAge (stats 1700950000000 three_ages) <= inject_Z 30)%Q
  /\ (recent (stats 1701200000000 three_ages)
      <= recent (stats 1700950000000 three_ages))%nat
  /\ filter (is_recent 1700950000000) three_ages
     = filter (fun c => (1700950000000 <? 1000 * (timestamp c + 604800))%Z) three_ages.
Proof.
  apply (@average_is_bounded_and_recent_fades 1700950000000 1701200000000 10 30
           three_ages).
  - discriminate.
  - intros c Hc. cbn in Hc.
    destruct Hc as [<-|[<-|[<-|[]]]]; cbn; lia.
  - lia.
Defined.

(** Ages 10, 20 and 30 average to 20; two of the three cases are recent at
    the first clock, one at the second. *)
Example stats_three_ages :
  Qeq_bool (avgAge (stats 1700950000000 three_ages)) 20 = true
  /\ recent (stats 1700950000000 three_ages) = 2%nat
  /\ recent (stats 1701200000000 three_ages) = 1%nat
  /\ verified (stats 0 three_ages) = 1%nat.
Proof. vm_compute. repeat split. Qed.

(* ================================================================== *)
(** ** Record keys and case identifiers *)
(* ================================================================== *)

Section Decimal.

Import Decimal.

(** Reading the digits after a positive accumulator is what
    [Pos.of_uint_acc] computes. *)
Lemma digits_prefix_acc (d : uint) :
  forall p : positive,
    Js.digits_prefix 10 (NilEmpty.string_of_uint d) (Some (Z.pos p))
    = Some (Z.pos (Pos.of_uint_acc d p)).
Proof.
  induction d; intros p; cbn [NilEmpty.string_of_uint Js.digits_prefix Pos.of_uint_acc];
    try reflexivity;
    match goal with
    | |- context [Js.digit_value 10 ?c] =>
        let v := eval vm_compute in (Js.digit_value 10 c) in
        change (Js.digit_value 10 c) with v
    end; cbn iota; rewrite <- IHd; do 2 f_equal; lia.
Qed.

(** Reading digits from scratch, or after leading zeros. *)
Lemma digits_prefix_zero (d : uint) :
  Js.digits_prefix 10 (NilEmpty.string_of_uint d) (Some 0)
  = Some (Z.of_N (Pos.of_uint d)).
Proof.
  induction d; cbn [NilEmpty.string_of_uint Js.digits_prefix Pos.of_uint];
    try reflexivity;
    match goal with
    | |- context [Js.digit_value 10 ?c] =>
        let v := eval vm_compute in (Js.digit_value 10 c) in
        change (Js.digit_value 10 c) with v
    end; cbn iota; cbn [Z.mul Z.add];
    first [ exact IHd | apply digits_prefix_acc ].
Qed.

Lemma digits_prefix_none (d : uint) :
  d <> Nil ->
  Js.digits_prefix 10 (NilEmpty.string_of_uint d) None
  = Some (Z.of_N (Pos.of_uint d)).
Proof.
  destruct d; intros Hd; [contradiction|..];
    cbn [NilEmpty.string_of_uint Js.digits_prefix Pos.of_uint];
    match goal with
    | |- context [Js.digit_value 10 ?c] =>
        let v := eval vm_compute in (Js.digit_value 10 c) in
        change (Js.digit_value 10 c) with v
    end; cbn iota;
    first [ apply digits_prefix_zero | apply digits_prefix_acc ].
Qed.

(** A printed number has no [0x] prefix. *)
Lemma parse_unsigned_printed (d : uint) :
  Js.parse_unsigned (NilEmpty.string_of_uint d)
  = Js.digits_prefix 10 (NilEmpty.string_of_uint d) None.
Proof. destruct d as [|d|d|d|d|d|d|d|d|d|d]; try reflexivity; destruct d; reflexivity. Qed.

Lemma to_uint_not_nil (p : positive) : Pos.to_uint p <> Nil.
Proof.
  intros H. pose proof (Unsigned.of_to p) as Hp. rewrite H in Hp. discriminate.
Qed.

Lemma parseInt_printed_pos (p : positive) :
  Js.parseInt (NilEmpty.string_of_uint (Pos.to_uint p)) = Js.Num (Z.pos p).
Proof.
  pose proof (to_uint_not_nil p) as Hnil.
  pose proof (parse_unsigned_printed (Pos.to_uint p)) as Hpu.
  rewrite (digits_prefix_none Hnil), Unsigned.of_to in Hpu. cbn [Z.of_N] in Hpu.
  unfold Js.parseInt.
  destruct (Pos.to_uint p) as [|d|d|d|d|d|d|d|d|d|d]; [contradiction|..];
    cbn [NilEmpty.string_of_uint Js.skip_space] in *;
    match goal with
    | |- context [Js.is_space ?c] =>
        change (Js.is_space c) with false
    end; cbn iota;
    match goal with
    | |- context [Ascii.eqb ?c "-"] =>
        change (Ascii.eqb c "-") with false;
        change (Ascii.eqb c "+") with false
    end; cbn iota; rewrite Hpu; reflexivity.
Qed.

(** [parseInt] reads back what a template literal prints. *)
Lemma parseInt_of_Z (z : Z) : Js.parseInt (Js.of_Z z) = Js.Num z.
Proof.
  unfold Js.of_Z, NilZero.string_of_int, Z.to_int.
  destruct z as [|p|p].
  - reflexivity.
  - unfold NilZero.string_of_uint.
    pose proof (to_uint_not_nil p) as Hnil.
    pose proof (parseInt_printed_pos p) as H.
    destruct (Pos.to_uint p); [contradiction|exact H..].
  - unfold NilZero.string_of_uint.
    pose proof (to_uint_not_nil p) as Hnil.
    pose proof (parse_unsigned_printed (Pos.to_uint p)) as Hpu.
    rewrite (digits_prefix_none Hnil), Unsigned.of_to in Hpu. cbn [Z.of_N] in Hpu.
    unfold Js.parseInt. cbn [Js.skip_space].
    change (Js.is_space "-") with false. cbn iota.
    change (Ascii.eqb "-" "-") with true. cbn iota.
    destruct (Pos.to_uint p); [contradiction|..]; rewrite Hpu; reflexivity.
Qed.

End Decimal.

Lemma substring_whole (s : string) : substring 0 (String.length s) s = s.
Proof. induction s as [|c s IH]; cbn; [reflexivity|now rewrite IH]. Qed.

(** Removing the prefix of a key leaves what follows it. *)
Lemma replace_case_prefix (s : string) : Js.replace ("case-" ++ s) "case-" "" = s.
Proof.
  destruct s as [|c s]; [reflexivity|].
  cbn -[substring String.length]. cbn [String.length Nat.sub append].
  cbn [substring]. now rewrite substring_whole.
Qed.

Lemma trace_and_then {W A B : Type} (r : Result A W)
      (f : A -> W -> St -> Result B W) :
  exists rest, trace (and_then r f) = (trace r ++ rest)%list.
Proof.
  unfold and_then. destruct (outcome r); cbn [emit trace].
  - eexists; reflexivity.
  - exists []. now rewrite app_nil_r.
Qed.

Lemma trace_or_catch {W A : Type} (r : Result A W)
      (h : Js.thrown -> W -> St -> Result A W) :
  exists rest, trace (or_catch r h) = (trace r ++ rest)%list.
Proof.
  unfold or_catch. destruct (outcome r); cbn [emit trace].
  - exists []. now rewrite app_nil_r.
  - eexists; reflexivity.
Qed.

Lemma id_of_minted (n t : Z) : n <> 0 -> id_of ("case-" ++ Js.of_Z n) t = n.
Proof.
  intros Hn. unfold id_of. rewrite replace_case_prefix, parseInt_of_Z.
  unfold Js.or_else. destruct (Z.eqb_spec n 0); [contradiction|reflexivity].
Qed.

(** X5. A key of the form [case-<n>], [n] not 0, as [createCase] mints it
    from the clock, is read back by the reload as the case identifier [n],
    whatever the clock of the reload; two such keys give different
    identifiers; and [handleDecrypt] on the reloaded case, when it is not
    verified, reads from the ledger the very key the case was listed
    under. *)
Theorem minted_key_round_trip :
  forall (W : Type) (E : World W) (cx : Closure) (a : string) (c : Contract)
         (w w1 : W) (s : St) (n m t t' : Z) (d : BusinessData),
    n <> 0 ->
    m <> 0 ->
    connected_address cx = Some a ->
    bd_isVerified d = false ->
    answer E GetContractReadOnly w = (Resolved (Some c), w1) ->
    let key := "case-" ++ Js.of_Z n in
    let item := case_of (id_of key t) d in
    id item = n
    /\ "case-" ++ Js.of_Z (id item) = key
    /\ (id_of ("case-" ++ Js.of_Z m) t' = id item -> m = n)
    /\ exists rest,
        trace (run E (handleDecrypt cx item) w s)
        = (EvCall GetContractReadOnly :: EvCall (GetBusinessData key) :: rest)%list.
Proof.
  intros W E cx a c w w1 s n m t t' d Hn Hm Ha Hd Hro key item.
  assert (Hid : id item = n) by (apply id_of_minted; exact Hn).
  split; [exact Hid|]. split; [now rewrite Hid|].
  split; [rewrite Hid, (id_of_minted t' Hm); auto|].
  unfold handleDecrypt. cbn [item case_of isVerified]. rewrite Hd.
  change (id (case_of (id_of key t) d)) with (id item). rewrite Hid. fold key.
  rewrite run_bind. unfold decryptData. rewrite Ha, run_try_catch.
  assert (Htry : exists r1, trace (run E (decryptData_try cx key) w s)
                            = EvCall GetContractReadOnly
                                :: EvCall (GetBusinessData key) :: r1).
  { unfold decryptData_try. exec. rewrite Hro. exec.
    destruct (answer E (GetBusinessData key) w1) as [x w2].
    cbn [emit trace app]. eexists; reflexivity. }
  destruct Htry as [r1 Htry].
  destruct (trace_and_then
              (or_catch (run E (decryptData_try cx key) w s)
                        (fun e => run E (decryptData_catch cx e)))
              (fun a0 => run E (match a0 with
                                | Some v => do_ (SetLocalDecrypted v)
                                | None => Ret tt
                                end))) as [r3 H3].
  destruct (trace_or_catch (run E (decryptData_try cx key) w s)
                           (fun e => run E (decryptData_catch cx e))) as [r2 H2].
  rewrite H3, H2, Htry. cbn [app]. eexists; reflexivity.
Qed.

Lemma minted_key_round_trip_witness :
  let key := "case-" ++ Js.of_Z 1700000000000 in
  let item := case_of (id_of key 1700000360000) alice_data in
  id item = 1700000000000
  /\ "case-" ++ Js.of_Z (id item) = key
  /\ (id_of ("case-" ++ Js.of_Z 7) 5 = id item -> 7 = 1700000000000)
  /\ exists rest,
      trace (run (scripted all_good) (handleDecrypt (connected emptyForm) item)
                 tt initialSt)
      = (EvCall GetContractReadOnly :: EvCall (GetBusinessData key) :: rest)%list.
Proof.
  apply (@minted_key_round_trip unit (scripted all_good) (connected emptyForm)
           "0xA11CE" ReadOnly tt tt initialSt 1700000000000 7
           1700000360000 5 alice_data).
  - discriminate.
  - discriminate.
  - reflexivity.
  - reflexivity.
  - reflexivity.
Defined.

(** A key that is not of that form is listed under the clock of the reload,
    and decrypting the listed case reads another key. *)
Example foreign_key_is_not_read_back :
  let item := case_of (id_of "patient-12" 1700000360000) alice_data in
  id item = 1700000360000
  /\ "case-" ++ Js.of_Z (id item) = "case-1700000360000"
  /\ id (case_of (id_of "case-007" 5) alice_data) = 7.
Proof. vm_compute. repeat split. Qed.

(* ================================================================== *)
(** ** What the operations may emit *)
(* ================================================================== *)

Section WithinCombinators.

Variable P : Ev -> bool.

Lemma Within_bind {A B : Type} (p : Prog A) (f : A -> Prog B) :
  Within P p -> (forall a, Within P (f a)) -> Within P (bind p f).
Proof.
  intros Hp Hf. induction Hp; cbn [bind]; auto; constructor; auto.
Qed.

Lemma Within_try_catch {A : Type} (p : Prog A) (h : Js.thrown -> Prog A) :
  Within P p -> (forall e, Within P (h e)) -> Within P (try_catch p h).
Proof.
  intros Hp Hh. induction Hp; cbn [try_catch]; auto; constructor; auto.
Qed.

Lemma Within_finally {A : Type} (p : Prog A) (f : Prog unit) :
  Within P p -> Within P f -> Within P (finally p f).
Proof.
  intros Hp Hf. induction Hp; cbn [finally].
  - apply Within_bind; [assumption|intros; constructor].
  - apply Within_bind; [assumption|intros; constructor].
  - constructor; auto.
  - constructor; auto.
  - constructor; auto.
Qed.

Lemma Within_await_call {X : Type} (c : Call X) :
  P (EvCall c) = true -> Within P (await c).
Proof. intros H. constructor; [exact H|]. intros [x|e]; constructor. Qed.

Lemma Within_do_ (o : Op) : P (EvOp o) = true -> Within P (do_ o).
Proof. intros H. constructor; [exact H|constructor]. Qed.

Lemma Within_Date_now : Within P Date_now.
Proof. constructor. intros; constructor. Qed.

Lemma Within_await_inv {A X : Type} (c : Call X) (k : Resp X -> Prog A) :
  Within P (Await c k) -> forall r, Within P (k r).
Proof.
  intros H.
  change (match Await c k with
          | Await c' k' => forall r, Within P (k' r)
          | _ => True
          end).
  destruct H; auto.
Qed.

(** Every event of a run passes the test, whatever the world answers. *)
Lemma run_Within {W : Type} (E : World W) {A : Type} (p : Prog A) :
  Within P p -> forall w s, forallb P (trace (run E p w s)) = true.
Proof.
  induction 1 as [a|e|o k Ho Hk IH|k Hk IH|X c k Hc Hk IH]; intros w s;
    cbn [run].
  - reflexivity.
  - reflexivity.
  - cbn [emit trace app forallb]. now rewrite Ho, IH.
  - apply IH.
  - destruct (answer E c w) as [x w']. cbn [emit trace app forallb].
    now rewrite Hc, IH.
Qed.

(** The same up to the next suspension point, and for what remains. *)
Lemma settle_Within {A : Type} (p : Prog A) (t : Z) :
  Within P p ->
  forall s,
    forallb P (snd (fst (settle p t s))) = true
    /\ Within P (snd (settle p t s))
    /\ fst (fst (settle p t s)) = replay (snd (fst (settle p t s))) s.
Proof.
  induction 1 as [a|e|o k Ho Hk IH|k Hk IH|X c k Hc Hk IH]; intros s;
    cbn [settle].
  - repeat split. constructor.
  - repeat split. constructor.
  - specialize (IH (apply_op o s)).
    destruct (settle k t (apply_op o s)) as [[s' tr] p']. cbn [fst snd] in *.
    cbn [forallb]. rewrite Ho. exact IH.
  - apply IH.
  - cbn [fst snd forallb]. rewrite Hc. repeat split. now constructor.
Qed.

End WithinCombinators.

Lemma Within_weaken (P Q : Ev -> bool) {A : Type} (p : Prog A) :
  (forall e, P e = true -> Q e = true) -> Within P p -> Within Q p.
Proof. intros HPQ Hp. induction Hp; constructor; auto. Qed.

Ltac within := repeat (intros; first
  [ apply Within_bind | apply Within_try_catch | apply Within_finally
  | apply Within_Date_now
  | apply Within_ret | apply Within_throw
  | apply Within_await_call;
    cbn; rewrite ?String.eqb_refl, ?Z.eqb_refl; reflexivity
  | apply Within_do_;
    cbn; rewrite ?String.eqb_refl, ?Z.eqb_refl; reflexivity
  | match goal with
    | |- Within _ (match ?x with _ => _ end) => destruct x
    end ]).

Section WithinPrograms.

Lemma is_emptyForm_spec (f : CaseForm) : is_emptyForm f = true <-> f = emptyForm.
Proof.
  unfold is_emptyForm. split.
  - intros H. apply andb_prop in H as [H H4]. apply andb_prop in H as [H H3].
    apply andb_prop in H as [H1 H2].
    apply String.eqb_eq in H1, H2, H3, H4. destruct f. cbn in *. now subst.
  - intros ->. reflexivity.
Qed.

Lemma Within_case_id (P : Ev -> bool) (i : string) : Within P (case_id i).
Proof. unfold case_id. within. Qed.

Lemma Within_message_of (P : Ev -> bool) (e : Js.thrown) : Within P (message_of e).
Proof. unfold message_of. within. Qed.

Lemma reload_event_load_cases (ids : list string) :
  forall acc, Within reload_event (load_cases ids acc).
Proof.
  induction ids as [|i rest IH]; intros acc; cbn [load_cases]; within.
  - apply Within_case_id.
  - apply IH.
Qed.

Lemma reload_event_loadData (cx : Closure) : Within reload_event (loadData cx).
Proof. unfold loadData. within. apply reload_event_load_cases. Qed.

Lemma probe_event_testAvailability (cx : Closure) :
  Within probe_event (testAvailability cx).
Proof. unfold testAvailability. within. Qed.

(** A reload fits into whatever allows its events. *)
Lemma Within_loadData (P : Ev -> bool) (cx : Closure) :
  (forall e, reload_event e = true -> P e = true) -> Within P (loadData cx).
Proof.
  intros H. apply Within_weaken with (P := reload_event); [exact H|].
  apply reload_event_loadData.
Qed.

Lemma reload_is_decrypt_event (cx : Closure) (key : string) (e : Ev) :
  reload_event e = true -> decrypt_event cx key e = true.
Proof.
  destruct e as [o|X c]; [destruct o|destruct c]; cbn; intros H;
    try reflexivity; try discriminate.
Qed.

Lemma reload_is_create_event (cx : Closure) (e : Ev) :
  reload_event e = true -> create_event cx e = true.
Proof.
  destruct e as [o|X c]; [destruct o|destruct c]; cbn; intros H;
    try reflexivity; try discriminate.
Qed.

Lemma reload_is_validated (e : Ev) : reload_event e = true -> validated e = true.
Proof.
  destruct e as [o|X c]; [destruct o|destruct c]; cbn; intros H;
    try reflexivity; try discriminate.
Qed.

Lemma reload_keeps_form (e : Ev) : reload_event e = true -> keeps_form e = true.
Proof.
  destruct e as [o|X c]; [destruct o|destruct c]; cbn; intros H;
    try reflexivity; try discriminate.
Qed.

Lemma probe_keeps_form (e : Ev) : probe_event e = true -> keeps_form e = true.
Proof.
  destruct e as [o|X c]; [destruct o|destruct c]; cbn; intros H;
    try reflexivity; try discriminate.
Qed.

Lemma probe_is_validated (e : Ev) : probe_event e = true -> validated e = true.
Proof.
  destruct e as [o|X c]; [destruct o|destruct c]; cbn; intros H;
    try reflexivity; try discriminate.
Qed.

Lemma decrypt_keeps_form (cx : Closure) (key : string) (e : Ev) :
  decrypt_event cx key e = true -> keeps_form e = true.
Proof. destruct e as [o|X c]; cbn; intros H; [exact H|reflexivity]. Qed.

Lemma decrypt_event_decryptData (cx : Closure) (key : string) :
  Within (decrypt_event cx key) (decryptData cx key).
Proof.
  unfold decryptData, decryptData_try, decryptData_catch.
  within; try apply Within_message_of;
    apply Within_loadData; apply reload_is_decrypt_event.
Qed.

Lemma create_event_createCase (cx : Closure) :
  Within (create_event cx) (createCase cx).
Proof.
  unfold createCase, createCase_try, createCase_catch, ageValue.
  within; try apply Within_message_of;
    apply Within_loadData; apply reload_is_create_event.
Qed.

End WithinPrograms.

(* ================================================================== *)
(** ** The operations, path by path *)
(* ================================================================== *)

Section OpsLemmas.

Variable W : Type.
Variable E : World W.

Local Open Scope list_scope.

Lemma state_and_finally_do {A : Type} (r : Result A W) (o : Op) :
  state (and_finally E r (do_ o)) = apply_op o (state r)
  /\ outcome (and_finally E r (do_ o)) = outcome r
  /\ world (and_finally E r (do_ o)) = world r
  /\ trace (and_finally E r (do_ o)) = trace r ++ [EvOp o].
Proof. unfold and_finally. cbn. repeat split. Qed.

Lemma replay_keeps_form (tr : list Ev) :
  forallb keeps_form tr = true ->
  forall s, form_part (replay tr s) = form_part s.
Proof.
  unfold replay.
  induction tr as [|e tr IH]; intros H s; [reflexivity|].
  cbn [forallb] in H. apply andb_prop in H as [He Htr].
  cbn [fold_left]. rewrite (IH Htr).
  destruct e as [o|X c]; [|reflexivity].
  destruct o; cbn in He; try discriminate; reflexivity.
Qed.

Lemma replay_probe (tr : list Ev) :
  forallb probe_event tr = true ->
  forall s, cases (replay tr s) = cases s
            /\ isRefreshing (replay tr s) = isRefreshing s.
Proof.
  unfold replay.
  induction tr as [|e tr IH]; intros H s; [split; reflexivity|].
  cbn [forallb] in H. apply andb_prop in H as [He Htr].
  cbn [fold_left]. destruct (IH Htr (match e with
                                      | EvOp o => apply_op o s
                                      | EvCall _ => s
                                      end)) as [H1 H2].
  rewrite H1, H2.
  destruct e as [o|X c]; [|split; reflexivity].
  destruct o; cbn in He; try discriminate; split; reflexivity.
Qed.

Lemma forallb_weaken {A : Type} (f g : A -> bool) (l : list A) :
  (forall a, f a = true -> g a = true) ->
  forallb f l = true -> forallb g l = true.
Proof.
  intros Hfg. induction l as [|a l IH]; [reflexivity|].
  cbn [forallb]. intros H. apply andb_prop in H as [Ha Hl].
  now rewrite (Hfg _ Ha), (IH Hl).
Qed.

Lemma existsb_call_emit {A : Type} (evs : list Ev) (r : Result A W) :
  existsb is_call (trace (emit evs r))
  = existsb is_call evs || existsb is_call (trace r).
Proof. unfold emit; cbn [trace]. apply existsb_app. Qed.

End OpsLemmas.

(** X6. [createCase] and [decryptData] contact a collaborator exactly when
    the wallet is connected and has an address that is not empty;
    otherwise they show the connect banner with its 3000 ms timer, ask
    nothing and change nothing else.  [loadData] and [testAvailability]
    look at the connection alone: disconnected they do nothing at all, and
    connected they do call, also for a wallet without an address. *)
Theorem wallet_guard_decides_the_first_call :
  forall (W : Type) (E : World W) (cx : Closure) (key : string) (w : W) (s : St),
    let connect_first :=
      [EvOp (SetTransactionStatus (mkStatus true error "Please connect wallet first"));
       EvOp (SetTimeoutHide 3000)] in
    match connected_address cx with
    | Some _ =>
        existsb is_call (trace (run E (createCase cx) w s)) = true
        /\ existsb is_call (trace (run E (decryptData cx key) w s)) = true
    | None =>
        run E (createCase cx) w s
        = mkResult (Returned tt) w (replay connect_first s) connect_first
        /\ run E (decryptData cx key) w s
           = mkResult (Returned None) w (replay connect_first s) connect_first
    end
    /\ (if isConnected cx
        then existsb is_call (trace (run E (loadData cx) w s)) = true
             /\ existsb is_call (trace (run E (testAvailability cx) w s)) = true
        else run E (loadData cx) w s = mkResult (Returned tt) w s []
             /\ run E (testAvailability cx) w s = mkResult (Returned tt) w s []).
Proof.
  intros W E cx key w s. cbv zeta. split.
  - unfold createCase, decryptData.
    destruct (connected_address cx) as [a|]; [|split; reflexivity].
    split.
    + cbn [bind do_ banner run]. rewrite run_finally, run_try_catch.
      unfold createCase_try. rewrite run_bind. cbn [run await].
      destruct (answer E GetContractWithSigner w) as [x w1].
      rewrite and_then_emit, or_catch_emit, and_finally_emit.
      rewrite !existsb_call_emit. cbn. now rewrite ?orb_true_r.
    + rewrite run_try_catch. unfold decryptData_try. rewrite run_bind.
      cbn [run await].
      destruct (answer E GetContractReadOnly w) as [x w1].
      rewrite and_then_emit, or_catch_emit.
      rewrite !existsb_call_emit. reflexivity.
  - unfold loadData, testAvailability.
    destruct (isConnected cx); cbn [negb]; [|split; reflexivity].
    split.
    + cbn [bind do_ run]. rewrite run_finally, run_try_catch, run_bind.
      cbn [run await].
      destruct (answer E GetContractReadOnly w) as [x w1].
      rewrite and_then_emit, or_catch_emit, and_finally_emit.
      rewrite !existsb_call_emit. cbn. now rewrite ?orb_true_r.
    + rewrite run_finally, run_try_catch, run_bind. cbn [run await].
      destruct (answer E GetContractReadOnly w) as [x w1].
      rewrite and_then_emit, or_catch_emit, and_finally_emit.
      rewrite !existsb_call_emit. reflexivity.
Qed.

Example wallet_without_address_reloads_but_cannot_create :
  let cx := mkClosure true None "0xC0FFEE" alice_form in
  existsb is_call (trace (run (scripted all_good) (loadData cx) tt initialSt)) = true
  /\ existsb is_call (trace (run (scripted all_good) (createCase cx) tt initialSt)) = false.
Proof. split; reflexivity. Qed.

Section Completion.

Variable W : Type.
Variable E : World W.

Local Open Scope list_scope.

Lemma testAvailability_returns (cx : Closure) (w : W) (s : St) :
  outcome (run E (testAvailability cx) w s) = Returned tt.
Proof.
  rewrite run_testAvailability.
  destruct (negb (isConnected cx)); [reflexivity|]. cbv zeta.
  destruct (answer E GetContractReadOnly w) as [[[c|]|e] w1]; try reflexivity.
  destruct (answer E IsAvailable w1) as [[[|]|e] w2]; reflexivity.
Qed.

Lemma createCase_catch_outcome (e : Js.thrown) (w : W) (s : St) :
  outcome (run E (createCase_catch e) w s)
  = match e with
    | Js.Nullish => Thrown Js.TypeError_message
    | Js.Obj _ => Returned tt
    end.
Proof. destruct e; reflexivity. Qed.

End Completion.

(** X7. The busy flags are released on every completion: whatever the
    collaborators answer, [creatingCase] is false after a run of
    [createCase] that passed the wallet guard, also when the run ends by a
    throw, which happens only for a [TypeError] raised in its [catch] block;
    [isRefreshing] is false after a run of [loadData] with a connected
    wallet.  [loadData] and [testAvailability] never throw. *)
Theorem busy_flags_are_released :
  forall (W : Type) (E : World W) (cx : Closure) (w : W) (s : St),
    let rc := run E (createCase cx) w s in
    let rl := run E (loadData cx) w s in
    creatingCase (state rc)
    = match connected_address cx with
      | Some _ => false
      | None => creatingCase s
      end
    /\ (outcome rc = Returned tt \/ outcome rc = Thrown Js.TypeError_message)
    /\ isRefreshing (state rl) = (if isConnected cx then false else isRefreshing s)
    /\ outcome rl = Returned tt
    /\ outcome (run E (testAvailability cx) w s) = Returned tt.
Proof.
  intros W E cx w s. cbv zeta.
  split; [|split; [|split; [|split]]].
  - unfold createCase. destruct (connected_address cx) as [a|]; [|reflexivity].
    cbn [bind do_ banner run emit state]. rewrite run_finally.
    now rewrite (proj1 (state_and_finally_do E _ _)).
  - unfold createCase. destruct (connected_address cx) as [a|]; [|now left].
    cbn [bind do_ banner run emit outcome]. rewrite run_finally.
    destruct (state_and_finally_do E
                (run E (try_catch (createCase_try cx a) createCase_catch) w
                     (apply_op (SetTransactionStatus
                                  (mkStatus true pending
                                            "Encrypting patient data with FHE..."))
                               (apply_op (SetCreatingCase true) s)))
                (SetCreatingCase false)) as (_ & -> & _).
    rewrite run_try_catch. unfold or_catch.
    destruct (run E (createCase_try cx a) w _) as [[[]|e] w1 s1 tr1];
      cbn [outcome world state trace emit]; [now left|].
    rewrite createCase_catch_outcome. destruct e; [now right|now left].
  - unfold loadData. destruct (isConnected cx); cbn [negb]; [|reflexivity].
    cbn [bind do_ run emit state]. rewrite run_finally.
    now rewrite (proj1 (state_and_finally_do E _ _)).
  - apply loadData_returns.
  - apply testAvailability_returns.
Qed.

(** X8. [loadData] and [testAvailability] only read from the ledger:
    whatever the collaborators answer, a reload emits nothing but its three
    reads, the snapshot, its busy flag, its log entry, its error banner and
    the console, and a probe nothing but its two reads, a banner, its timer
    and its log entry.  Neither of them, nor [decryptData], touches the
    form, the create modal, the flag of a pending creation or the value
    shown in the detail modal; a probe leaves the case list and the refresh
    flag as they are too. *)
Theorem reload_and_probe_only_read :
  forall (W : Type) (E : World W) (cx : Closure) (key : string) (w : W) (s : St),
    let rl := run E (loadData cx) w s in
    let rp := run E (testAvailability cx) w s in
    let rd := run E (decryptData cx key) w s in
    forallb reload_event (trace rl) = true
    /\ forallb probe_event (trace rp) = true
    /\ filter is_write (trace rl ++ trace rp) = []
    /\ form_part (state rl) = form_part s
    /\ form_part (state rp) = form_part s
    /\ form_part (state rd) = form_part s
    /\ cases (state rp) = cases s
    /\ isRefreshing (state rp) = isRefreshing s.
Proof.
  intros W E cx key w s. cbv zeta.
  pose proof (run_Within E (reload_event_loadData cx) w s) as Hl.
  pose proof (run_Within E (probe_event_testAvailability cx) w s) as Hp.
  pose proof (run_Within E (decrypt_event_decryptData cx key) w s) as Hd.
  split; [exact Hl|]. split; [exact Hp|].
  split.
  { rewrite filter_app.
    assert (Hno : forall (P : Ev -> bool) tr,
               (forall e, P e = true -> is_write e = false) ->
               forallb P tr = true -> filter is_write tr = []).
    { intros P tr HP. induction tr as [|e tr IH]; [reflexivity|].
      cbn [forallb filter]. intros H. apply andb_prop in H as [He Htr].
      now rewrite (HP _ He), (IH Htr). }
    rewrite (Hno reload_event), (Hno probe_event); auto.
    - intros [o|X c]; [reflexivity|]. destruct c; cbn; congruence.
    - intros [o|X c]; [reflexivity|]. destruct c; cbn; congruence. }
  rewrite !run_state.
  split; [apply replay_keeps_form;
          exact (forallb_weaken _ _ _ reload_keeps_form Hl)|].
  split; [apply replay_keeps_form;
          exact (forallb_weaken _ _ _ probe_keeps_form Hp)|].
  split; [apply replay_keeps_form;
          exact (forallb_weaken _ _ _ (decrypt_keeps_form cx key) Hd)|].
  apply replay_probe. exact Hp.
Qed.

(** X9. The arguments of the calls are those of the closure, on every path
    and whatever the collaborators answer.  In a run of [createCase] the
    value passed to the encryption is the one submitted in clear as the
    first public value of the transaction, [parseInt(age) || 0]; the second
    public value is 0, the name and the description are the name and the
    disease type of the form, the only form ever installed is the empty
    one, and the verifier is not called.  In a run of
    [decryptData(businessId)] the handle is read for [businessId], every
    decryption round is for one handle, against the contract address, with
    the callback bound to [businessId], and no creation is submitted. *)
Theorem calls_carry_the_arguments_of_the_closure :
  forall (W : Type) (E : World W) (cx : Closure) (key : string) (w : W) (s : St),
    forallb (create_event cx) (trace (run E (createCase cx) w s)) = true
    /\ forallb (decrypt_event cx key) (trace (run E (decryptData cx key) w s)) = true
    /\ filter is_verifier_call (trace (run E (createCase cx) w s)) = []
    /\ filter is_create_tx (trace (run E (decryptData cx key) w s)) = [].
Proof.
  intros W E cx key w s.
  pose proof (run_Within E (create_event_createCase cx) w s) as Hc.
  pose proof (run_Within E (decrypt_event_decryptData cx key) w s) as Hd.
  assert (Hno : forall (P Q : Ev -> bool) tr,
             (forall e, P e = true -> Q e = false) ->
             forallb P tr = true -> filter Q tr = []).
  { intros P Q tr HP. induction tr as [|e tr IH]; [reflexivity|].
    cbn [forallb filter]. intros H. apply andb_prop in H as [He Htr].
    now rewrite (HP _ He), (IH Htr). }
  split; [exact Hc|]. split; [exact Hd|].
  split.
  - apply (Hno (create_event cx)); [|exact Hc].
    intros [o|X c]; [reflexivity|]. destruct c; cbn; congruence.
  - apply (Hno (decrypt_event cx key)); [|exact Hd].
    intros [o|X c]; [reflexivity|]. destruct c; cbn; congruence.
Qed.

Example create_sends_the_age_in_clear :
  filter is_create_tx
         (trace (run (scripted all_good) (createCase (connected alice_form)) tt initialSt))
  = [EvCall (CreateBusinessData "case-1700000000000" "Alice" "0xc1ph3r" "0xpr00f"
                                34 0 "Cystic Fibrosis")].
Proof. reflexivity. Qed.

(* ================================================================== *)
(** ** Creation: what a failure leaves behind *)
(* ================================================================== *)


(** X10. A creation either reaches its success banner, and then it has
    returned, the form is empty and the modal closed; or it does not, and
    then the case list, the operation log, the form, the modal, the refresh
    flag and the detail value are what they were: a failed creation costs
    the user nothing they typed. *)
Theorem create_failure_keeps_the_form :
  forall (W : Type) (E : World W) (cx : Closure) (w : W) (s : St),
    let r := run E (createCase cx) w s in
    match filter is_created_banner (trace r) with
    | [] =>
        cases (state r) = cases s
        /\ isRefreshing (state r) = isRefreshing s
        /\ showCreateModal (state r) = showCreateModal s
        /\ newCaseData (state r) = newCaseData s
        /\ operationHistory (state r) = operationHistory s
        /\ localDecrypted (state r) = localDecrypted s
    | _ =>
        outcome r = Returned tt
        /\ newCaseData (state r) = emptyForm
        /\ showCreateModal (state r) = false
    end.
Proof.
  intros W E cx w s. cbv zeta. unfold createCase.
  destruct (connected_address cx) as [a|]; [|cbn; repeat split].
  exec. rewrite run_finally, run_try_catch.
  match goal with |- context [run E (createCase_try cx a) w ?s0] =>
    pose proof (createCase_try_shape E cx a w s0) as Ht;
    pose proof (createCase_try_state E cx a w s0) as Hs
  end.
  cbv zeta in Ht, Hs.
  destruct (run E (createCase_try cx a) w _) as [[u|e] w1 s1 tr1];
    cbn [outcome state trace] in Ht, Hs; unfold or_catch;
    cbn [outcome world state trace].
  - destruct Ht as (Hc & _). destruct Hs as [Hform Hmodal].
    unfold and_finally. exec. read_trace. rewrite Hc. cbn [app].
    destruct u. repeat split; assumption.
  - destruct Ht as (_ & _ & Hc & _).
    destruct (run_createCase_catch E e w1 s1) as (_ & _ & _ & Hc' & _).
    pose proof (createCase_catch_state E e w1 s1) as Hk. cbv zeta in Hk.
    destruct (run E (createCase_catch e) w1 s1) as [o2 w2 s2 tr2].
    cbn [trace state] in Hc', Hk.
    destruct Hk as (K1 & K2 & K3 & K4 & K5 & K6).
    unfold and_finally, emit. exec. cbn [outcome world state trace].
    assert (Hfilter : filter is_created_banner
                        (EvOp (SetCreatingCase true)
                         :: EvOp (SetTransactionStatus
                                    (mkStatus true pending
                                              "Encrypting patient data with FHE..."))
                         :: (tr1 ++ tr2) ++ [EvOp (SetCreatingCase false)]) = []).
    { read_trace. now rewrite Hc, Hc'. }
    destruct o2; cbn [trace]; rewrite Hfilter;
      cbn [apply_op cases isRefreshing showCreateModal newCaseData
           operationHistory localDecrypted];
      rewrite K1, K2, K3, K4, K5, K6;
      destruct Hs as [-> | ->]; repeat split.
Qed.

(** X11. When the [try] block of [createCase] fails with an error object,
    the run returns, the banner reads ["Transaction rejected"] if the
    message contains ["user rejected transaction"] and
    ["Creation failed: "] followed by the message, or by
    ["Unknown error"] for a missing or empty message, otherwise; one
    3000 ms timer is registered, the busy flag is released and nothing is
    appended to the log. *)
Theorem create_reports_the_cause :
  forall (W : Type) (E : World W) (cx : Closure) (a : string) (w : W) (s : St)
         (m : option string),
    connected_address cx = Some a ->
    outcome (run E (createCase_try cx a) w s) = Thrown (Js.Obj m) ->
    let r := run E (createCase cx) w s in
    outcome r = Returned tt
    /\ transactionStatus (state r) = mkStatus true error (creation_error m)
    /\ timers (state r) = (timers s ++ [3000])%list
    /\ creatingCase (state r) = false
    /\ log_entries (trace r) = []
    /\ filter is_created_banner (trace r) = [].
Proof.
  intros W E cx a w s m Ha Hthrown. cbv zeta. unfold createCase. rewrite Ha.
  exec. rewrite run_finally, run_try_catch.
  match goal with |- context [run E (createCase_try cx a) w ?s0] =>
    pose proof (createCase_try_shape E cx a w s0) as Ht;
    pose proof (createCase_try_state E cx a w s0) as Hs;
    destruct (run_ignores_state E (createCase_try cx a) w s s0) as (Ho & _)
  end.
  cbv zeta in Ht, Hs. rewrite Hthrown in Ho. clear Hthrown.
  destruct (run E (createCase_try cx a) w _) as [o1 w1 s1 tr1].
  cbn [outcome state trace] in Ht, Hs, Ho. subst o1.
  destruct Ht as (Hlog & _ & Hc & _).
  unfold or_catch, and_finally, createCase_catch, creation_error.
  exec. unfold emit. cbn [outcome world state trace].
  split; [reflexivity|]. split; [reflexivity|].
  split; [destruct Hs as [-> | ->]; reflexivity|].
  split; [reflexivity|].
  split; read_trace; rewrite ?Hlog, ?Hc; reflexivity.
Qed.

Lemma create_reports_the_cause_witness :
  let E := scripted user_rejects in
  let r := run E (createCase (connected alice_form)) tt initialSt in
  outcome r = Returned tt
  /\ transactionStatus (state r) = mkStatus true error "Transaction rejected"
  /\ timers (state r) = [3000]
  /\ creatingCase (state r) = false
  /\ log_entries (trace r) = []
  /\ filter is_created_banner (trace r) = [].
Proof.
  exact (@create_reports_the_cause unit (scripted user_rejects)
           (connected alice_form) "0xA11CE" tt initialSt
           (Some "user rejected transaction (action=sendTransaction)")
           eq_refl eq_refl).
Defined.

Example create_without_signer_contract :
  transactionStatus
    (state (run (scripted (mkScript (Resolved (Some ReadOnly)) (Resolved None)
                                    (Resolved []) (fun _ => Resolved alice_data)
                                    (Resolved true)
                                    (Resolved (mkEnc "0xc1ph3r" "0xpr00f"))
                                    (Resolved "0xtx") (Resolved tt)
                                    (Resolved "0xhandle") (Resolved []) 0))
                (createCase (connected alice_form)) tt initialSt))
  = mkStatus true error "Creation failed: Failed to get contract with signer".
Proof. reflexivity. Qed.

(* ================================================================== *)
(** ** Decryption: the fresh round, the silent paths and the failure *)
(* ================================================================== *)

Section DecryptPaths.

Variable W : Type.
Variable E : World W.

Local Open Scope list_scope.

Lemma decryptData_keeps_form (cx : Closure) (key : string) (w : W) (s : St) :
  form_part (state (run E (decryptData cx key) w s)) = form_part s.
Proof.
  rewrite run_state. apply replay_keeps_form.
  apply forallb_weaken with (f := decrypt_event cx key).
  - apply decrypt_keeps_form.
  - apply run_Within. apply decrypt_event_decryptData.
Qed.

(** A reload shows the same cases from two states that show the same
    cases. *)
Lemma loadData_cases (cx : Closure) (w : W) (s s' : St) :
  cases s = cases s' ->
  cases (state (run E (loadData cx) w s)) = cases (state (run E (loadData cx) w s')).
Proof.
  intros H. rewrite !run_state, !cases_replay.
  destruct (run_ignores_state E (loadData cx) w s s') as (_ & _ & ->).
  now rewrite H.
Qed.

End DecryptPaths.

(** X12. A fresh decryption.  With a connected wallet, a record the ledger
    reports unverified, both contracts available and every call resolved,
    [decryptData(businessId)] asks the verifier once, for the handle the
    ledger gave, and returns [Number(clearValues[handle])]: the number the
    verifier reported for that handle, [NaN] when it reported none.  The
    ledger is then reloaded, the log gains the reload's entry, if any,
    followed by ["Data decrypted for case: <name>"], and the run ends on the
    success banner with a 2000 ms timer as the last one registered. *)
Theorem decrypt_fresh_returns_the_cleartext :
  forall (W : Type) (E : World W) (cx : Closure) (a key : string) (w : W) (s : St)
         (w1 w2 w3 w4 w5 : W) (c c' : Contract) (d : BusinessData) (h : string)
         (cv : ClearValues),
    connected_address cx = Some a ->
    answer E GetContractReadOnly w = (Resolved (Some c), w1) ->
    answer E (GetBusinessData key) w1 = (Resolved d, w2) ->
    bd_isVerified d = false ->
    answer E GetContractWithSigner w2 = (Resolved (Some c'), w3) ->
    answer E (GetEncryptedValue key) w3 = (Resolved h, w4) ->
    answer E (VerifyDecryption [h] (contractAddress cx) key) w4 = (Resolved cv, w5) ->
    let r := run E (decryptData cx key) w s in
    let l := run E (loadData cx) w5 s in
    outcome r = Returned (Some (Js.Number_of_lookup (clear_lookup cv h)))
    /\ world r = world l
    /\ filter is_write (trace r)
       = [EvCall (VerifyDecryption [h] (contractAddress cx) key)]
    /\ cases (state r) = cases (state l)
    /\ log_entries (trace r)
       = (log_entries (trace l)
          ++ [("Data decrypted for case: " ++ bd_name d)%string])%list
    /\ transactionStatus (state r)
       = mkStatus true success "Data decrypted successfully!"
    /\ last (timers (state r)) 0 = 2000.
Proof.
  intros W E cx a key w s w1 w2 w3 w4 w5 c c' d h cv
         Ha H1 H2 Hd H3 H4 H5.
  cbv zeta. unfold decryptData. rewrite Ha, run_try_catch.
  unfold decryptData_try. exec.
  rewrite H1. exec. rewrite H2. exec. rewrite Hd. exec.
  rewrite H3. exec. rewrite H4. exec. rewrite H5. exec.
  rewrite run_bind.
  match goal with |- context [run E (loadData cx) w5 ?s0] =>
    pose proof (loadData_cases E cx w5 s0 s eq_refl) as Hcases;
    destruct (run_ignores_state E (loadData cx) w5 s0 s) as (_ & Hw & Htr)
  end.
  use_reload E cx.
  destruct (run E (loadData cx) w5 s) as [o' w' s' tr'].
  cbn [world state trace] in *. subst.
  exec. unfold or_catch. cbn [outcome world state trace].
  split; [reflexivity|]. split; [reflexivity|].
  split.
  { read_trace. rewrite HW. reflexivity. }
  split; [exact Hcases|].
  split.
  { read_trace. reflexivity. }
  split; [reflexivity|].
  cbn [apply_op timers]. apply last_last.
Qed.

Lemma decrypt_fresh_returns_the_cleartext_witness :
  let E := scripted all_good in
  let cx := connected emptyForm in
  let r := run E (decryptData cx "case-7") tt initialSt in
  let l := run E (loadData cx) tt initialSt in
  outcome r = Returned (Some (Js.Num 34))
  /\ world r = world l
  /\ filter is_write (trace r)
     = [EvCall (VerifyDecryption ["0xhandle"] "0xC0FFEE" "case-7")]
  /\ cases (state r) = cases (state l)
  /\ log_entries (trace r)
     = (log_entries (trace l) ++ ["Data decrypted for case: Alice"])%list
  /\ transactionStatus (state r)
     = mkStatus true success "Data decrypted successfully!"
  /\ last (timers (state r)) 0 = 2000.
Proof.
  exact (@decrypt_fresh_returns_the_cleartext unit (scripted all_good)
           (connected emptyForm) "0xA11CE" "case-7" tt initialSt
           tt tt tt tt tt ReadOnly WithSigner alice_data "0xhandle"
           [("0xhandle", 34)]
           eq_refl eq_refl eq_refl eq_refl eq_refl eq_refl eq_refl).
Defined.

(** X13. The silent paths of a decryption.  When [getContractReadOnly]
    resolves to [null], or when the record is unverified and
    [getContractWithSigner] resolves to [null], [decryptData] returns [null]
    having changed nothing: no banner, no timer, no log entry, no call to
    the verifier; and [handleDecrypt] leaves the detail modal as it was. *)
Theorem decrypt_without_contract_is_silent :
  forall (W : Type) (E : World W) (cx : Closure) (a : string) (item : DiseaseCase)
         (w : W) (s : St) (w1 w2 w3 : W) (ro : option Contract) (d : BusinessData),
    let key := "case-" ++ Js.of_Z (id item) in
    connected_address cx = Some a ->
    isVerified item = false ->
    answer E GetContractReadOnly w = (Resolved ro, w1) ->
    (ro <> None ->
     answer E (GetBusinessData key) w1 = (Resolved d, w2)
     /\ bd_isVerified d = false
     /\ answer E GetContractWithSigner w2 = (Resolved None, w3)) ->
    let r := run E (decryptData cx key) w s in
    let r' := run E (handleDecrypt cx item) w s in
    outcome r = Returned None
    /\ state r = s
    /\ forallb is_call (trace r) = true
    /\ filter is_write (trace r) = []
    /\ outcome r' = Returned tt
    /\ state r' = s.
Proof.
  intros W E cx a item w s w1 w2 w3 ro d key Ha Hitem H1 Hrest.
  cbv zeta. unfold handleDecrypt. rewrite Hitem. fold key. rewrite run_bind.
  unfold decryptData. rewrite Ha, run_try_catch.
  unfold decryptData_try. exec. rewrite H1. exec.
  destruct ro as [c|]; exec; [|repeat split].
  destruct Hrest as (H2 & Hd & H3); [discriminate|].
  rewrite H2. exec. rewrite Hd. exec. rewrite H3. exec.
  repeat split.
Qed.

Lemma decrypt_without_contract_is_silent_witness :
  let E := scripted no_signer in
  let cx := connected emptyForm in
  let r := run E (decryptData cx "case-7") tt showing_bob in
  let r' := run E (handleDecrypt cx (case_of 7 alice_data)) tt showing_bob in
  outcome r = Returned None
  /\ state r = showing_bob
  /\ forallb is_call (trace r) = true
  /\ filter is_write (trace r) = []
  /\ outcome r' = Returned tt
  /\ state r' = showing_bob.
Proof.
  apply (@decrypt_without_contract_is_silent unit (scripted no_signer)
           (connected emptyForm) "0xA11CE" (case_of 7 alice_data) tt showing_bob
           tt tt tt (Some ReadOnly) alice_data eq_refl eq_refl eq_refl).
  intros _. repeat split.
Defined.

(** X14. A decryption that fails with an error object whose message does
    not contain ["Data already verified"] returns [null] and shows
    ["Decryption failed"] with one 3000 ms timer.  Nothing else of the state
    changes: the failure came before any write, and this branch does not
    reload. *)
Theorem decrypt_failure_shows_one_error :
  forall (W : Type) (E : World W) (cx : Closure) (a key : string) (w : W) (s : St)
         (m : option string),
    connected_address cx = Some a ->
    outcome (run E (decryptData_try cx key) w s) = Thrown (Js.Obj m) ->
    message_includes m "Data already verified" = false ->
    let t := run E (decryptData_try cx key) w s in
    let r := run E (decryptData cx key) w s in
    outcome r = Returned None
    /\ world r = world t
    /\ trace r = (trace t ++ decryption_failed)%list
    /\ state r = replay decryption_failed s
    /\ snapshots (trace r) = []
    /\ log_entries (trace r) = []
    /\ banners (trace r) = [(error, Some 3000)].
Proof.
  intros W E cx a key w s m Ha Hthrown Hm t r.
  destruct (decryptData_try_thrown E cx key w s Hthrown)
    as (Hst & Hlog & Hsnap & _ & Hban & _).
  fold t in Hst, Hlog, Hsnap, Hban, Hthrown.
  assert (Hr : r = mkResult (Returned None) (world t) (replay decryption_failed s)
                            (trace t ++ decryption_failed)%list).
  { unfold r, decryptData. rewrite Ha, run_try_catch. fold t.
    unfold or_catch. rewrite Hthrown.
    rewrite (@run_decryptData_catch_other W E cx m (world t) (state t) Hm).
    rewrite Hst. reflexivity. }
  rewrite Hr. cbn [outcome world state trace].
  repeat (split; [reflexivity|]).
  split; [rewrite snapshots_app, Hsnap; reflexivity|].
  split; [rewrite log_entries_app, Hlog; reflexivity|].
  rewrite Hban. reflexivity.
Qed.

Lemma decrypt_failure_shows_one_error_witness :
  let E := scripted no_handle in
  let cx := connected emptyForm in
  let t := run E (decryptData_try cx "case-7") tt showing_bob in
  let r := run E (decryptData cx "case-7") tt showing_bob in
  outcome r = Returned None
  /\ world r = world t
  /\ trace r = (trace t ++ decryption_failed)%list
  /\ state r = replay decryption_failed showing_bob
  /\ snapshots (trace r) = []
  /\ log_entries (trace r) = []
  /\ banners (trace r) = [(error, Some 3000)].
Proof.
  exact (@decrypt_failure_shows_one_error unit (scripted no_handle)
           (connected emptyForm) "0xA11CE" "case-7" tt showing_bob
           (Some "call revert exception") eq_refl eq_refl eq_refl).
Defined.

(** X15. The detail modal shows what [decryptData] returned.  For a case
    shown as verified [handleDecrypt] does nothing at all.  Otherwise it
    calls [decryptData] for the key [case-<id>] of the case and completes
    as that call does; the value of the modal becomes the number returned,
    and stays what it was when the call returned [null] or threw. *)
Theorem detail_value_follows_decrypt :
  forall (W : Type) (E : World W) (cx : Closure) (item : DiseaseCase)
         (w : W) (s : St),
    let d := run E (decryptData cx ("case-" ++ Js.of_Z (id item))) w s in
    let r := run E (handleDecrypt cx item) w s in
    if isVerified item then r = mkResult (Returned tt) w s []
    else
      world r = world d
      /\ outcome r = match outcome d with
                     | Returned _ => Returned tt
                     | Thrown e => Thrown e
                     end
      /\ localDecrypted (state r) = match outcome d with
                                    | Returned (Some v) => Some v
                                    | _ => localDecrypted s
                                    end
      /\ cases (state r) = cases (state d)
      /\ operationHistory (state r) = operationHistory (state d)
      /\ transactionStatus (state r) = transactionStatus (state d)
      /\ filter is_call (trace r) = filter is_call (trace d).
Proof.
  intros W E cx item w s. cbv zeta. unfold handleDecrypt.
  destruct (isVerified item); [reflexivity|].
  rewrite run_bind. unfold and_then.
  pose proof (decryptData_keeps_form E cx ("case-" ++ Js.of_Z (id item)) w s) as Hf.
  destruct (run E (decryptData cx ("case-" ++ Js.of_Z (id item))) w s)
    as [[[v|]|e] w' s' tr]; unfold form_part in Hf; cbn [state] in Hf;
    injection Hf as _ _ _ Hl; exec; cbn [outcome world state trace];
    rewrite ?filter_app, ?app_nil_r; cbn [filter is_call app];
    rewrite ?app_nil_r; repeat split; assumption.
Qed.

(* ================================================================== *)
(** ** The availability probe *)
(* ================================================================== *)

(** X16. With a connected wallet every run of [testAvailability] registers
    exactly one 2000 ms timer, in its [finally] block: also when the probe
    answers [false] or the contract is [null] and no banner is shown.  When
    that timer fires it hides the banner that is displayed by then.  The
    log gains ["System availability checked: Ready"] exactly on the runs
    that end on the success banner; every other run leaves the log alone
    and the banner either untouched or on ["Availability check failed"]. *)
Theorem probe_always_registers_its_timer :
  forall (W : Type) (E : World W) (cx : Closure) (w : W) (s : St),
    let r := run E (testAvailability cx) w s in
    timers (state r)
    = (if isConnected cx then timers s ++ [2000] else timers s)%list
    /\ (if isConnected cx
        then transactionStatus (fire_timer (List.length (timers s)) (state r)) = hidden
        else state r = s)
    /\ ((log_entries (trace r) = ["System availability checked: Ready"]
         /\ operationHistory (state r)
            = addToHistory "System availability checked: Ready" (operationHistory s)
         /\ transactionStatus (state r)
            = mkStatus true success "FHE System is available and ready!")
        \/ (log_entries (trace r) = []
            /\ operationHistory (state r) = operationHistory s
            /\ (transactionStatus (state r) = transactionStatus s
                \/ transactionStatus (state r)
                   = mkStatus true error "Availability check failed"))).
Proof.
  intros W E cx w s. cbv zeta. rewrite run_testAvailability.
  assert (Hfire : forall s', timers s' = (timers s ++ [2000])%list ->
                             transactionStatus (fire_timer (List.length (timers s)) s')
                             = hidden).
  { intros s' Hs'. unfold fire_timer. rewrite Hs'.
    rewrite nth_error_app2 by apply Nat.le_refl.
    rewrite Nat.sub_diag. reflexivity. }
  destruct (isConnected cx); cbn [negb].
  2:{ split; [reflexivity|]. split; [reflexivity|]. right. repeat split. now left. }
  cbv zeta.
  destruct (answer E GetContractReadOnly w) as [[[c|]|e] w1].
  - destruct (answer E IsAvailable w1) as [[[|]|e] w2]; cbn [state trace].
    + split; [reflexivity|]. split; [now apply Hfire|]. left. repeat split.
    + split; [reflexivity|]. split; [now apply Hfire|]. right. repeat split.
      now left.
    + split; [reflexivity|]. split; [now apply Hfire|]. right. repeat split.
      now right.
  - cbn [state trace].
    split; [reflexivity|]. split; [now apply Hfire|]. right. repeat split.
    now left.
  - cbn [state trace].
    split; [reflexivity|]. split; [now apply Hfire|]. right. repeat split.
    now right.
Qed.

(** The probe answers [false]: nothing is shown, and the timer it leaves
    hides the banner of a creation that started in the meantime. *)
Example probe_timer_hides_a_later_banner :
  let sc := mkScript (Resolved (Some ReadOnly)) (Resolved (Some WithSigner))
                     (Resolved []) (fun _ => Resolved alice_data)
                     (Resolved false)
                     (Resolved (mkEnc "0xc1ph3r" "0xpr00f"))
                     (Resolved "0xtx") (Resolved tt) (Resolved "0xhandle")
                     (Resolved []) 0 in
  let r := run (scripted sc) (testAvailability (connected emptyForm)) tt initialSt in
  transactionStatus (state r) = hidden
  /\ timers (state r) = [2000]
  /\ transactionStatus
       (fire_timer 0
          (apply_op (SetTransactionStatus
                       (mkStatus true pending "Encrypting patient data with FHE..."))
                    (state r)))
     = hidden.
Proof. repeat split. Qed.

(* ================================================================== *)
(** ** Invariants of the view-driven system *)
(* ================================================================== *)

Section LogInvariant.

Local Open Scope nat_scope.
Local Open Scope list_scope.

Lemma apply_op_log (o : Op) (s : St) :
  List.length (operationHistory (apply_op o s))
  <= Nat.max 10 (List.length (operationHistory s)).
Proof.
  destruct o; cbn [apply_op operationHistory]; try apply Nat.le_max_r.
  etransitivity; [apply addToHistory_length|apply Nat.le_max_l].
Qed.

Lemma replay_log (tr : list Ev) :
  forall s, List.length (operationHistory (replay tr s))
            <= Nat.max 10 (List.length (operationHistory s)).
Proof.
  unfold replay. induction tr as [|e tr IH]; intros s; cbn [fold_left].
  - apply Nat.le_max_r.
  - etransitivity; [apply IH|].
    destruct e as [o|X c]; [|lia].
    pose proof (apply_op_log o s). lia.
Qed.

Lemma Within_any {A : Type} (p : Prog A) : Within (fun _ => true) p.
Proof. induction p; constructor; auto. Qed.

Lemma settle_replay {A : Type} (p : Prog A) (t : Z) (s : St) :
  fst (fst (settle p t s)) = replay (snd (fst (settle p t s))) s.
Proof. apply (settle_Within t (Within_any p) s). Qed.

Lemma fire_timer_log (i : nat) (s : St) :
  operationHistory (fire_timer i s) = operationHistory s.
Proof. unfold fire_timer. destruct (nth_error (timers s) i); reflexivity. Qed.

Variable W : Type.
Variable E : World W.

Lemma invoke_log (k : Kind) (p : Prog unit) (w : W) (sys : Sys) :
  List.length (operationHistory (ui (invoke E k p w sys)))
  <= Nat.max 10 (List.length (operationHistory (ui sys))).
Proof.
  unfold invoke. pose proof (settle_replay p (clock E w) (ui sys)) as H.
  destruct (settle p (clock E w) (ui sys)) as [[s' tr] p']. cbn [fst snd] in H.
  cbn [ui]. subst s'. apply replay_log.
Qed.

Lemma step_log (a : Action) (w : W) (sys : Sys) :
  List.length (operationHistory (ui (fst (step E a w sys))))
  <= Nat.max 10 (List.length (operationHistory (ui sys))).
Proof.
  destruct a as [field value|h|h|h|h item|i|i]; cbn [step].
  - cbn [fst ui]. apply apply_op_log.
  - destruct (submit_disabled _ _ _); cbn [fst];
      [apply Nat.le_max_r|apply invoke_log].
  - destruct (isRefreshing (ui sys)); cbn [fst];
      [apply Nat.le_max_r|apply invoke_log].
  - cbn [fst]. apply invoke_log.
  - destruct (isVerified item || h_isDecrypting h); cbn [fst];
      [apply Nat.le_max_r|apply invoke_log].
  - unfold deliver.
    destruct (nth_error (pool sys) i) as [[k p]|]; [|apply Nat.le_max_r].
    destruct p as [a|e|o q|q|X c kont]; try apply Nat.le_max_r.
    destruct (answer E c w) as [x w'].
    pose proof (settle_replay (kont x) (clock E w') (ui sys)) as H.
    destruct (settle (kont x) (clock E w') (ui sys)) as [[s' tr] p'].
    cbn [fst snd] in H. cbn [fst ui]. subst s'. apply replay_log.
  - cbn [fst ui]. rewrite fire_timer_log. apply Nat.le_max_r.
Qed.

Lemma steps_log (l : list Action) :
  forall (w : W) (sys : Sys),
    List.length (operationHistory (ui (fst (steps E l w sys))))
    <= Nat.max 10 (List.length (operationHistory (ui sys))).
Proof.
  induction l as [|a l IH]; intros w sys; cbn [steps].
  - apply Nat.le_max_r.
  - pose proof (step_log a w sys) as Ha.
    destruct (step E a w sys) as [sys' w']. cbn [fst] in Ha.
    specialize (IH w' sys'). lia.
Qed.

End LogInvariant.

(** X17. The operation log never outgrows its bound.  Whatever code runs,
    against whatever collaborators, a log of at most 10 entries has at most
    10 entries afterwards, and a longer one does not grow; the same holds
    for every sequence of user actions, settled promises and timers of the
    view-driven system, so that the log of a fresh component never holds
    more than 10 entries. *)
Theorem log_never_outgrows_ten :
  forall (W : Type) (E : World W) (A : Type) (p : Prog A) (acts : list Action)
         (w : W) (s : St) (sys : Sys),
    (List.length (operationHistory (state (run E p w s)))
     <= Nat.max 10 (List.length (operationHistory s)))%nat
    /\ (List.length (operationHistory (ui (fst (steps E acts w sys))))
        <= Nat.max 10 (List.length (operationHistory (ui sys))))%nat
    /\ (List.length (operationHistory (ui (fst (steps E acts w initialSys))))
        <= 10)%nat.
Proof.
  intros W E A p acts w s sys. split; [|split].
  - rewrite run_state. apply replay_log.
  - apply steps_log.
  - apply (steps_log E acts w initialSys).
Qed.

Section Validation.

Local Open Scope list_scope.

Lemma handleChange_digits (field value : string) (f : CaseForm) :
  Js.all_digits (f_age f) = true ->
  Js.all_digits (f_age (handleChange field value f)) = true.
Proof.
  intros H. unfold handleChange.
  destruct (String.eqb field "age"); [apply strip_all_digits|].
  destruct (String.eqb field "name"); [exact H|].
  destruct (String.eqb field "diseaseType"); [exact H|].
  destruct (String.eqb field "symptoms"); exact H.
Qed.

(** A creation launched by an enabled submit button from a form whose age
    holds digits only passes the validation. *)
Lemma validated_createCase (h : Hooks) (s : St) :
  submit_disabled (creatingCase s) (h_isEncrypting h) (newCaseData s) = false ->
  Js.all_digits (f_age (newCaseData s)) = true ->
  Within validated (createCase (render h s)).
Proof.
  intros Hd Hage.
  apply Within_weaken with (P := create_event (render h s));
    [|apply create_event_createCase].
  pose proof (ageValue_nonneg (render h s) Hage) as Hnn.
  unfold submit_disabled in Hd.
  apply orb_false_elim in Hd as [Hd Hdis].
  apply orb_false_elim in Hd as [Hd _].
  apply orb_false_elim in Hd as [_ Hname].
  intros [o|X c]; [destruct o|destruct c]; cbn; intros H;
    try reflexivity; try discriminate.
  - apply is_emptyForm_spec in H. subst f. reflexivity.
  - apply andb_prop in H as [_ H]. apply Z.eqb_eq in H. subst value.
    now apply Z.leb_le.
  - apply andb_prop in H as [H H4]. apply andb_prop in H as [H H3].
    apply andb_prop in H as [H1 H2].
    apply String.eqb_eq in H1, H4. apply Z.eqb_eq in H2. subst.
    apply Z.leb_le in Hnn. cbn [render formData] in *.
    rewrite Hname, Hdis, H3, Hnn. reflexivity.
Qed.

Lemma decrypt_is_validated (cx : Closure) (key : string) (e : Ev) :
  decrypt_event cx key e = true -> validated e = true.
Proof.
  destruct e as [o|X c]; [destruct o|destruct c]; cbn; intros H;
    try reflexivity; try discriminate.
Qed.

Lemma validated_handleDecrypt (cx : Closure) (item : DiseaseCase) :
  Within validated (handleDecrypt cx item).
Proof.
  unfold handleDecrypt. within.
  apply Within_weaken with (P := decrypt_event cx ("case-" ++ Js.of_Z (id item))).
  - apply decrypt_is_validated.
  - apply decrypt_event_decryptData.
Qed.

Lemma replay_validated (tr : list Ev) :
  forallb validated tr = true ->
  forall s, Js.all_digits (f_age (newCaseData s)) = true ->
            Js.all_digits (f_age (newCaseData (replay tr s))) = true.
Proof.
  unfold replay. induction tr as [|e tr IH]; intros H s Hs; [exact Hs|].
  cbn [forallb] in H. apply andb_prop in H as [He Htr]. cbn [fold_left].
  apply IH; [exact Htr|].
  destruct e as [o|X c]; [|exact Hs].
  destruct o; cbn [apply_op newCaseData]; try exact Hs. exact He.
Qed.

Lemma forallb_app_true {A : Type} (f : A -> bool) (a b : list A) :
  forallb f a = true -> forallb f b = true -> forallb f (a ++ b) = true.
Proof. intros Ha Hb. rewrite forallb_app. now rewrite Ha, Hb. Qed.

Variable W : Type.
Variable E : World W.

Lemma invoke_validated (k : Kind) (p : Prog unit) (w : W) (sys : Sys) :
  Within validated p -> view_validated sys ->
  view_validated (invoke E k p w sys).
Proof.
  intros Hp (Hage & Hpool & Hj). unfold invoke.
  destruct (settle_Within (clock E w) Hp (ui sys)) as (Htr & Hp' & Hst).
  destruct (settle p (clock E w) (ui sys)) as [[s' tr] p'].
  cbn [fst snd] in *. subst s'.
  unfold view_validated; cbn [ui pool journal].
  split; [now apply replay_validated|].
  split; [|now apply forallb_app_true].
  destruct (is_done p'); [exact Hpool|].
  apply Forall_app. split; [exact Hpool|]. constructor; [exact Hp'|constructor].
Qed.

Lemma deliver_validated (i : nat) (w : W) (sys : Sys) :
  view_validated sys -> view_validated (fst (deliver E i w sys)).
Proof.
  intros Hv. unfold deliver.
  destruct (nth_error (pool sys) i) as [[k p]|] eqn:Hnth; [|exact Hv].
  destruct p as [a|e|o q|q|X c kont]; try exact Hv.
  destruct Hv as (Hage & Hpool & Hj).
  assert (Hok : Within validated (Await c kont)).
  { rewrite Forall_forall in Hpool.
    apply (Hpool (mkTask k (Await c kont))).
    eapply nth_error_In; eassumption. }
  destruct (answer E c w) as [x w'].
  destruct (settle_Within (clock E w') (Within_await_inv Hok x) (ui sys))
    as (Htr & Hp' & Hst).
  destruct (settle (kont x) (clock E w') (ui sys)) as [[s' tr] p'].
  cbn [fst snd] in *. subst s'.
  unfold view_validated; cbn [ui pool journal].
  split; [now apply replay_validated|].
  split; [|now apply forallb_app_true].
  rewrite (pool_split _ _ Hnth) in Hpool.
  apply Forall_app in Hpool as [H1 H2]. apply Forall_app in H2 as [_ H2].
  apply Forall_app; split; [exact H1|].
  apply Forall_app; split; [|exact H2].
  destruct (is_done p'); [constructor|].
  constructor; [exact Hp'|constructor].
Qed.

Lemma step_validated (a : Action) (w : W) (sys : Sys) :
  view_validated sys -> view_validated (fst (step E a w sys)).
Proof.
  intros Hv. destruct a as [field value|h|h|h|h item|i|i]; cbn [step].
  - destruct Hv as (Hage & Hpool & Hj). cbn [fst].
    unfold view_validated; cbn [ui pool journal apply_op newCaseData].
    split; [now apply handleChange_digits|]. split; assumption.
  - destruct (submit_disabled _ _ _) eqn:Hd; [exact Hv|]. cbn [fst].
    apply invoke_validated; [|exact Hv].
    apply validated_createCase; [exact Hd|apply Hv].
  - destruct (isRefreshing (ui sys)); [exact Hv|]. cbn [fst].
    apply invoke_validated; [|exact Hv].
    apply Within_loadData. apply reload_is_validated.
  - cbn [fst]. apply invoke_validated; [|exact Hv].
    apply Within_weaken with (P := probe_event);
      [apply probe_is_validated|apply probe_event_testAvailability].
  - destruct (isVerified item || h_isDecrypting h); [exact Hv|]. cbn [fst].
    apply invoke_validated; [|exact Hv]. apply validated_handleDecrypt.
  - apply deliver_validated. exact Hv.
  - destruct Hv as (Hage & Hpool & Hj). cbn [fst].
    unfold view_validated; cbn [ui pool journal].
    split; [|split; assumption].
    unfold fire_timer. destruct (nth_error (timers (ui sys)) i); exact Hage.
Qed.

Lemma steps_validated (l : list Action) :
  forall (w : W) (sys : Sys),
    view_validated sys -> view_validated (fst (steps E l w sys)).
Proof.
  induction l as [|a l IH]; intros w sys Hv; cbn [steps]; [exact Hv|].
  pose proof (step_validated a w Hv) as Hv'.
  destruct (step E a w sys) as [sys' w']. apply IH. exact Hv'.
Qed.

End Validation.

(** X18. What the view lets through.  Driven through the view from a fresh
    component (form edits by [handleChange], the four buttons with their
    [disabled] conditions, promises settling and timers firing in any
    order, against any collaborators), the age field never holds anything
    but digits, and every creation that reaches the ledger carries a name
    and a disease type that are not empty, an age that is not negative as
    its first public value, and 0 as its second. *)
Theorem view_submits_validated_cases :
  forall (W : Type) (E : World W) (acts : list Action) (w : W),
    let sys := fst (steps E acts w initialSys) in
    Js.all_digits (f_age (newCaseData (ui sys))) = true
    /\ forallb validated (journal sys) = true
    /\ Forall (fun t => Within validated (code t)) (pool sys).
Proof.
  intros W E acts w. cbv zeta.
  assert (H0 : view_validated initialSys) by (repeat split; constructor).
  destruct (steps_validated E acts w H0) as (Hage & Hpool & Hj).
  split; [exact Hage|]. split; [exact Hj|exact Hpool].
Qed.
